(** * The memory core of the therapy bot

    A shallow embedding of [MemoryManager] (src/ai_services/memory_manager.py)
    together with the parts of the Mongo gateway (src/database/mongodb.py) and
    of the pydantic models (src/database/models.py) it relies on.

    Conventions.
    - A Python [str] is a list of Unicode code points.
    - A Python [float] is a rational. Where only the value of a score
      matters (the importance scorer, the formula of the ranker) it is the
      exact result of the decimal constants, sums, products and ratios. Where
      the code decides by comparing scores (the cutoff and the sort of the
      ranker) it is a binary64 number: every literal, stored value and
      operation is rounded as the interpreter rounds it ([B64]).
    - A naive [datetime] is a number of microseconds since 1970-01-01 00:00;
      a [timedelta] is the difference of two of them.
    - [async]/[await] is sequential composition: one call runs to completion. *)

From Stdlib Require Import ZArith QArith Qminmax Qround Qpower Lqa Lia.
From Stdlib Require Import List String Ascii Sorted.
From stdpp Require Import base option list gmap sets.

#[local] Open Scope Z_scope.

(** ** Python values *)

Abbreviation str := (list N).

Module Py.

(** Decoding of the UTF-8 bytes of a source literal into code points. *)
Fixpoint utf8_decode (bs : list N) : str :=
  match bs with
  | [] => []
  | b0 :: r0 =>
    if (b0 <? 128)%N then b0 :: utf8_decode r0 else
    match r0 with
    | [] => []
    | b1 :: r1 =>
      if (b0 <? 224)%N
      then ((b0 - 192) * 64 + (b1 - 128))%N :: utf8_decode r1 else
      match r1 with
      | [] => []
      | b2 :: r2 =>
        if (b0 <? 240)%N
        then ((b0 - 224) * 4096 + (b1 - 128) * 64 + (b2 - 128))%N
               :: utf8_decode r2 else
        match r2 with
        | [] => []
        | b3 :: r3 =>
          ((b0 - 240) * 262144 + (b1 - 128) * 4096
           + (b2 - 128) * 64 + (b3 - 128))%N :: utf8_decode r3
        end
      end
    end
  end.

Definition utf8 (s : string) : str :=
  utf8_decode (map N_of_ascii (list_ascii_of_string s)).

(** [len(l)] *)
Definition len {A} (l : list A) : Z := Z.of_nat (length l).

(** [hay.startswith(needle)] and [needle in hay] on strings. *)
Fixpoint startswith (hay needle : str) : bool :=
  match needle, hay with
  | [], _ => true
  | _ :: _, [] => false
  | a :: needle', b :: hay' => (a =? b)%N && startswith hay' needle'
  end.

Fixpoint contains (needle hay : str) : bool :=
  startswith hay needle ||
  match hay with
  | [] => false
  | _ :: hay' => contains needle hay'
  end.

(** [re.findall('[cls]+', text)]: the maximal runs of characters of a
    character class, left to right; [cur] is the run being read. *)
Fixpoint findall_runs (cls : N -> bool) (cur text : str) : list str :=
  match text with
  | [] => match cur with [] => [] | _ => [cur] end
  | c :: text' =>
    if cls c then findall_runs cls (cur ++ [c]) text'
    else match cur with
         | [] => findall_runs cls [] text'
         | _ => cur :: findall_runs cls [] text'
         end
  end.

(** A slice bound as Python normalises it: a negative bound counts from the
    end, and the result is clipped to the sequence. *)
Definition slice_index (size n : Z) : nat :=
  Z.to_nat (if n <? 0 then Z.max 0 (size + n) else n).

(** [l[:n]] and [l[n:]] *)
Definition slice_to {A} (l : list A) (n : Z) : list A :=
  take (slice_index (len l) n) l.

Definition slice_from {A} (l : list A) (n : Z) : list A :=
  drop (slice_index (len l) n) l.

(** Comparisons of floats, and the two-argument [min] and [max], which
    return their first argument unless the second is strictly better. *)
Definition ltb (a b : Q) : bool := negb (Qle_bool b a).
Definition leb (a b : Q) : bool := Qle_bool a b.
Definition min (a b : Q) : Q := if ltb b a then b else a.
Definition max (a b : Q) : Q := if ltb a b then b else a.

(** [int / int]: true division. *)
Definition truediv (a b : Z) : Q := inject_Z a / inject_Z b.

(** [timedelta.days] and [timedelta.seconds] of a difference in
    microseconds: the normal form has [0 <= seconds < 86400] and the sign
    carried by [days]. *)
Definition us_per_second : Z := 1000000.
Definition us_per_day : Z := 86400 * us_per_second.
Definition days (delta : Z) : Z := delta / us_per_day.
Definition seconds (delta : Z) : Z := (delta mod us_per_day) / us_per_second.

(** [l.sort(key=key, reverse=True)]: the sort is stable, also when
    reversed: an element moves behind another only if its key is strictly
    smaller. *)
Fixpoint insert_reverse {A} (key : A -> Q) (x : A) (l : list A) : list A :=
  match l with
  | [] => [x]
  | y :: l' =>
    if ltb (key x) (key y) then y :: insert_reverse key x l' else x :: l
  end.

Definition sort_reverse {A} (key : A -> Q) (l : list A) : list A :=
  foldr (insert_reverse key) [] l.

(** Truth value of an [Optional[str]]: [None] and the empty string are false. *)
Definition truthy (s : option str) : bool :=
  match s with
  | Some (_ :: _) => true
  | _ => false
  end.

End Py.

(** ** binary64 arithmetic

    A finite binary64 number is the rational it denotes. [round] takes a
    rational to the nearest binary64 number, ties to the even significand:
    53 bits, with the exponent of the last place at least -1074. A float
    literal is the rounding of its decimal, and [+], [*] and [int / int]
    round their exact result. The overflow above 2^1024 is not modelled: the
    store holds 8-byte integers and importances within [0, 1], so every
    number that the ranker meets stays far inside the range. *)
Module B64.

(** The exponent of the leading bit of a positive rational:
    [2 ^ ilog2 x <= x < 2 ^ (ilog2 x + 1)]. *)
Definition ilog2 (x : Q) : Z :=
  let k := Z.log2 (Qnum x) - Z.log2 (Zpos (Qden x)) in
  if Qle_bool (2 ^ k) x then k else k - 1.

(** The exponent of the last place of the binary64 numbers around [x]. *)
Definition ulp_exponent (x : Q) : Z := Z.max (ilog2 x - 52) (-1074).

(** The nearest integer, the even one of two that are equally near. *)
Definition rint (x : Q) : Z :=
  let n := Qfloor x in
  match (x - inject_Z n ?= 1 # 2)%Q with
  | Lt => n
  | Eq => if Z.even n then n else n + 1
  | Gt => n + 1
  end.

Definition round_pos (x : Q) : Q :=
  let e := ulp_exponent x in
  (inject_Z (rint (x * 2 ^ (- e))) * 2 ^ e)%Q.

Definition round (x : Q) : Q :=
  match (x ?= 0)%Q with
  | Eq => 0%Q
  | Gt => round_pos x
  | Lt => (- round_pos (- x))%Q
  end.

Definition add (x y : Q) : Q := round (x + y).
Definition mul (x y : Q) : Q := round (x * y).

(** [int / int]: the quotient of the two integers, rounded once. *)
Definition truediv (a b : Z) : Q := round (inject_Z a / inject_Z b).

End B64.

(** ** Models (src/database/models.py) *)

Inductive MessageRole := USER | ASSISTANT.
Inductive MemoryType := SHORT_TERM | LONG_TERM.
Inductive ImportanceLevel := HIGH | MEDIUM | LOW.

#[global] Instance MemoryType_eq_dec : EqDecision MemoryType.
Proof. solve_decision. Defined.

Definition MessageRole_value (r : MessageRole) : str :=
  match r with
  | USER => Py.utf8 "user"
  | ASSISTANT => Py.utf8 "assistant"
  end.

Module Message.
Record t := mk {
  role : MessageRole;
  content : str;
  timestamp : Z;
  emotion_detected : option str;
  context_importance : ImportanceLevel
}.
End Message.

(** A BSON [_id]: [insert_one] generates an [ObjectId]; a query value that
    is a Python [str] is a BSON string, and BSON equality compares the type
    before the value. *)
Inductive bson_id :=
  | ObjectId (oid : N)
  | StringId (s : str).

#[global] Instance bson_id_eq_dec : EqDecision bson_id.
Proof. solve_decision. Defined.

(** A document of the memory collection, as [store_memory] writes it. *)
Module Doc.
Record t := mk {
  _id : bson_id;
  user_id : str;
  memory_type : MemoryType;
  content : str;
  importance_score : Q;
  created_at : Z;
  last_accessed : Z;
  access_count : Z
}.
End Doc.

(** The pydantic model [Memory]; [id] is the [_id] passed through
    [convert_objectid_to_str]. *)
Module Memory.
Record t := mk {
  id : option str;
  user_id : str;
  memory_type : MemoryType;
  content : str;
  importance_score : Q;
  created_at : Z;
  last_accessed : Z;
  access_count : Z
}.
End Memory.

(** ** Lexicons of the scorer and of the tokenizer *)

Definition importance_keywords_high : list str :=
  map Py.utf8 [
    "خودکشی"; "مرگ"; "درد"; "افسرده"; "ناامید"; "تنها";
    "ترس"; "نگران"; "اضطراب"; "عاشق"; "ازدواج"; "طلاق";
    "خانواده"; "پدر"; "مادر"; "فرزند"; "کار"; "شغل";
    "بیماری"; "سلامت"; "دردسر"; "مشکل"; "بحران"; "تصمیم مهم" ]%string.

Definition importance_keywords_medium : list str :=
  map Py.utf8 [
    "دوست"; "رابطه"; "احساس"; "خوشحال"; "ناراحت"; "عصبانی";
    "آرام"; "تغییر"; "برنامه"; "هدف"; "آینده"; "گذشته";
    "خاطره"; "تجربه" ]%string.

Definition importance_keywords_low : list str :=
  map Py.utf8 [
    "روز"; "هفته"; "ماه"; "وقت"; "زمان"; "عادی";
    "معمولی"; "همیشه" ]%string.

Definition personal_pronouns : list str :=
  map Py.utf8 [ "من"; "خودم"; "خود"; "مال من"; "برای من" ]%string.

Definition question_markers : list str :=
  map Py.utf8 [ "?"; "چرا"; "چگونه"; "کی" ]%string.

Definition emotion_weights : gmap str Q :=
  list_to_map
    [ (Py.utf8 "sad", 0.2%Q); (Py.utf8 "angry", 0.15%Q);
      (Py.utf8 "anxious", 0.2%Q); (Py.utf8 "worried", 0.15%Q);
      (Py.utf8 "excited", 0.1%Q); (Py.utf8 "happy", 0.05%Q);
      (Py.utf8 "frustrated", 0.15%Q) ].

Definition stop_words : gset str :=
  list_to_set (map Py.utf8 [
    "و"; "در"; "به"; "از"; "که"; "این";
    "با"; "برای"; "تا"; "بر"; "یا"; "اما";
    "چون"; "اگر"; "وقتی"; "البته"; "بعد"; "قبل";
    "حالا"; "الان"; "امروز"; "دیروز"; "است"; "هست";
    "بود"; "شد"; "می"; "نمی"; "خیلی"; "زیاد";
    "کم"; "فقط" ]%string).

(** ** The interpreter's tables, for text in Latin-1 and in the Arabic blocks

    [str.lower], the regular-expression class [\w] and [strftime] belong to
    the Python runtime. The functions of [MemoryManager] take them as
    parameters; the instances below agree with CPython on the code points
    U+0000-U+00FF and on the caseless blocks U+0600-U+077F, and are what the
    worked examples run with. *)

Definition latin1_lower_char (c : N) : N :=
  if ((65 <=? c) && (c <=? 90))%N then (c + 32)%N
  else if ((192 <=? c) && (c <=? 222) && negb (c =? 215))%N then (c + 32)%N
  else c.

Definition latin1_lower (s : str) : str := map latin1_lower_char s.

Definition latin1_isword (c : N) : bool :=
  existsb (fun r : N * N => (fst r <=? c) && (c <=? snd r))%N
    [ (48, 57); (65, 90); (95, 95); (97, 122); (170, 170); (178, 179);
      (181, 181); (185, 186); (188, 190); (192, 214); (216, 246);
      (248, 255) ]%N.

(** [width] decimal digits of [n], zero padded. *)
Fixpoint decimal (width : nat) (n : Z) : str :=
  match width with
  | O => []
  | S width' => decimal width' (n / 10) ++ [Z.to_N (48 + n mod 10)]
  end.

(** The proleptic Gregorian date of a day number counted from 1970-01-01. *)
Definition civil_from_days (day : Z) : Z * Z * Z :=
  let z := day + 719468 in
  let era := z / 146097 in
  let doe := z - era * 146097 in
  let yoe := (doe - doe / 1460 + doe / 36524 - doe / 146096) / 365 in
  let doy := doe - (365 * yoe + yoe / 4 - yoe / 100) in
  let mp := (5 * doy + 2) / 153 in
  let d := doy - (153 * mp + 2) / 5 + 1 in
  let m := if mp <? 10 then mp + 3 else mp - 9 in
  let y := yoe + era * 400 + (if m <=? 2 then 1 else 0) in
  (y, m, d).

(** [%Y] of the C library that the bot runs on (glibc): the year of a
    [datetime], 1 to 9999, with no padding. *)
Definition year_digits (y : Z) : str :=
  if y <? 10 then decimal 1 y
  else if y <? 100 then decimal 2 y
  else if y <? 1000 then decimal 3 y
  else decimal 4 y.

Definition iso_date (t : Z) : str :=
  let '(y, m, d) := civil_from_days (Py.days t) in
  year_digits y ++ Py.utf8 "-" ++ decimal 2 m ++ Py.utf8 "-" ++ decimal 2 d.

(** ** The process state

    [time_of] and [fails] are the environment: what successive readings of
    [datetime.now()] return, and which calls to the store raise. The rest is
    what the program mutates: how much of the environment has been consumed,
    the memory collection, and the manager's in-process cache. *)

Module CacheEntry.
Record t := mk {
  content : str;
  role : str;
  timestamp : Z;
  importance : Q;
  emotion : option str
}.
End CacheEntry.

Record state := mkState {
  time_of : nat -> Z;
  fails : nat -> bool;
  reads : nat;
  calls : nat;
  memories : list Doc.t;
  oids : N;
  short_term_cache : gmap str (list CacheEntry.t)
}.

Definition with_reads (n : nat) (s : state) : state :=
  mkState (time_of s) (fails s) n (calls s) (memories s) (oids s)
          (short_term_cache s).

Definition with_calls (n : nat) (s : state) : state :=
  mkState (time_of s) (fails s) (reads s) n (memories s) (oids s)
          (short_term_cache s).

Definition with_memories (docs : list Doc.t) (s : state) : state :=
  mkState (time_of s) (fails s) (reads s) (calls s) docs (oids s)
          (short_term_cache s).

Definition with_oids (n : N) (s : state) : state :=
  mkState (time_of s) (fails s) (reads s) (calls s) (memories s) n
          (short_term_cache s).

Definition with_cache (c : gmap str (list CacheEntry.t)) (s : state) : state :=
  mkState (time_of s) (fails s) (reads s) (calls s) (memories s) (oids s) c.

(** A computation returns a value or raises, and leaves a state behind in
    both cases. *)
Inductive outcome (A : Type) : Type :=
  | Return (a : A)
  | Raise.
Arguments Return {A} a.
Arguments Raise {A}.

Definition M (A : Type) : Type := state -> outcome A * state.

#[global] Instance M_ret : MRet M := fun A a s => (Return a, s).

#[global] Instance M_bind : MBind M := fun A B f m s =>
  match m s with
  | (Return a, s') => f a s'
  | (Raise, s') => (Raise, s')
  end.

(** [try: body except Exception: handler] *)
Definition try_except {A} (body handler : M A) : M A := fun s =>
  match body s with
  | (Return a, s') => (Return a, s')
  | (Raise, s') => handler s'
  end.

Definition datetime_now : M Z := fun s =>
  (Return (time_of s (reads s)), with_reads (S (reads s)) s).

(** One call to the store through [_run_in_executor]: the call raises when
    the environment says so, and then leaves the collection as it was. *)
Definition store_call {A} (op : state -> A * state) : M A := fun s =>
  let s' := with_calls (S (calls s)) s in
  if fails s (calls s) then (Raise, s')
  else let '(a, s'') := op s' in (Return a, s'').

(** An in-place update of [self.short_term_cache]. *)
Definition update_cache
    (f : gmap str (list CacheEntry.t) -> gmap str (list CacheEntry.t))
    : M unit := fun s =>
  (Return tt, with_cache (f (short_term_cache s)) s).

(** ** The Mongo gateway (src/database/mongodb.py) *)

Definition hex_digit (d : N) : N := if (d <? 10)%N then (48 + d)%N else (87 + d)%N.

(** [str(ObjectId)]: 24 hexadecimal digits. *)
Definition ObjectId_str (oid : N) : str :=
  map (fun i => hex_digit ((oid / 16 ^ N.of_nat (23 - i)) mod 16)%N) (seq 0 24).

Definition convert_objectid_to_str (v : bson_id) : str :=
  match v with
  | ObjectId oid => ObjectId_str oid
  | StringId s => s
  end.

Definition store_memory (user_id content : str) (memory_type : MemoryType)
    (importance_score : Q) : M str :=
  created_at ← datetime_now;
  last_accessed ← datetime_now;
  store_call (fun s =>
    let oid := oids s in
    let memory_data :=
      Doc.mk (ObjectId oid) user_id memory_type content importance_score
             created_at last_accessed 0 in
    (ObjectId_str oid,
     with_oids (oid + 1) (with_memories (memories s ++ [memory_data]) s))).

(** The query document [{"user_id": ..., "memory_type": ...}]. *)
Definition matches_query (user_id : str) (memory_type : option MemoryType)
    (d : Doc.t) : bool :=
  bool_decide (Doc.user_id d = user_id) &&
  match memory_type with
  | Some ty => bool_decide (Doc.memory_type d = ty)
  | None => true
  end.

(** [sort([("importance_score", -1), ("last_accessed", -1)])]; documents that
    agree on both keys stay in insertion order. *)
Definition sorts_before (a b : Doc.t) : bool :=
  Py.ltb (Doc.importance_score b) (Doc.importance_score a) ||
  (Qeq_bool (Doc.importance_score a) (Doc.importance_score b) &&
   (Doc.last_accessed b <? Doc.last_accessed a)).

Fixpoint cursor_insert (d : Doc.t) (l : list Doc.t) : list Doc.t :=
  match l with
  | [] => [d]
  | e :: l' => if sorts_before e d then e :: cursor_insert d l' else d :: l
  end.

Definition cursor_sort (l : list Doc.t) : list Doc.t := foldr cursor_insert [] l.

(** [cursor.limit(n)]: 0 is no limit, and a negative limit is its absolute
    value. *)
Definition cursor_limit (n : Z) (l : list Doc.t) : list Doc.t :=
  if n =? 0 then l else take (Z.abs_nat n) l.

(** Construction of a [Memory] from a document: the model validates [importance_score] against
    [Field(ge=0.0, le=1.0)]. *)
Definition Memory_of_doc (d : Doc.t) : outcome Memory.t :=
  if Py.leb 0 (Doc.importance_score d) && Py.leb (Doc.importance_score d) 1
  then Return (Memory.mk (Some (convert_objectid_to_str (Doc._id d)))
                 (Doc.user_id d) (Doc.memory_type d) (Doc.content d)
                 (Doc.importance_score d) (Doc.created_at d)
                 (Doc.last_accessed d) (Doc.access_count d))
  else Raise.

Fixpoint Memories_of_docs (docs : list Doc.t) : M (list Memory.t) :=
  match docs with
  | [] => mret []
  | d :: docs' =>
    m ← (fun s => (Memory_of_doc d, s)) : M Memory.t;
    ms ← Memories_of_docs docs';
    mret (m :: ms)
  end.

Definition get_relevant_memories (user_id : str)
    (memory_type : option MemoryType) (limit : Z) : M (list Memory.t) :=
  docs ← store_call (fun s =>
    (cursor_limit limit
       (cursor_sort (filter (fun d => matches_query user_id memory_type d = true)
                            (memories s))), s));
  Memories_of_docs docs.

(** [update_one({"_id": memory_id}, {"$set": ..., "$inc": ...})]: the first
    document whose [_id] equals the string [memory_id] is updated. *)
Definition touch (now : Z) (d : Doc.t) : Doc.t :=
  Doc.mk (Doc._id d) (Doc.user_id d) (Doc.memory_type d) (Doc.content d)
         (Doc.importance_score d) (Doc.created_at d) now
         (Doc.access_count d + 1).

Definition id_matches (memory_id : option str) (d : Doc.t) : bool :=
  match memory_id with
  | Some s => bool_decide (Doc._id d = StringId s)
  | None => false
  end.

Fixpoint update_one (memory_id : option str) (now : Z) (docs : list Doc.t)
    : list Doc.t :=
  match docs with
  | [] => []
  | d :: docs' =>
    if id_matches memory_id d then touch now d :: docs'
    else d :: update_one memory_id now docs'
  end.

Definition update_memory_access (memory_id : option str) : M bool :=
  now ← datetime_now;
  store_call (fun s =>
    (existsb (id_matches memory_id) (memories s),
     with_memories (update_one memory_id now (memories s)) s)).

(** ** Worked inputs *)

(** The message of the end-to-end scenario, with no detected emotion. *)
Definition sad_message : Message.t :=
  Message.mk USER (Py.utf8 "خیلی ناراحتم") 0 None MEDIUM.

(** A message with two terms of the high-importance lexicon. *)
Definition grave_message : Message.t :=
  Message.mk USER (Py.utf8 "من افسرده ناامید هستم") 0 None MEDIUM.

(** 201 letters and nothing else. *)
Definition long_message : Message.t :=
  Message.mk USER (repeat 97%N 201) 0 None MEDIUM.

Definition plain_message (emotion_detected : option str) : Message.t :=
  Message.mk USER (Py.utf8 "hello") 0 emotion_detected MEDIUM.

(** An empty collection, a clock that advances by one second at every
    reading, and a store whose calls all succeed, or all succeed but the
    one numbered [k]. *)
Definition quiet : state :=
  mkState (fun k => Z.of_nat k * Py.us_per_second) (fun _ => false) 0 0 [] 0 ∅.

Definition failing_at (k : nat) : state :=
  mkState (fun k => Z.of_nat k * Py.us_per_second) (fun i => Nat.eqb i k)
          0 0 [] 0 ∅.

Definition owner : str := Py.utf8 "42".

(** A cache with one entry stamped at time 0, read when the clock shows one
    day and ten minutes. *)
Definition stale_entry : CacheEntry.t :=
  CacheEntry.mk (Py.utf8 "hello") (Py.utf8 "user") 0 0.5 None.

Definition stale : state :=
  mkState (fun _ => Py.us_per_day + 600 * Py.us_per_second) (fun _ => false)
          0 0 [] 0 {[ owner := [stale_entry] ]}.

(** ** The memory manager (src/ai_services/memory_manager.py) *)

Section MemoryManager.

(** [str.lower], the class [\w] of the [re] module, and
    [strftime("%Y-%m-%d")]. *)
Variable lower : str -> str.
Variable isword : N -> bool.
Variable strftime_ymd : Z -> str.

(** *** Importance scorer *)

(** [for keyword in keywords: if keyword in content: score += bonus] *)
Definition add_keyword_hits (keywords : list str) (bonus : Q) (content : str)
    (score : Q) : Q :=
  fold_left
    (fun score keyword =>
       if Py.contains keyword content then (score + bonus)%Q else score)
    keywords score.

Definition add_emotion_bonus (emotion_detected : option str) (score : Q) : Q :=
  match emotion_detected with
  | Some emotion =>
    if Py.truthy emotion_detected
    then (score + default 0.05 (emotion_weights !! emotion))%Q
    else score
  | None => score
  end.

Definition add_length_bonus (content : str) (score : Q) : Q :=
  if 100 <? Py.len content then (score + 0.1)%Q
  else if 200 <? Py.len content then (score + 0.15)%Q
  else score.

Definition add_question_bonus (content : str) (score : Q) : Q :=
  if existsb (fun marker => Py.contains marker content) question_markers
  then (score + 0.1)%Q
  else score.

(** The score before the final clamp. *)
Definition unclamped_importance_score (message : Message.t) : Q :=
  let score := 0.5%Q in
  let content := lower (Message.content message) in
  let score := add_keyword_hits importance_keywords_high 0.15 content score in
  let score := add_keyword_hits importance_keywords_medium 0.08 content score in
  let score := add_emotion_bonus (Message.emotion_detected message) score in
  let score := add_length_bonus content score in
  let score := add_question_bonus content score in
  let score := add_keyword_hits personal_pronouns 0.05 content score in
  score.

Definition _calculate_importance_score (message : Message.t) : Q :=
  Py.max 0 (Py.min 1 (unclamped_importance_score message)).

Definition _score_to_importance_level (score : Q) : ImportanceLevel :=
  if Py.leb 0.7 score then HIGH
  else if Py.leb 0.4 score then MEDIUM
  else LOW.

(** *** Tokenizer *)

Definition keyword_char (c : N) : bool :=
  ((1536 <=? c) && (c <=? 1791))%N || ((1792 <=? c) && (c <=? 1919))%N
  || isword c.

Definition _extract_keywords (text : str) : list str :=
  let words := Py.findall_runs keyword_char [] text in
  filter (fun word => 2 < Py.len word /\ word ∉ stop_words) words.

(** [set(self._extract_keywords(text))] *)
Definition keyword_set (text : str) : gset str :=
  list_to_set (_extract_keywords text).

(** *** Relevance ranker *)

(** The steps of [_calculate_time_relevance] on the whole days elapsed. *)
Definition time_relevance (days_ago : Z) : Q :=
  if days_ago <=? 1 then 1.0%Q
  else if days_ago <=? 7 then 0.8%Q
  else if days_ago <=? 30 then 0.6%Q
  else if days_ago <=? 90 then 0.4%Q
  else 0.2%Q.

Definition _calculate_time_relevance (created_at : Z) : M Q :=
  now ← datetime_now;
  mret (time_relevance (Py.days (now - created_at))).

(** The body of the scoring loop for one memory, read over the rationals:
    [None] when the memory is skipped, and otherwise the value that the
    formula denotes. *)
Definition score_memory (current_words : gset str) (memory : Memory.t)
    : M (option (Memory.t * Q)) :=
  let memory_words := keyword_set (lower (Memory.content memory)) in
  let overlap := Z.of_nat (size (current_words ∩ memory_words)) in
  let total_words := Z.of_nat (size (current_words ∪ memory_words)) in
  if 0 <? total_words then
    let similarity := Py.truediv overlap total_words in
    time_factor ← _calculate_time_relevance (Memory.created_at memory);
    let access_factor :=
      Py.min 1.0 (Py.truediv (Memory.access_count memory) 10) in
    let final_score :=
      (similarity * 0.5 + Memory.importance_score memory * 0.3
       + time_factor * 0.1 + access_factor * 0.1)%Q in
    mret (Some (memory, final_score))
  else mret None.

Fixpoint score_memories (current_words : gset str)
    (all_memories : list Memory.t) (scored_memories : list (Memory.t * Q))
    : M (list (Memory.t * Q)) :=
  match all_memories with
  | [] => mret scored_memories
  | memory :: rest =>
    scored ← score_memory current_words memory;
    score_memories current_words rest
      (scored_memories ++ option_list scored)
  end.

(** The same loop body as the interpreter evaluates it. The two ratios are
    [int / int] divisions; the importance is the binary64 number that the
    store holds, the time factor and the constants are float literals; every
    product and every sum rounds, from left to right. *)
Definition float_score_memory (current_words : gset str) (memory : Memory.t)
    : M (option (Memory.t * Q)) :=
  let memory_words := keyword_set (lower (Memory.content memory)) in
  let overlap := Z.of_nat (size (current_words ∩ memory_words)) in
  let total_words := Z.of_nat (size (current_words ∪ memory_words)) in
  if 0 <? total_words then
    let similarity := B64.truediv overlap total_words in
    time_factor ← _calculate_time_relevance (Memory.created_at memory);
    let access_factor :=
      Py.min (B64.round 1.0) (B64.truediv (Memory.access_count memory) 10) in
    let final_score :=
      B64.add
        (B64.add
           (B64.add (B64.mul similarity (B64.round 0.5))
                    (B64.mul (B64.round (Memory.importance_score memory))
                             (B64.round 0.3)))
           (B64.mul (B64.round time_factor) (B64.round 0.1)))
        (B64.mul access_factor (B64.round 0.1)) in
    mret (Some (memory, final_score))
  else mret None.

Fixpoint float_score_memories (current_words : gset str)
    (all_memories : list Memory.t) (scored_memories : list (Memory.t * Q))
    : M (list (Memory.t * Q)) :=
  match all_memories with
  | [] => mret scored_memories
  | memory :: rest =>
    scored ← float_score_memory current_words memory;
    float_score_memories current_words rest
      (scored_memories ++ option_list scored)
  end.

(** The literal [0.2] of the comprehension. *)
Definition cutoff : Q := B64.round 0.2.

(** [[memory for memory, score in scored_memories[:limit] if score > 0.2]]
    after the sort. *)
Definition top_memories (limit : Z) (scored_memories : list (Memory.t * Q))
    : list (Memory.t * Q) :=
  let sorted := Py.sort_reverse snd scored_memories in
  filter (fun entry => Py.ltb cutoff (snd entry) = true)
         (Py.slice_to sorted limit).

Definition _get_contextually_relevant_memories (user_id current_message : str)
    (limit : Z) : M (list Memory.t) :=
  try_except
    (all_memories ← get_relevant_memories user_id (Some LONG_TERM) 50;
     match all_memories with
     | [] => mret []
     | _ =>
       let current_words := keyword_set (lower current_message) in
       scored_memories ← float_score_memories current_words all_memories [];
       mret (map fst (top_memories limit scored_memories))
     end)
    (mret []).

(** *** Storing a message *)

Definition _store_short_term_memory (user_id : str) (message : Message.t)
    (importance_score : Q) : M unit :=
  let content :=
    MessageRole_value (Message.role message) ++ Py.utf8 ": "
    ++ Message.content message in
  let content :=
    match Message.emotion_detected message with
    | Some emotion =>
      if Py.truthy (Some emotion)
      then content ++ Py.utf8 " [emotion: " ++ emotion ++ Py.utf8 "]"
      else content
    | None => content
    end in
  _ ← store_memory user_id content SHORT_TERM importance_score;
  mret tt.

(** [sep.join(parts)] *)
Fixpoint join (sep : str) (parts : list str) : str :=
  match parts with
  | [] => []
  | [part] => part
  | part :: parts' => part ++ sep ++ join sep parts'
  end.

Definition _create_long_term_summary (message : Message.t) : str :=
  let time_context := strftime_ymd (Message.timestamp message) in
  let summary_parts := [Py.utf8 "[" ++ time_context ++ Py.utf8 "]"] in
  let summary_parts :=
    match Message.emotion_detected message with
    | Some emotion =>
      if Py.truthy (Some emotion)
      then summary_parts ++ [Py.utf8 "User felt " ++ emotion]
      else summary_parts
    | None => summary_parts
    end in
  let content := Message.content message in
  let content :=
    if 200 <? Py.len content
    then Py.slice_to content 200 ++ Py.utf8 "..."
    else content in
  let summary_parts := summary_parts ++ [Py.utf8 "Said: " ++ content] in
  join (Py.utf8 " - ") summary_parts.

Definition _store_long_term_memory (user_id : str) (message : Message.t)
    (importance_score : Q) : M unit :=
  let content := _create_long_term_summary message in
  _ ← store_memory user_id content LONG_TERM importance_score;
  mret tt.

(** *** Short-term cache *)

Definition cache_append (user_id : str) (message : Message.t)
    (importance_score : Q) (cache : gmap str (list CacheEntry.t))
    : gmap str (list CacheEntry.t) :=
  let cache_entry :=
    CacheEntry.mk (Message.content message)
                  (MessageRole_value (Message.role message))
                  (Message.timestamp message) importance_score
                  (Message.emotion_detected message) in
  let entries := default [] (cache !! user_id) ++ [cache_entry] in
  let entries :=
    if 20 <? Py.len entries then Py.slice_from entries (-20) else entries in
  <[user_id := entries]> cache.

Definition _update_short_term_cache (user_id : str) (message : Message.t)
    (importance_score : Q) : M unit :=
  update_cache (cache_append user_id message importance_score).

(** The test of the sweep: [(current_time - entry['timestamp']).seconds < 3600]. *)
Definition cache_keeps (current_time : Z) (entry : CacheEntry.t) : bool :=
  Py.seconds (current_time - CacheEntry.timestamp entry) <? 3600.

(** One round of the loop over the owners: the list is filtered, and the
    owner is deleted when nothing is left. *)
Definition sweep_entries (current_time : Z) (entries : list CacheEntry.t)
    : option (list CacheEntry.t) :=
  match filter (fun entry => cache_keeps current_time entry = true) entries with
  | [] => None
  | kept => Some kept
  end.

Definition _cleanup_cache : M unit :=
  current_time ← datetime_now;
  update_cache (omap (sweep_entries current_time)).

(** *** Public operations *)

Definition store_conversation_memory (user_id : str) (message : Message.t)
    : M bool :=
  try_except
    (let importance_score := _calculate_importance_score message in
     let importance_level := _score_to_importance_level importance_score in
     _ ← _store_short_term_memory user_id message importance_score;
     _ ← (if Py.leb 0.7 importance_score
          then _store_long_term_memory user_id message importance_score
          else mret tt);
     _ ← _update_short_term_cache user_id message importance_score;
     mret true)
    (mret false).

(** The two loops of [get_relevant_context]: an item is appended, then the
    access is recorded. *)
Fixpoint append_context (label : str) (memories : list Memory.t)
    (context_items : list str) : M (list str) :=
  match memories with
  | [] => mret context_items
  | memory :: rest =>
    let context_items := context_items ++ [label ++ Memory.content memory] in
    _ ← update_memory_access (Memory.id memory);
    append_context label rest context_items
  end.

Definition get_relevant_context (user_id current_message : str) (limit : Z)
    : M (list str) :=
  try_except
    (let context_items := [] in
     short_term_memories ←
       get_relevant_memories user_id (Some SHORT_TERM) (limit / 2);
     context_items ←
       append_context (Py.utf8 "Recent: ") short_term_memories context_items;
     long_term_memories ←
       _get_contextually_relevant_memories user_id current_message (limit / 2);
     context_items ←
       append_context (Py.utf8 "Background: ") long_term_memories context_items;
     mret context_items)
    (mret []).

(** *** The ranker's formula in the words of the specification (section 4.2) *)

Definition spec_similarity (query_tokens candidate_tokens : gset str) : Q :=
  inject_Z (Z.of_nat (size (query_tokens ∩ candidate_tokens)))
  / inject_Z (Z.of_nat (size (query_tokens ∪ candidate_tokens))).

Inductive spec_recency : Z -> Q -> Prop :=
  | recency_1 age : age <= 1 -> spec_recency age 1
  | recency_7 age : 1 < age <= 7 -> spec_recency age 0.8
  | recency_30 age : 7 < age <= 30 -> spec_recency age 0.6
  | recency_90 age : 30 < age <= 90 -> spec_recency age 0.4
  | recency_old age : 90 < age -> spec_recency age 0.2.

Definition spec_access_factor (access_count : Z) : Q :=
  Qmin 1 (inject_Z access_count / 10).

Definition spec_final_score (query_tokens : gset str) (age_days : Z)
    (candidate : Memory.t) (final_score : Q) : Prop :=
  exists recency,
    spec_recency age_days recency /\
    (final_score ==
       0.5 * spec_similarity query_tokens
               (keyword_set (lower (Memory.content candidate)))
       + 0.3 * Memory.importance_score candidate
       + 0.1 * recency
       + 0.1 * spec_access_factor (Memory.access_count candidate))%Q.


(** The formula as binary64 arithmetic evaluates it, in the order of the
    code: the products first, then the three sums from the left. *)
Definition float_formula (similarity importance recency access_factor : Q)
    : Q :=
  B64.add
    (B64.add
       (B64.add (B64.mul similarity (B64.round 0.5))
                (B64.mul importance (B64.round 0.3)))
       (B64.mul recency (B64.round 0.1)))
    (B64.mul access_factor (B64.round 0.1)).

(** The binary64 numbers that enter it for a candidate of a given age. *)
Definition float_final_score (query_tokens : gset str) (age_days : Z)
    (candidate : Memory.t) : Q :=
  float_formula
    (B64.round (spec_similarity query_tokens
                  (keyword_set (lower (Memory.content candidate)))))
    (B64.round (Memory.importance_score candidate))
    (B64.round (time_relevance age_days))
    (Py.min (B64.round 1.0)
            (B64.round (inject_Z (Memory.access_count candidate) / 10))).

(** A scored candidate carries the score that binary64 arithmetic gives it
    for the age read off the clock at one of the readings from [first] on. *)
Definition float_scored_at (s : state) (first : nat) (query_tokens : gset str)
    (entry : Memory.t * Q) : Prop :=
  exists k, (first <= k)%nat /\
    snd entry
    = float_final_score query_tokens
        (Py.days (time_of s k - Memory.created_at (fst entry))) (fst entry).

(** The candidates that take part in the scoring: the token union is not
    empty. *)
Definition scorable (query_tokens : gset str) (candidate : Memory.t) : Prop :=
  (0 < size (query_tokens ∪ keyword_set (lower (Memory.content candidate))))%nat.

(** The score of a candidate that shares no token with the query: the
    similarity that enters the formula is 0. *)
Definition scored_without_overlap (s : state) (first : nat)
    (entry : Memory.t * Q) : Prop :=
  exists k, (first <= k)%nat /\
    snd entry
    = float_formula 0
        (B64.round (Memory.importance_score (fst entry)))
        (B64.round (time_relevance
           (Py.days (time_of s k - Memory.created_at (fst entry)))))
        (Py.min (B64.round 1.0)
           (B64.round (inject_Z (Memory.access_count (fst entry)) / 10))).

(** Documents whose [_id] the store generated. *)
Definition keyed_by_ObjectId (d : Doc.t) : Prop :=
  exists oid, Doc._id d = ObjectId oid.

(** The items that [get_relevant_context] builds from a list of records. *)
Definition context_of (label : str) (records : list Memory.t) : list str :=
  map (fun memory => label ++ Memory.content memory) records.

(** The same message with no detected emotion. *)
Definition without_emotion (message : Message.t) : Message.t :=
  Message.mk (Message.role message) (Message.content message)
             (Message.timestamp message) None
             (Message.context_importance message).

#[global] Instance scorable_dec (query_tokens : gset str) (candidate : Memory.t)
  : Decision (scorable query_tokens candidate).
Proof. unfold scorable. apply _. Defined.

(** What the store hands to the ranker: the long-term records of the owner,
    or nothing when the query raises. *)
Definition candidate_pool (user_id : str) (s : state) : list Memory.t :=
  match get_relevant_memories user_id (Some LONG_TERM) 50 s with
  | (Return pool, _) => pool
  | (Raise, _) => []
  end.

(** Non-increasing order of the keys. *)
Definition descending {A} (key : A -> Q) : relation A :=
  fun a b => (key b <= key a)%Q.

(** Entries whose score is the given value. *)
Definition has_score (v : Q) (entry : Memory.t * Q) : Prop :=
  Qeq_bool (snd entry) v = true.

#[global] Instance has_score_dec (v : Q) (entry : Memory.t * Q)
  : Decision (has_score v entry).
Proof. unfold has_score. apply _. Defined.


(** *** The scorer in closed form *)

(** The number of terms of a lexicon that occur in a text. *)
Definition lexicon_hits (keywords : list str) (content : str) : Q :=
  inject_Z (Z.of_nat
    (length (filter (fun keyword => Py.contains keyword content = true)
                    keywords))).

(** What each of the remaining signals contributes. *)
Definition emotion_bonus (emotion_detected : option str) : Q :=
  match emotion_detected with
  | Some (c :: emotion) => default 0.05%Q (emotion_weights !! (c :: emotion))
  | _ => 0%Q
  end.

Definition length_bonus (content : str) : Q :=
  if 100 <? Py.len content then 0.1%Q else 0%Q.

Definition question_bonus (content : str) : Q :=
  if existsb (fun marker => Py.contains marker content) question_markers
  then 0.1%Q else 0%Q.

(** The emotion bonus in the words of the specification (section 4.1): the
    weight of the table, and the default also for a label that is unknown
    or absent. [other_signals] is what the rest of the scorer adds to the
    base. *)
Definition other_signals (content : str) : Q :=
  (0.5 + 0.15 * lexicon_hits importance_keywords_high content
   + 0.08 * lexicon_hits importance_keywords_medium content
   + length_bonus content + question_bonus content
   + 0.05 * lexicon_hits personal_pronouns content)%Q.

Definition spec_emotion_bonus (emotion_detected : option str) : Q :=
  match emotion_detected with
  | Some emotion => default 0.05%Q (emotion_weights !! emotion)
  | None => 0.05%Q
  end.

(** *** The query of the gateway, step by step *)

(** The documents that [find(query).sort(...).limit(limit)] selects. *)
Definition selected_docs (user_id : str) (memory_type : option MemoryType)
    (limit : Z) (s : state) : list Doc.t :=
  cursor_limit limit
    (cursor_sort (filter (fun d => matches_query user_id memory_type d = true)
                         (memories s))).

(** The record that the model builds from a document. *)
Definition as_memory (d : Doc.t) : Memory.t :=
  Memory.mk (Some (convert_objectid_to_str (Doc._id d)))
            (Doc.user_id d) (Doc.memory_type d) (Doc.content d)
            (Doc.importance_score d) (Doc.created_at d)
            (Doc.last_accessed d) (Doc.access_count d).

(** The constraint [Field(ge=0.0, le=1.0)] on a document's importance. *)
Definition valid_importance (d : Doc.t) : Prop :=
  (0 <= Doc.importance_score d <= 1)%Q.

(** The order in which the cursor delivers two records: by importance,
    then by last access, both descending. *)
Definition delivered_before (a b : Memory.t) : Prop :=
  (Memory.importance_score b <= Memory.importance_score a)%Q /\
  ((Memory.importance_score b == Memory.importance_score a)%Q ->
   Memory.last_accessed b <= Memory.last_accessed a).

(** *** The purge of the gateway and the remaining operations of the manager *)

Definition raise_or_return {A} (result : outcome A) : M A :=
  fun s => (result, s).

(** [timedelta(days=days)] accepts a magnitude of at most 999999999 days,
    and [datetime - timedelta] must stay between [datetime.min] and
    [datetime.max]; both raise [OverflowError] otherwise. *)
Definition timedelta_days (days : Z) : outcome Z :=
  if Z.abs days <=? 999999999 then Return (days * Py.us_per_day) else Raise.

Definition datetime_min : Z := -719162 * Py.us_per_day.
Definition datetime_max : Z := 2932897 * Py.us_per_day - 1.

Definition datetime_sub (t delta : Z) : outcome Z :=
  if (datetime_min <=? t - delta) && (t - delta <=? datetime_max)
  then Return (t - delta) else Raise.

(** A datetime as BSON keeps it: whole milliseconds, the microseconds
    below them dropped. *)
Definition bson_millis (t : Z) : Z := t / 1000.

(** The filter of [delete_many]: the user's SHORT_TERM documents created
    before the cutoff. The store compares the datetime it holds with the
    datetime of the query, both as BSON keeps them. *)
Definition expired (user_id : str) (cutoff_date : Z) (d : Doc.t) : bool :=
  bool_decide (Doc.user_id d = user_id) &&
  bool_decide (Doc.memory_type d = SHORT_TERM) &&
  (bson_millis (Doc.created_at d) <? bson_millis cutoff_date).

Definition cleanup_old_short_term_memories (user_id : str) (days : Z) : M Z :=
  now ← datetime_now;
  delta ← raise_or_return (timedelta_days days);
  cutoff_date ← raise_or_return (datetime_sub now delta);
  store_call (fun s =>
    let deleted :=
      filter (fun d => expired user_id cutoff_date d = true) (memories s) in
    (Py.len deleted,
     with_memories
       (filter (fun d => expired user_id cutoff_date d = false) (memories s))
       s)).

Definition cleanup_old_memories (user_id : option str) : M unit :=
  try_except
    (_ ← match user_id with
         | Some user =>
           if Py.truthy user_id
           then (deleted_count ← cleanup_old_short_term_memories user 7;
                 mret tt)
           else mret tt
         | None => mret tt
         end;
     _cleanup_cache)
    (mret tt).

(** The dictionary that [get_memory_summary] returns: the five counters,
    or the error entry. *)
Inductive memory_summary :=
  | Summary (short_term_count long_term_count total_memories cache_entries : Z)
            (most_recent_memory : option Z)
  | SummaryError.

Definition get_memory_summary (user_id : str) : M memory_summary :=
  try_except
    (short_term_memories ← get_relevant_memories user_id (Some SHORT_TERM) 100;
     long_term_memories ← get_relevant_memories user_id (Some LONG_TERM) 100;
     cache ← ((fun s => (Return (short_term_cache s), s))
              : M (gmap str (list CacheEntry.t)));
     mret (Summary (Py.len short_term_memories) (Py.len long_term_memories)
             (Py.len short_term_memories + Py.len long_term_memories)
             (Py.len (default [] (cache !! user_id)))
             (Memory.created_at <$> head short_term_memories)))
    (mret SummaryError).

(** The documents that the purge removes: created before the cutoff, to
    the millisecond. *)
Definition purged (user_id : str) (cutoff_date : Z) (d : Doc.t) : Prop :=
  Doc.user_id d = user_id /\ Doc.memory_type d = SHORT_TERM /\
  Doc.created_at d / 1000 < cutoff_date / 1000.

(** A document after one recorded access at time [now]. *)
Definition accessed_at (now : Z) (d d' : Doc.t) : Prop :=
  Doc._id d' = Doc._id d /\ Doc.user_id d' = Doc.user_id d /\
  Doc.memory_type d' = Doc.memory_type d /\ Doc.content d' = Doc.content d /\
  Doc.importance_score d' = Doc.importance_score d /\
  Doc.created_at d' = Doc.created_at d /\
  Doc.last_accessed d' = now /\
  Doc.access_count d' = Doc.access_count d + 1.

(** The cache entry of a message that was scored. *)
Definition entry_of (message : Message.t) (importance_score : Q)
    : CacheEntry.t :=
  CacheEntry.mk (Message.content message)
                (MessageRole_value (Message.role message))
                (Message.timestamp message) importance_score
                (Message.emotion_detected message).

(** *** The callers: emotion detection and personality updates *)

Inductive EmotionalState := STABLE | ANXIOUS | DEPRESSED | EXCITED | CONFUSED.

#[global] Instance EmotionalState_eq_dec : EqDecision EmotionalState.
Proof. solve_decision. Defined.

(** [self.emotion_keywords] of the analysis node, in the order of the
    dictionary literal, which is the order of iteration. *)
Definition emotion_keywords : list (str * str) :=
  [
    (Py.utf8 "خوشحال", Py.utf8 "happy");
    (Py.utf8 "شاد", Py.utf8 "happy");
    (Py.utf8 "خوب", Py.utf8 "happy");
    (Py.utf8 "ناراحت", Py.utf8 "sad");
    (Py.utf8 "غمگین", Py.utf8 "sad");
    (Py.utf8 "افسرده", Py.utf8 "sad");
    (Py.utf8 "عصبانی", Py.utf8 "angry");
    (Py.utf8 "عصبی", Py.utf8 "angry");
    (Py.utf8 "خشمگین", Py.utf8 "angry");
    (Py.utf8 "نگران", Py.utf8 "anxious");
    (Py.utf8 "مضطرب", Py.utf8 "anxious");
    (Py.utf8 "ترسیده", Py.utf8 "anxious");
    (Py.utf8 "آرام", Py.utf8 "calm");
    (Py.utf8 "راحت", Py.utf8 "calm");
    (Py.utf8 "هیجان", Py.utf8 "excited");
    (Py.utf8 "هیجان‌زده", Py.utf8 "excited") ]%string.

(** The branches under [if persian_word in message_lower]; a label that
    none of them knows lets the loop go on. *)
Definition state_of_emotion (emotion : str) : option EmotionalState :=
  if bool_decide (emotion = Py.utf8 "happy") then Some EXCITED
  else if bool_decide (emotion = Py.utf8 "sad") then Some DEPRESSED
  else if bool_decide (emotion = Py.utf8 "angry") then Some STABLE
  else if bool_decide (emotion = Py.utf8 "anxious") then Some ANXIOUS
  else if bool_decide (emotion = Py.utf8 "calm") then Some STABLE
  else if bool_decide (emotion = Py.utf8 "excited") then Some EXCITED
  else None.

Fixpoint scan_emotion_keywords (table : list (str * str)) (message_lower : str)
    : option EmotionalState :=
  match table with
  | [] => None
  | (persian_word, emotion) :: rest =>
    if Py.contains persian_word message_lower
    then match state_of_emotion emotion with
         | Some detected => Some detected
         | None => scan_emotion_keywords rest message_lower
         end
    else scan_emotion_keywords rest message_lower
  end.

(** [message.count(c)] for a one-character [c]. *)
Definition count_char (c : N) (message : str) : Z :=
  Py.len (filter (fun x => x = c) message).

Definition question_words : list str :=
  map Py.utf8 [ "؟"; "چرا"; "چگونه"; "چطور" ]%string.

Definition problem_words : list str :=
  map Py.utf8 [ "مشکل"; "درد"; "ناراحت" ]%string.

Definition _detect_emotional_state (message : str) : EmotionalState :=
  let message_lower := lower message in
  match scan_emotion_keywords emotion_keywords message_lower with
  | Some detected => detected
  | None =>
    if existsb (fun word => Py.contains word message_lower) question_words
       && existsb (fun word => Py.contains word message_lower) problem_words
    then CONFUSED
    else if Py.contains (Py.utf8 "!") message then EXCITED
    else if 1 <? count_char 1567%N message then CONFUSED
    else if 200 <? Py.len message then ANXIOUS
    else STABLE
  end.

(** The words of the table that stand for happiness and for sadness. *)
Definition happy_words : list str :=
  map Py.utf8 [ "خوشحال"; "شاد"; "خوب" ]%string.

Definition sad_words : list str :=
  map Py.utf8 [ "ناراحت"; "غمگین"; "افسرده" ]%string.


(** *** More worked inputs *)

(** A message made of the first four terms of the high lexicon. *)
Definition crisis_message : Message.t :=
  Message.mk USER (join (Py.utf8 " ") (take 4 importance_keywords_high))
             0 None MEDIUM.

(** A collection with one document whose importance is out of range. *)
Definition tainted : state :=
  mkState (fun k => Z.of_nat k * Py.us_per_second) (fun _ => false) 0 0
          [Doc.mk (ObjectId 0) owner SHORT_TERM (Py.utf8 "user: hello")
                  1.5 0 0 0]
          1 ∅.

(** A SHORT_TERM and a LONG_TERM document of one owner, both created at
    time 0, seen eight days later. *)
Definition aged : state :=
  mkState (fun _ => 8 * Py.us_per_day) (fun _ => false) 0 0
          [Doc.mk (ObjectId 0) owner SHORT_TERM (Py.utf8 "user: hello")
                  0.5 0 0 0;
           Doc.mk (ObjectId 1) owner LONG_TERM (Py.utf8 "Said: hello")
                  0.8 0 0 0]
          2 ∅.

(** The cache of one owner at its cap, and a cache with one entry that is
    ten minutes old. *)
Definition crowded : state :=
  mkState (fun k => Z.of_nat k * Py.us_per_second) (fun _ => false) 0 0 [] 0
          {[ owner := repeat stale_entry 20 ]}.

Definition recent : state :=
  mkState (fun _ => 600 * Py.us_per_second) (fun _ => false) 0 0 [] 0
          {[ owner := [stale_entry] ]}.

(** Collections seen on day 10, for the rounding of the scores. *)
Definition on_day_10 (docs : list Doc.t) : state :=
  mkState (fun _ => 10 * Py.us_per_day) (fun _ => false) 0 0 docs
          (N.of_nat (length docs)) ∅.

(** A record that shares no token with the query "omega": the float
    0.26666666666666666 as importance, three days old, four accesses. The
    formula gives it a little less than 0.2. *)
Definition below_in_exact : state :=
  on_day_10
    [Doc.mk (ObjectId 0) owner LONG_TERM (Py.utf8 "alpha")
            (4803839602528529 # 18014398509481984)
            (7 * Py.us_per_day) (7 * Py.us_per_day) 4].

(** The float 0.33333333333333337 as importance, created today, never
    accessed: the formula gives a little more than 0.2. *)
Definition above_in_exact : state :=
  on_day_10
    [Doc.mk (ObjectId 0) owner LONG_TERM (Py.utf8 "alpha")
            (3002399751580331 # 9007199254740992)
            (10 * Py.us_per_day) (10 * Py.us_per_day) 0].

(** Two records to which the formula gives 8/25 for the query "alpha beta":
    similarity 1/2, ten days old, one access; similarity 2/5, created today,
    two accesses. *)
Definition tied_in_exact : state :=
  on_day_10
    [Doc.mk (ObjectId 0) owner LONG_TERM (Py.utf8 "alpha")
            0 0 0 1;
     Doc.mk (ObjectId 1) owner LONG_TERM
            (Py.utf8 "alpha beta gamma delta epsilon")
            0 (10 * Py.us_per_day) 0 2].

(** *** The rounded score against the formula *)

(** Half the distance between two binary64 numbers of [1, 2). *)
Definition unit_roundoff : Q := (2 ^ (-53))%Q.

(** A number of [0, 1] and a binary64 number of [0, 1] within one unit
    roundoff of it. *)
Definition near (rounded exact : Q) : Prop :=
  (0 <= exact <= 1)%Q /\ (0 <= rounded <= 1)%Q /\
  (- unit_roundoff <= rounded - exact <= unit_roundoff)%Q.

(** Two entries for the same record whose scores differ by at most
    2^-49, which is less than 2 * 10^-15. *)
Definition score_tolerance : Q := (2 ^ (-49))%Q.

Definition same_record_close_score (exact rounded : Memory.t * Q) : Prop :=
  fst rounded = fst exact /\
  (- score_tolerance <= snd rounded - snd exact <= score_tolerance)%Q.
(** ** Facts about the Python primitives *)

Lemma ltb_lt (a b : Q) : Py.ltb a b = true <-> (a < b)%Q.
Proof.
  unfold Py.ltb. rewrite negb_true_iff, <- not_true_iff_false, Qle_bool_iff.
  split; [apply Qnot_le_lt | apply Qlt_not_le].
Qed.

Lemma ltb_ge (a b : Q) : Py.ltb a b = false <-> (b <= a)%Q.
Proof.
  unfold Py.ltb. rewrite negb_false_iff. apply Qle_bool_iff.
Qed.

Lemma leb_le (a b : Q) : Py.leb a b = true <-> (a <= b)%Q.
Proof. apply Qle_bool_iff. Qed.

Lemma leb_gt (a b : Q) : Py.leb a b = false <-> (b < a)%Q.
Proof.
  unfold Py.leb. rewrite <- not_true_iff_false, Qle_bool_iff.
  split; [apply Qnot_le_lt | apply Qlt_not_le].
Qed.

Lemma min_Qmin (a b : Q) : (Py.min a b == Qmin a b)%Q.
Proof.
  unfold Py.min. destruct (Py.ltb b a) eqn:E.
  - apply ltb_lt in E. symmetry. apply Q.min_r. lra.
  - apply ltb_ge in E. symmetry. apply Q.min_l. exact E.
Qed.

Lemma slice_to_length {A} (l : list A) (n : Z) :
  0 <= n -> Z.of_nat (length (Py.slice_to l n)) <= n.
Proof.
  intros Hn. unfold Py.slice_to, Py.slice_index.
  rewrite length_take. destruct (Z.ltb_spec n 0); lia.
Qed.

Lemma slice_to_prefix {A} (l : list A) (n : Z) : Py.slice_to l n `prefix_of` l.
Proof. apply prefix_take. Qed.

(** *** The reversed stable sort *)

Section Sort.
Context {A : Type} (key : A -> Q).

Lemma insert_reverse_sorted (x : A) (l : list A) :
  StronglySorted (descending key) l ->
  StronglySorted (descending key) (Py.insert_reverse key x l).
Proof.
  induction 1 as [|y l Hl IH Hy]; simpl.
  - repeat constructor.
  - destruct (Py.ltb (key x) (key y)) eqn:E.
    + apply ltb_lt in E. constructor; [exact IH|].
      assert (Hin : forall z, In z (Py.insert_reverse key x l) -> z = x \/ In z l).
      { clear. induction l as [|w l IHl]; simpl; intros z Hz.
        - destruct Hz as [->|[]]. now left.
        - destruct (Py.ltb (key x) (key w)); simpl in Hz.
          + destruct Hz as [->|Hz]; [right; now left|].
            destruct (IHl _ Hz); [now left | right; now right].
          + destruct Hz as [->|Hz]; [now left | now right]. }
      apply List.Forall_forall. intros z Hz. destruct (Hin _ Hz) as [->|Hz'].
      * unfold descending. lra.
      * rewrite List.Forall_forall in Hy. now apply Hy.
    + apply ltb_ge in E. constructor; [now constructor|].
      constructor; [exact E|].
      eapply List.Forall_impl; [|exact Hy]. unfold descending. intros z Hz. lra.
Qed.

Lemma sort_reverse_sorted (l : list A) :
  StronglySorted (descending key) (Py.sort_reverse key l).
Proof.
  induction l as [|x l IH]; simpl; [constructor|].
  now apply insert_reverse_sorted.
Qed.

Lemma insert_reverse_perm (x : A) (l : list A) :
  Py.insert_reverse key x l ≡ₚ x :: l.
Proof.
  induction l as [|y l IH]; simpl; [done|].
  destruct (Py.ltb (key x) (key y)); [|done].
  rewrite IH. apply Permutation_swap.
Qed.

Lemma sort_reverse_perm (l : list A) : Py.sort_reverse key l ≡ₚ l.
Proof.
  induction l as [|x l IH]; simpl; [done|].
  now rewrite insert_reverse_perm, IH.
Qed.

(** Stability: within one score, the sort keeps the order of its input. *)
Lemma insert_reverse_filter (P : A -> Prop) `{!forall a, Decision (P a)}
    (x : A) (l : list A) :
  (forall y, (key x < key y)%Q -> P x -> ~ P y) ->
  filter P (Py.insert_reverse key x l) = filter P (x :: l).
Proof.
  intros HP. induction l as [|y l IH]; simpl; [done|].
  destruct (Py.ltb (key x) (key y)) eqn:E; [|done].
  apply ltb_lt in E. rewrite filter_cons, IH, !filter_cons.
  destruct (decide (P y)) as [Hy|Hy], (decide (P x)) as [Hx|Hx]; try done.
  exfalso. exact (HP y E Hx Hy).
Qed.

Lemma sort_reverse_filter (P : A -> Prop) `{!forall a, Decision (P a)}
    (l : list A) :
  (forall x y, (key x < key y)%Q -> P x -> ~ P y) ->
  filter P (Py.sort_reverse key l) = filter P l.
Proof.
  intros HP. induction l as [|x l IH]; simpl; [done|].
  rewrite insert_reverse_filter by (apply HP).
  now rewrite !filter_cons, IH.
Qed.

End Sort.

(** *** Powers of two *)

Lemma pow2_pos (k : Z) : (0 < 2 ^ k)%Q.
Proof. now apply Qpower_0_lt. Qed.

Lemma pow2_add (n m : Z) : (2 ^ (n + m) == 2 ^ n * 2 ^ m)%Q.
Proof. now apply Qpower_plus. Qed.

Lemma pow2_le (n m : Z) : n <= m -> (2 ^ n <= 2 ^ m)%Q.
Proof. intros H. now apply Qpower_le_compat_l. Qed.

Lemma pow2_lt_inv (n m : Z) : (2 ^ n < 2 ^ m)%Q -> n < m.
Proof. intros H. now apply (Qpower_lt_compat_l_inv 2). Qed.

Lemma pow2_inject (n : Z) : 0 <= n -> (inject_Z (2 ^ n) == 2 ^ n)%Q.
Proof. intros H. now rewrite Zpower_Qpower. Qed.

Lemma pow2_cancel (e : Z) : (2 ^ (- e) * 2 ^ e == 1)%Q.
Proof. rewrite <- pow2_add. now replace (- e + e) with 0 by lia. Qed.

(** *** The exponent of a positive rational *)

Lemma ilog2_spec (x : Q) :
  (0 < x)%Q -> (2 ^ B64.ilog2 x <= x < 2 ^ (B64.ilog2 x + 1))%Q.
Proof.
  intros Hx. unfold B64.ilog2.
  destruct x as [n d]. cbn [Qnum Qden].
  assert (Hn : 0 < n) by (unfold Qlt in Hx; simpl in Hx; lia).
  set (a := Z.log2 n). set (b := Z.log2 (Z.pos d)).
  assert (Ha : 0 <= a) by apply Z.log2_nonneg.
  assert (Hb : 0 <= b) by apply Z.log2_nonneg.
  destruct (Z.log2_spec n Hn) as [Hn1 Hn2]. fold a in Hn1, Hn2.
  destruct (Z.log2_spec (Z.pos d) ltac:(lia)) as [Hd1 Hd2]. fold b in Hd1, Hd2.
  assert (Hxd : ((n # d) * inject_Z (Z.pos d) == inject_Z n)%Q).
  { unfold Qeq, Qmult, inject_Z. simpl. lia. }
  rewrite Zle_Qle in Hn1, Hd1. rewrite Zlt_Qlt in Hn2, Hd2.
  rewrite pow2_inject in Hn1, Hd1 by lia.
  rewrite pow2_inject in Hn2, Hd2 by lia.
  assert (Hup : ((n # d) < 2 ^ (a - b + 1))%Q).
  { apply (Qmult_lt_r _ _ (2 ^ b)); [apply pow2_pos|].
    rewrite <- pow2_add. replace (a - b + 1 + b) with (Z.succ a) by lia.
    apply Qle_lt_trans with ((n # d) * inject_Z (Z.pos d))%Q.
    - apply Qmult_le_l; [exact Hx | exact Hd1].
    - now rewrite Hxd. }
  assert (Hlow : (2 ^ (a - b - 1) <= n # d)%Q).
  { apply (Qmult_le_r _ _ (2 ^ (Z.succ b))); [apply pow2_pos|].
    rewrite <- pow2_add. replace (a - b - 1 + Z.succ b) with a by lia.
    apply Qle_trans with (inject_Z n); [exact Hn1|].
    rewrite <- Hxd. apply Qmult_le_l; [exact Hx|]. now apply Qlt_le_weak. }
  destruct (Qle_bool (2 ^ (a - b)) (n # d)) eqn:E.
  - apply Qle_bool_iff in E. split; [exact E | exact Hup].
  - split; [exact Hlow|]. replace (a - b - 1 + 1) with (a - b) by lia.
    apply Qnot_le_lt. intros H. apply Qle_bool_iff in H. congruence.
Qed.

Lemma ilog2_monotone (x y : Q) :
  (0 < x)%Q -> (x <= y)%Q -> B64.ilog2 x <= B64.ilog2 y.
Proof.
  intros Hx Hxy.
  destruct (ilog2_spec x Hx) as [Hx1 _].
  destruct (ilog2_spec y ltac:(lra)) as [_ Hy2].
  assert (H : (2 ^ B64.ilog2 x < 2 ^ (B64.ilog2 y + 1))%Q) by lra.
  apply pow2_lt_inv in H. lia.
Qed.

(** *** Rounding to an integer *)

Lemma rint_cases (x : Q) :
  B64.rint x = Qfloor x \/ B64.rint x = Qfloor x + 1.
Proof.
  unfold B64.rint.
  destruct (x - inject_Z (Qfloor x) ?= 1 # 2)%Q; [|now left|now right].
  destruct (Z.even (Qfloor x)); [now left | now right].
Qed.

Lemma rint_monotone (x y : Q) : (x <= y)%Q -> B64.rint x <= B64.rint y.
Proof.
  intros Hxy. pose proof (Qfloor_resp_le x y Hxy) as Hfl.
  destruct (Z.eq_dec (Qfloor x) (Qfloor y)) as [Heq|Hne].
  - unfold B64.rint. rewrite <- Heq.
    destruct (Qcompare_spec (x - inject_Z (Qfloor x)) (1 # 2)) as [Hx|Hx|Hx];
      destruct (Qcompare_spec (y - inject_Z (Qfloor x)) (1 # 2)) as [Hy|Hy|Hy];
      try destruct (Z.even (Qfloor x)); try lia; exfalso; lra.
  - destruct (rint_cases x) as [-> | ->], (rint_cases y) as [-> | ->]; lia.
Qed.

Lemma rint_Z (n : Z) : B64.rint (inject_Z n) = n.
Proof.
  unfold B64.rint. rewrite Qfloor_Z.
  destruct (Qcompare_spec (inject_Z n - inject_Z n) (1 # 2)) as [H|H|H];
    [exfalso; lra | reflexivity | exfalso; lra].
Qed.

Lemma rint_le (x : Q) (n : Z) : (x <= inject_Z n)%Q -> B64.rint x <= n.
Proof. intros H. rewrite <- (rint_Z n). now apply rint_monotone. Qed.

Lemma rint_ge (x : Q) (n : Z) : (inject_Z n <= x)%Q -> n <= B64.rint x.
Proof. intros H. rewrite <- (rint_Z n). now apply rint_monotone. Qed.

(** *** Rounding to binary64: the order is kept *)

Lemma round_pos_nonneg (x : Q) : (0 <= x)%Q -> (0 <= B64.round_pos x)%Q.
Proof.
  intros Hx. unfold B64.round_pos. cbv zeta.
  apply Qmult_le_0_compat; [|apply Qlt_le_weak, pow2_pos].
  change 0%Q with (inject_Z 0). rewrite <- Zle_Qle. apply rint_ge.
  apply Qmult_le_0_compat; [exact Hx | apply Qlt_le_weak, pow2_pos].
Qed.

Lemma round_pos_monotone (x y : Q) :
  (0 < x)%Q -> (x <= y)%Q -> (B64.round_pos x <= B64.round_pos y)%Q.
Proof.
  intros Hx Hxy. assert (Hy : (0 < y)%Q) by lra.
  pose proof (ilog2_monotone x y Hx Hxy) as Hlog.
  unfold B64.round_pos. cbv zeta.
  set (ex := B64.ulp_exponent x). set (ey := B64.ulp_exponent y).
  destruct (Z.eq_dec ex ey) as [Heq|Hne].
  - rewrite <- Heq. apply Qmult_le_compat_r; [|apply Qlt_le_weak, pow2_pos].
    rewrite <- Zle_Qle. apply rint_monotone.
    apply Qmult_le_compat_r; [exact Hxy | apply Qlt_le_weak, pow2_pos].
  - assert (Hey : ey = B64.ilog2 y - 52 /\ B64.ilog2 x < B64.ilog2 y /\ ex < ey)
      by (unfold ex, ey, B64.ulp_exponent in *; lia).
    destruct Hey as (Hey & Hlt & Hex).
    destruct (ilog2_spec x Hx) as [_ Hx2].
    destruct (ilog2_spec y Hy) as [Hy1 _].
    apply Qle_trans with (2 ^ B64.ilog2 y)%Q.
    + set (m := Z.max (B64.ilog2 x + 1 - ex) 0).
      apply Qle_trans with (inject_Z (2 ^ m) * 2 ^ ex)%Q.
      * apply Qmult_le_compat_r; [|apply Qlt_le_weak, pow2_pos].
        rewrite <- Zle_Qle. apply rint_le.
        rewrite pow2_inject by lia.
        apply Qle_trans with (2 ^ (B64.ilog2 x + 1) * 2 ^ (- ex))%Q.
        -- apply Qmult_le_compat_r; [lra | apply Qlt_le_weak, pow2_pos].
        -- rewrite <- pow2_add. apply pow2_le. lia.
      * rewrite pow2_inject by lia. rewrite <- pow2_add. apply pow2_le. lia.
    + apply Qle_trans with (inject_Z (2 ^ 52) * 2 ^ ey)%Q.
      * rewrite pow2_inject by lia. rewrite <- pow2_add.
        apply pow2_le. lia.
      * apply Qmult_le_compat_r; [|apply Qlt_le_weak, pow2_pos].
        rewrite <- Zle_Qle. apply rint_ge.
        rewrite pow2_inject by lia.
        apply Qle_trans with (2 ^ B64.ilog2 y * 2 ^ (- ey))%Q.
        -- rewrite <- pow2_add. apply pow2_le. lia.
        -- apply Qmult_le_compat_r; [exact Hy1 | apply Qlt_le_weak, pow2_pos].
Qed.

Lemma round_monotone (x y : Q) : (x <= y)%Q -> (B64.round x <= B64.round y)%Q.
Proof.
  intros Hxy. unfold B64.round.
  destruct (Qcompare_spec x 0) as [Hx|Hx|Hx];
    destruct (Qcompare_spec y 0) as [Hy|Hy|Hy]; try (exfalso; lra).
  - apply Qle_refl.
  - apply round_pos_nonneg. lra.
  - pose proof (round_pos_nonneg (- x) ltac:(lra)). lra.
  - pose proof (round_pos_monotone (- y) (- x) ltac:(lra) ltac:(lra)). lra.
  - pose proof (round_pos_nonneg (- x) ltac:(lra)).
    pose proof (round_pos_nonneg y ltac:(lra)). lra.
  - now apply round_pos_monotone.
Qed.

(** *** The selection after the sort *)

Lemma sublist_strongly_sorted {A} (R : relation A) (l k : list A) :
  l `sublist_of` k -> StronglySorted R k -> StronglySorted R l.
Proof.
  induction 1 as [|x l k Hs IH|x l k Hs IH]; intros Hk.
  - constructor.
  - apply StronglySorted_inv in Hk as [Hk Hx]. constructor; [now apply IH|].
    rewrite List.Forall_forall in *. intros y Hy. apply Hx.
    apply list_elem_of_In. eapply elem_of_sublist; [|exact Hs].
    now apply list_elem_of_In.
  - apply StronglySorted_inv in Hk as [Hk _]. now apply IH.
Qed.

Lemma top_memories_sublist (limit : Z) (scored : list (Memory.t * Q)) :
  top_memories limit scored `sublist_of` Py.sort_reverse snd scored.
Proof.
  unfold top_memories. etransitivity; [apply sublist_filter; apply _|].
  apply sublist_take.
Qed.

Lemma top_memories_length (limit : Z) (scored : list (Memory.t * Q)) :
  0 <= limit -> Z.of_nat (length (top_memories limit scored)) <= limit.
Proof.
  intros Hl. unfold top_memories.
  pose proof (length_filter (fun entry : Memory.t * Q => Py.ltb cutoff (snd entry) = true)
                (Py.slice_to (Py.sort_reverse snd scored) limit)) as Hf.
  pose proof (slice_to_length (Py.sort_reverse snd scored) limit Hl). lia.
Qed.

Lemma top_memories_above (limit : Z) (scored : list (Memory.t * Q)) :
  Forall (fun entry => (cutoff < snd entry)%Q) (top_memories limit scored).
Proof.
  apply List.Forall_forall. intros e He. apply list_elem_of_In in He.
  unfold top_memories in He. apply list_elem_of_filter in He as [He _].
  now apply ltb_lt.
Qed.

Lemma top_memories_elem_of (limit : Z) (scored : list (Memory.t * Q)) entry :
  entry ∈ top_memories limit scored -> entry ∈ scored.
Proof.
  intros He. rewrite <- (sort_reverse_perm snd scored).
  eapply elem_of_sublist; [exact He | apply top_memories_sublist].
Qed.

Lemma top_memories_sorted (limit : Z) (scored : list (Memory.t * Q)) :
  StronglySorted (descending snd) (top_memories limit scored).
Proof.
  eapply sublist_strongly_sorted; [apply top_memories_sublist|].
  apply sort_reverse_sorted.
Qed.

Lemma has_score_eq (v : Q) (entry : Memory.t * Q) :
  has_score v entry <-> (snd entry == v)%Q.
Proof. unfold has_score. apply Qeq_bool_iff. Qed.

Lemma top_memories_stable (limit : Z) (scored : list (Memory.t * Q)) (v : Q) :
  filter (has_score v) (top_memories limit scored)
    `prefix_of` filter (has_score v) scored.
Proof.
  unfold top_memories.
  set (sorted := Py.sort_reverse snd scored).
  set (above := fun entry : Memory.t * Q => Py.ltb cutoff (snd entry) = true).
  assert (Hsort : filter (has_score v) sorted = filter (has_score v) scored).
  { apply sort_reverse_filter. intros x y Hlt Hx Hy.
    apply has_score_eq in Hx, Hy. lra. }
  rewrite <- Hsort.
  assert (Hpre : filter (has_score v) (Py.slice_to sorted limit)
                   `prefix_of` filter (has_score v) sorted).
  { destruct (slice_to_prefix sorted limit) as [k Hk].
    rewrite Hk at 2. rewrite filter_app. now exists (filter (has_score v) k). }
  assert (Hcomm : filter (has_score v) (filter above (Py.slice_to sorted limit))
                  = filter above (filter (has_score v) (Py.slice_to sorted limit))).
  { generalize (Py.slice_to sorted limit). intros l.
    induction l as [|e l IH]; [done|].
    rewrite !filter_cons.
    destruct (decide (above e)), (decide (has_score v e));
      rewrite ?filter_cons; repeat case_decide; try done; now rewrite IH. }
  rewrite Hcomm.
  assert (Hall : forall l : list (Memory.t * Q),
             Forall (has_score v) l -> filter above l = l \/ filter above l = []).
  { intros l Hl. destruct (Qlt_le_dec cutoff v) as [Hv|Hv].
    - left. induction Hl as [|e l He _ IH]; [done|].
      rewrite filter_cons. apply has_score_eq in He.
      destruct (decide (above e)) as [_|Hn]; [now rewrite IH|].
      exfalso. apply Hn. apply ltb_lt. lra.
    - right. induction Hl as [|e l He _ IH]; [done|].
      rewrite filter_cons. apply has_score_eq in He.
      destruct (decide (above e)) as [Ha|_]; [|exact IH].
      exfalso. apply ltb_lt in Ha. lra. }
  destruct (Hall (filter (has_score v) (Py.slice_to sorted limit))) as [-> | ->].
  - apply List.Forall_forall. intros e He. apply list_elem_of_In in He.
    now apply list_elem_of_filter in He as [He _].
  - exact Hpre.
  - apply prefix_nil.
Qed.

(** ** The state after the steps of the program *)

Lemma bind_run {A B} (m : M A) (f : A -> M B) (s : state) :
  (m ≫= f) s =
  match m s with
  | (Return a, s') => f a s'
  | (Raise, s') => (Raise, s')
  end.
Proof. reflexivity. Qed.

(** One step of a run: the binds are unfolded and the matches on results
    that are known are reduced. *)
Ltac run :=
  repeat first
    [ rewrite bind_run
    | progress cbv beta iota zeta
    | progress unfold mret, M_ret ].

Lemma with_reads_id (s : state) (n : nat) :
  n = reads s -> with_reads n s = s.
Proof. intros ->. now destruct s. Qed.

Lemma Memories_of_docs_state (docs : list Doc.t) (s : state) :
  snd (Memories_of_docs docs s) = s.
Proof.
  induction docs as [|d docs IH]; [done|].
  simpl. rewrite bind_run. destruct (Memory_of_doc d); [|done].
  rewrite bind_run. destruct (Memories_of_docs docs s) as [[ms|] s'] eqn:E;
    simpl in IH; now subst.
Qed.

Lemma get_relevant_memories_state (user_id : str) (ty : option MemoryType)
    (limit : Z) (s : state) :
  snd (get_relevant_memories user_id ty limit s) = with_calls (S (calls s)) s.
Proof.
  unfold get_relevant_memories. rewrite bind_run. unfold store_call.
  destruct (fails s (calls s)); [done|]. apply Memories_of_docs_state.
Qed.

Lemma get_relevant_memories_raises (user_id : str) (ty : option MemoryType)
    (limit : Z) (s : state) :
  fails s (calls s) = true ->
  get_relevant_memories user_id ty limit s = (Raise, with_calls (S (calls s)) s).
Proof.
  intros Hf. unfold get_relevant_memories. rewrite bind_run. unfold store_call.
  now rewrite Hf.
Qed.

(** ** The scoring loop *)

Lemma time_relevance_spec (age : Z) :
  exists recency, spec_recency age recency /\ (time_relevance age == recency)%Q.
Proof.
  unfold time_relevance.
  destruct (Z.leb_spec age 1); [exists 1%Q; split; [now constructor | reflexivity]|].
  destruct (Z.leb_spec age 7); [exists 0.8%Q; split; [constructor; lia | reflexivity]|].
  destruct (Z.leb_spec age 30); [exists 0.6%Q; split; [constructor; lia | reflexivity]|].
  destruct (Z.leb_spec age 90); [exists 0.4%Q; split; [constructor; lia | reflexivity]|].
  exists 0.2%Q; split; [constructor; lia | reflexivity].
Qed.

Lemma access_factor_spec (access_count : Z) :
  (Py.min 1.0 (Py.truediv access_count 10) == spec_access_factor access_count)%Q.
Proof.
  unfold spec_access_factor, Py.truediv. rewrite min_Qmin.
  apply Q.min_compat; reflexivity.
Qed.

Lemma score_memory_run (current_words : gset str) (memory : Memory.t) (s : state) :
  (scorable current_words memory /\
   exists final_score,
     score_memory current_words memory s
       = (Return (Some (memory, final_score)), with_reads (S (reads s)) s) /\
     spec_final_score current_words
       (Py.days (time_of s (reads s) - Memory.created_at memory))
       memory final_score)
  \/ (~ scorable current_words memory /\
      score_memory current_words memory s = (Return None, s)).
Proof.
  unfold score_memory, scorable.
  destruct (Z.ltb_spec 0
    (Z.of_nat (size (current_words ∪ keyword_set (lower (Memory.content memory))))))
    as [Hpos|Hzero].
  - left. split; [lia|]. eexists. split; [reflexivity|].
    destruct (time_relevance_spec
                (Py.days (time_of s (reads s) - Memory.created_at memory)))
      as (recency & Hrec & Heq).
    exists recency. split; [exact Hrec|].
    rewrite access_factor_spec, Heq. unfold spec_similarity, Py.truediv.
    generalize (inject_Z (Z.of_nat (size (current_words
                 ∩ keyword_set (lower (Memory.content memory)))))
               / inject_Z (Z.of_nat (size (current_words
                 ∪ keyword_set (lower (Memory.content memory))))))%Q.
    intros similarity.
    generalize (spec_access_factor (Memory.access_count memory)).
    intros access_factor. lra.
  - right. split; [lia | reflexivity].
Qed.



(** The loop as the interpreter evaluates it scores the same candidates,
    in the same order and at the same readings of the clock. *)
Lemma float_score_memory_run (current_words : gset str) (memory : Memory.t)
    (s : state) :
  (scorable current_words memory /\
   float_score_memory current_words memory s
     = (Return (Some (memory,
                      float_final_score current_words
                        (Py.days (time_of s (reads s)
                                  - Memory.created_at memory)) memory)),
        with_reads (S (reads s)) s))
  \/ (~ scorable current_words memory /\
      float_score_memory current_words memory s = (Return None, s)).
Proof.
  unfold float_score_memory, scorable.
  destruct (Z.ltb_spec 0
    (Z.of_nat (size (current_words ∪ keyword_set (lower (Memory.content memory))))))
    as [Hpos|Hzero].
  - left. split; [lia|].
    unfold _calculate_time_relevance, datetime_now. run.
    unfold float_final_score, float_formula, B64.truediv, spec_similarity.
    reflexivity.
  - right. split; [lia | reflexivity].
Qed.

Lemma float_scored_at_later (s s' : state) (first first' : nat)
    (query_tokens : gset str) (entry : Memory.t * Q) :
  time_of s' = time_of s -> (first <= first')%nat ->
  float_scored_at s' first' query_tokens entry ->
  float_scored_at s first query_tokens entry.
Proof.
  intros Ht Hle (k & Hk & Hs). exists k. split; [lia|]. now rewrite <- Ht.
Qed.

Lemma float_score_memories_run (current_words : gset str)
    (pool : list Memory.t) :
  forall (scored_memories : list (Memory.t * Q)) (s : state),
  exists scored,
    float_score_memories current_words pool scored_memories s
      = (Return (scored_memories ++ scored),
         with_reads (reads s + length scored) s) /\
    map fst scored = filter (scorable current_words) pool /\
    Forall (float_scored_at s (reads s) current_words) scored.
Proof.
  induction pool as [|memory pool IH]; intros acc s.
  - exists []. simpl. rewrite app_nil_r. repeat split; [|constructor].
    unfold mret, M_ret. f_equal. symmetry. apply with_reads_id. lia.
  - simpl. rewrite bind_run.
    destruct (float_score_memory_run current_words memory s)
      as [(Hsc & ->) | (Hsc & ->)].
    + destruct (IH (acc ++ option_list (Some (memory,
                      float_final_score current_words
                        (Py.days (time_of s (reads s)
                                  - Memory.created_at memory)) memory)))
                   (with_reads (S (reads s)) s)) as (scored & -> & Hmap & Hall).
      eexists (_ :: scored). split; [|split].
      * simpl. rewrite <- app_assoc. f_equal.
        unfold with_reads; simpl. f_equal. lia.
      * simpl. rewrite filter_cons. destruct (decide _); [|done].
        now rewrite Hmap.
      * constructor.
        -- exists (reads s). split; [lia | reflexivity].
        -- eapply List.Forall_impl; [|exact Hall]. intros e.
           apply float_scored_at_later; [reflexivity | simpl; lia].
    + destruct (IH (acc ++ option_list None) s) as (scored & -> & Hmap & Hall).
      exists scored. split; [|split].
      * simpl. now rewrite app_nil_r.
      * rewrite filter_cons. now destruct (decide _).
      * exact Hall.
Qed.

(** ** The ranking operation as a whole *)

Lemma top_memories_nil (limit : Z) : top_memories limit [] = [].
Proof. unfold top_memories, Py.slice_to. simpl. now rewrite take_nil. Qed.

Lemma ranker_run (user_id current_message : str) (limit : Z) (s : state) :
  exists scored,
    _get_contextually_relevant_memories user_id current_message limit s
      = (Return (map fst (top_memories limit scored)),
         with_reads (reads s + length scored) (with_calls (S (calls s)) s)) /\
    map fst scored
      = filter (scorable (keyword_set (lower current_message)))
               (candidate_pool user_id s) /\
    Forall (float_scored_at s (reads s) (keyword_set (lower current_message)))
           scored.
Proof.
  unfold _get_contextually_relevant_memories, try_except, candidate_pool.
  rewrite bind_run.
  pose proof (get_relevant_memories_state user_id (Some LONG_TERM) 50 s) as Hst.
  destruct (get_relevant_memories user_id (Some LONG_TERM) 50 s)
    as [[pool|] s1]; simpl in Hst; subst s1.
  - destruct pool as [|memory pool].
    + exists []. rewrite top_memories_nil. repeat split; [|constructor].
      unfold mret, M_ret. f_equal. symmetry. apply with_reads_id. simpl. lia.
    + rewrite bind_run.
      destruct (float_score_memories_run (keyword_set (lower current_message))
                  (memory :: pool) [] (with_calls (S (calls s)) s))
        as (scored & -> & Hmap & Hall).
      exists scored. repeat split; [exact Hmap|].
      eapply List.Forall_impl; [|exact Hall]. intros e.
      apply float_scored_at_later; [reflexivity | simpl; lia].
  - exists []. rewrite top_memories_nil. repeat split; [|constructor].
    unfold mret, M_ret. f_equal. symmetry. apply with_reads_id. simpl. lia.
Qed.

(** ** Relevance ranker: the claims *)


(** C2. With a limit that is not negative, the ranking operation returns at
    most [limit] records; each of them is a candidate of the pool, and the
    final score that the code computed for it, the binary64 value of the
    formula, is strictly above the float 0.2. *)
Theorem rank_bounded_and_above_cutoff (user_id current_message : str)
    (limit : Z) (s : state) :
  0 <= limit ->
  exists entries s',
    _get_contextually_relevant_memories user_id current_message limit s
      = (Return (map fst entries), s') /\
    Z.of_nat (length (map fst entries)) <= limit /\
    Forall (fun entry =>
              fst entry ∈ candidate_pool user_id s /\
              float_scored_at s (reads s)
                (keyword_set (lower current_message)) entry /\
              (cutoff < snd entry)%Q) entries.
Proof.
  intros Hlimit.
  destruct (ranker_run user_id current_message limit s)
    as (scored & Hrun & Hmap & Hall).
  exists (top_memories limit scored). eexists. split; [exact Hrun|]. split.
  - rewrite length_map. now apply top_memories_length.
  - apply List.Forall_forall. intros entry Hin.
    pose proof (top_memories_above limit scored) as Habove.
    rewrite List.Forall_forall in Habove, Hall.
    apply list_elem_of_In in Hin as Hin'.
    apply top_memories_elem_of in Hin'.
    split; [|split].
    + assert (Hf : fst entry ∈ map fst scored) by now apply list_elem_of_fmap_2.
      rewrite Hmap in Hf. now apply list_elem_of_filter in Hf as [_ Hf].
    + apply Hall. now apply list_elem_of_In.
    + now apply Habove.
Qed.

(** C3. The output of the ranking operation is sorted by non-increasing
    final score, the binary64 value that the code computed, and the entries
    of one score appear in it in the order in which the store returned them:
    they are a prefix of the scored candidates of that score, which are in
    retrieval order. *)
Theorem rank_sorted_and_stable (user_id current_message : str) (limit : Z)
    (s : state) :
  exists scored entries s',
    _get_contextually_relevant_memories user_id current_message limit s
      = (Return (map fst entries), s') /\
    map fst scored
      = filter (scorable (keyword_set (lower current_message)))
               (candidate_pool user_id s) /\
    Forall (float_scored_at s (reads s) (keyword_set (lower current_message)))
           scored /\
    StronglySorted (descending snd) entries /\
    forall v, filter (has_score v) entries `prefix_of` filter (has_score v) scored.
Proof.
  destruct (ranker_run user_id current_message limit s)
    as (scored & Hrun & Hmap & Hall).
  exists scored, (top_memories limit scored). eexists.
  split; [exact Hrun|]. split; [exact Hmap|]. split; [exact Hall|]. split.
  - apply top_memories_sorted.
  - intros v. apply top_memories_stable.
Qed.

Lemma spec_similarity_disjoint (query_tokens candidate_tokens : gset str) :
  size (query_tokens ∩ candidate_tokens) = 0%nat ->
  B64.round (spec_similarity query_tokens candidate_tokens) = 0%Q.
Proof.
  intros H. unfold spec_similarity. rewrite H.
  generalize (inject_Z (Z.of_nat (size (query_tokens ∪ candidate_tokens)))).
  intros total. reflexivity.
Qed.

Lemma top_memories_complete (limit : Z) (scored : list (Memory.t * Q)) entry :
  entry ∈ scored -> (cutoff < snd entry)%Q ->
  Z.of_nat (length scored) <= limit ->
  entry ∈ top_memories limit scored.
Proof.
  intros Hin Habove Hlen. unfold top_memories.
  apply list_elem_of_filter. split; [now apply ltb_lt|].
  unfold Py.slice_to. rewrite take_ge.
  - now rewrite sort_reverse_perm.
  - unfold Py.slice_index, Py.len.
    rewrite (Permutation_length (sort_reverse_perm snd scored)).
    destruct (Z.ltb_spec limit 0); lia.
Qed.

Lemma top_memories_none (limit : Z) (scored : list (Memory.t * Q)) :
  Forall (fun entry => (snd entry <= cutoff)%Q) scored ->
  top_memories limit scored = [].
Proof.
  intros Hall. destruct (top_memories limit scored) as [|entry rest] eqn:E; [done|].
  exfalso.
  assert (Hin : entry ∈ top_memories limit scored) by (rewrite E; left).
  pose proof (top_memories_above limit scored) as Habove.
  rewrite List.Forall_forall in Habove, Hall.
  specialize (Habove entry (proj1 (list_elem_of_In _ _) Hin)).
  apply top_memories_elem_of in Hin.
  specialize (Hall entry (proj1 (list_elem_of_In _ _) Hin)). simpl in *. lra.
Qed.

(** C4, as the code has it. When the query shares no token with any
    candidate, every scored candidate has similarity 0: its final score is
    the binary64 value of
    0 * 0.5 + importance * 0.3 + recency * 0.1 + accessFactor * 0.1. The
    ranking is empty when all these scores are at most the float 0.2; a
    candidate whose score is above it is still returned when the limit
    covers the pool. *)
Theorem rank_without_overlap (user_id current_message : str) (limit : Z)
    (s : state) :
  Forall (fun candidate =>
            size (keyword_set (lower current_message)
                  ∩ keyword_set (lower (Memory.content candidate))) = 0%nat)
         (candidate_pool user_id s) ->
  exists scored s',
    _get_contextually_relevant_memories user_id current_message limit s
      = (Return (map fst (top_memories limit scored)), s') /\
    map fst scored
      = filter (scorable (keyword_set (lower current_message)))
               (candidate_pool user_id s) /\
    Forall (scored_without_overlap s (reads s)) scored /\
    (Forall (fun entry => (snd entry <= cutoff)%Q) scored ->
     top_memories limit scored = []) /\
    (forall entry, entry ∈ scored -> (cutoff < snd entry)%Q ->
       Z.of_nat (length scored) <= limit ->
       entry ∈ top_memories limit scored).
Proof.
  intros Hdisjoint.
  destruct (ranker_run user_id current_message limit s)
    as (scored & Hrun & Hmap & Hall).
  exists scored. eexists. split; [exact Hrun|]. split; [exact Hmap|].
  split; [|split].
  - rewrite List.Forall_forall in Hall, Hdisjoint.
    apply List.Forall_forall. intros entry Hin.
    destruct (Hall entry Hin) as (k & Hk & Hscore).
    exists k. split; [exact Hk|].
    assert (Hpool : fst entry ∈ candidate_pool user_id s).
    { assert (Hf : fst entry ∈ map fst scored).
      { apply list_elem_of_fmap_2. now apply list_elem_of_In. }
      rewrite Hmap in Hf. now apply list_elem_of_filter in Hf as [_ Hf]. }
    apply list_elem_of_In in Hpool.
    rewrite Hscore. unfold float_final_score.
    now rewrite (spec_similarity_disjoint _ _ (Hdisjoint _ Hpool)).
  - apply top_memories_none.
  - intros entry. apply top_memories_complete.
Qed.

(** ** Importance scorer: the claims *)

(** C5. The branch of the longer threshold cannot run: a text of more
    than 200 characters is also longer than 100, takes the first branch and
    gets 0.1, never 0.15. *)
Theorem longer_length_bonus_unreachable (content : str) (score : Q) :
  200 < Py.len content ->
  add_length_bonus content score = (score + 0.1)%Q /\
  ~ (add_length_bonus content score == score + 0.15)%Q.
Proof.
  intros Hlong. unfold add_length_bonus.
  destruct (Z.ltb_spec 100 (Py.len content)) as [_|Hshort]; [|lia].
  split; [reflexivity|]. intros Heq. lra.
Qed.

(** The later steps of the scorer add to whatever score they receive. *)
Lemma add_keyword_hits_shift (keywords : list str) (bonus : Q) (content : str) :
  forall score score' shift : Q,
    (score == score' + shift)%Q ->
    (add_keyword_hits keywords bonus content score
     == add_keyword_hits keywords bonus content score' + shift)%Q.
Proof.
  unfold add_keyword_hits.
  induction keywords as [|keyword keywords IH]; intros score score' shift Heq;
    simpl; [exact Heq|].
  apply IH. destruct (Py.contains keyword content); [|exact Heq].
  rewrite Heq. ring.
Qed.

Lemma add_length_bonus_shift (content : str) (score score' shift : Q) :
  (score == score' + shift)%Q ->
  (add_length_bonus content score == add_length_bonus content score' + shift)%Q.
Proof.
  intros Heq. unfold add_length_bonus.
  destruct (100 <? Py.len content); [rewrite Heq; ring|].
  destruct (200 <? Py.len content); [rewrite Heq; ring | exact Heq].
Qed.

Lemma add_question_bonus_shift (content : str) (score score' shift : Q) :
  (score == score' + shift)%Q ->
  (add_question_bonus content score
   == add_question_bonus content score' + shift)%Q.
Proof.
  intros Heq. unfold add_question_bonus.
  destruct (existsb _ question_markers); [rewrite Heq; ring | exact Heq].
Qed.

Lemma emotion_weights_nonempty : emotion_weights !! ([] : str) = None.
Proof. vm_compute. reflexivity. Qed.

(** C6, as the code has it. Before the clamp, the score of a message is the
    score of the same message without emotion plus an emotion bonus: the
    weight of the table for a label the table knows, the default 0.05 for a
    non-empty label it does not know, and nothing when the emotion is absent
    or empty. *)
Theorem emotion_bonus_cases (message : Message.t) :
  exists bonus : Q,
    (unclamped_importance_score message
     == unclamped_importance_score (without_emotion message) + bonus)%Q /\
    (forall emotion weight,
       Message.emotion_detected message = Some emotion ->
       emotion_weights !! emotion = Some weight -> bonus = weight) /\
    (forall emotion,
       Message.emotion_detected message = Some emotion ->
       emotion <> [] -> emotion_weights !! emotion = None -> bonus = 0.05%Q) /\
    (Message.emotion_detected message = None \/
     Message.emotion_detected message = Some [] -> bonus = 0%Q).
Proof.
  set (bonus := match Message.emotion_detected message with
                | Some (c :: e) => default 0.05%Q (emotion_weights !! (c :: e))
                | _ => 0%Q
                end).
  exists bonus. split; [|split; [|split]].
  - unfold unclamped_importance_score. cbv zeta.
    change (Message.content (without_emotion message))
      with (Message.content message).
    change (Message.emotion_detected (without_emotion message))
      with (@None str).
    apply add_keyword_hits_shift, add_question_bonus_shift,
      add_length_bonus_shift.
    generalize (add_keyword_hits importance_keywords_medium 0.08
                  (lower (Message.content message))
                  (add_keyword_hits importance_keywords_high 0.15
                     (lower (Message.content message)) 0.5)).
    intros score. subst bonus. unfold add_emotion_bonus, Py.truthy.
    destruct (Message.emotion_detected message) as [[|c e]|]; ring.
  - intros emotion weight He Hw. subst bonus. rewrite He.
    destruct emotion as [|c e].
    + rewrite emotion_weights_nonempty in Hw. discriminate.
    + now rewrite Hw.
  - intros emotion He Hne Hw. subst bonus. rewrite He.
    destruct emotion as [|c e]; [done|]. now rewrite Hw.
  - intros [He|He]; subst bonus; now rewrite He.
Qed.

(** ** Storing a message: the runs of the program *)

Lemma store_memory_returns (user_id content : str) (ty : MemoryType)
    (importance_score : Q) (s : state) :
  fails s (calls s) = false ->
  exists doc s',
    store_memory user_id content ty importance_score s
      = (Return (ObjectId_str (oids s)), s') /\
    doc = Doc.mk (ObjectId (oids s)) user_id ty content importance_score
                 (time_of s (reads s)) (time_of s (S (reads s))) 0 /\
    memories s' = memories s ++ [doc] /\
    time_of s' = time_of s /\ fails s' = fails s /\
    calls s' = S (calls s) /\ short_term_cache s' = short_term_cache s.
Proof.
  intros Hok. eexists. eexists. split.
  - unfold store_memory, mbind, M_bind, datetime_now, store_call. simpl.
    rewrite Hok. reflexivity.
  - simpl. repeat split.
Qed.

Lemma store_memory_raises (user_id content : str) (ty : MemoryType)
    (importance_score : Q) (s : state) :
  fails s (calls s) = true ->
  exists s',
    store_memory user_id content ty importance_score s = (Raise, s') /\
    memories s' = memories s /\ short_term_cache s' = short_term_cache s.
Proof.
  intros Hko. eexists. split.
  - unfold store_memory, mbind, M_bind, datetime_now, store_call. simpl.
    rewrite Hko. reflexivity.
  - simpl. now split.
Qed.

(** The short-term record is written first, whatever the score. *)
Lemma store_conversation_memory_low (user_id : str) (message : Message.t)
    (s : state) :
  fails s (calls s) = false ->
  (_calculate_importance_score message < 0.7)%Q ->
  exists short s',
    store_conversation_memory user_id message s = (Return true, s') /\
    memories s' = memories s ++ [short] /\
    Doc.memory_type short = SHORT_TERM /\ Doc.user_id short = user_id /\
    Doc.importance_score short = _calculate_importance_score message /\
    Doc.access_count short = 0.
Proof.
  intros Hok Hlow. apply leb_gt in Hlow.
  unfold store_conversation_memory, try_except, _store_short_term_memory.
  cbv zeta.
  match goal with |- context [store_memory ?u ?c ?t ?i] =>
    destruct (store_memory_returns u c t i s Hok)
      as (short & s1 & Hrun & Hshort & Hmem & _) end.
  exists short. eexists. split.
  - run. rewrite Hrun. run. rewrite Hlow. run.
    unfold _update_short_term_cache, update_cache. run. reflexivity.
  - split; [exact Hmem|]. subst short. now cbn.
Qed.

Lemma store_conversation_memory_high (user_id : str) (message : Message.t)
    (s : state) :
  fails s (calls s) = false -> fails s (S (calls s)) = false ->
  (0.7 <= _calculate_importance_score message)%Q ->
  exists short long s',
    store_conversation_memory user_id message s = (Return true, s') /\
    memories s' = memories s ++ [short; long] /\
    Doc.memory_type short = SHORT_TERM /\ Doc.user_id short = user_id /\
    Doc.memory_type long = LONG_TERM /\ Doc.user_id long = user_id /\
    Doc.importance_score long = _calculate_importance_score message.
Proof.
  intros Hok1 Hok2 Hhigh. apply leb_le in Hhigh.
  unfold store_conversation_memory, try_except, _store_short_term_memory,
    _store_long_term_memory.
  cbv zeta.
  match goal with |- context [store_memory ?u ?c SHORT_TERM ?i] =>
    destruct (store_memory_returns u c SHORT_TERM i s Hok1)
      as (short & s1 & Hrun1 & Hshort & Hmem1 & _ & Hf1 & Hc1 & _) end.
  assert (Hok2' : fails s1 (calls s1) = false) by now rewrite Hf1, Hc1.
  match goal with |- context [store_memory ?u ?c LONG_TERM ?i] =>
    destruct (store_memory_returns u c LONG_TERM i s1 Hok2')
      as (long & s2 & Hrun2 & Hlong & Hmem2 & _) end.
  exists short, long. eexists. split.
  - run. rewrite Hrun1. run. rewrite Hhigh. run. rewrite Hrun2. run.
    unfold _update_short_term_cache, update_cache. run. reflexivity.
  - split; [cbn; rewrite Hmem2, Hmem1, <- app_assoc; reflexivity|].
    subst short long. now cbn.
Qed.

(** C7, as the code has it. The message of the scenario contains one term
    of the medium lexicon and nothing else that scores: its importance is
    0.58, below 0.65 and below the threshold of the long-term tier, and
    storing it adds one SHORT_TERM record only. For every message, the
    SHORT_TERM record is written unconditionally and the LONG_TERM record
    exactly when the score is at least 0.7. *)
Theorem tier_decision (user_id : str) (s : state) :
  lower (Message.content sad_message) = Message.content sad_message ->
  fails s (calls s) = false -> fails s (S (calls s)) = false ->
  (_calculate_importance_score sad_message == 0.58)%Q /\
  (exists short s',
     store_conversation_memory user_id sad_message s = (Return true, s') /\
     memories s' = memories s ++ [short] /\
     Doc.memory_type short = SHORT_TERM) /\
  (forall message,
     exists short long s',
       store_conversation_memory user_id message s = (Return true, s') /\
       Doc.memory_type short = SHORT_TERM /\ Doc.memory_type long = LONG_TERM /\
       ((0.7 <= _calculate_importance_score message)%Q /\
        memories s' = memories s ++ [short; long]
        \/ (_calculate_importance_score message < 0.7)%Q /\
           memories s' = memories s ++ [short])).
Proof.
  intros Hlower Hok1 Hok2.
  assert (Hscore : (_calculate_importance_score sad_message == 0.58)%Q).
  { unfold _calculate_importance_score, unclamped_importance_score.
    rewrite Hlower. vm_compute. reflexivity. }
  split; [exact Hscore|]. split.
  - destruct (store_conversation_memory_low user_id sad_message s Hok1)
      as (short & s' & Hrun & Hmem & Hty & _); [rewrite Hscore; reflexivity|].
    now exists short, s'.
  - intros message.
    destruct (Qlt_le_dec (_calculate_importance_score message) 0.7) as [Hlow|Hhigh].
    + destruct (store_conversation_memory_low user_id message s Hok1 Hlow)
        as (short & s' & Hrun & Hmem & Hty & _).
      exists short, (Doc.mk (ObjectId 0) [] LONG_TERM [] 0 0 0 0), s'.
      repeat split; [exact Hrun | exact Hty | right; now split].
    + destruct (store_conversation_memory_high user_id message s Hok1 Hok2 Hhigh)
        as (short & long & s' & Hrun & Hmem & Hty1 & _ & Hty2 & _).
      exists short, long, s'.
      repeat split; [exact Hrun | exact Hty1 | exact Hty2 | left; now split].
Qed.

(** ** Access tracking *)

Lemma update_one_no_match (memory_id : option str) (now : Z) (docs : list Doc.t) :
  Forall keyed_by_ObjectId docs -> update_one memory_id now docs = docs.
Proof.
  induction 1 as [|d docs [oid Hd] _ IH]; [done|].
  simpl. unfold id_matches. destruct memory_id as [id|].
  - rewrite bool_decide_eq_false_2 by (rewrite Hd; discriminate).
    now rewrite IH.
  - now rewrite IH.
Qed.

Lemma update_memory_access_run (memory_id : option str) (s : state) :
  exists s',
    snd (update_memory_access memory_id s) = s' /\
    time_of s' = time_of s /\ fails s' = fails s /\ calls s' = S (calls s) /\
    (Forall keyed_by_ObjectId (memories s) -> memories s' = memories s) /\
    (fails s (calls s) = true -> fst (update_memory_access memory_id s) = Raise) /\
    (fails s (calls s) = false ->
     exists modified, fst (update_memory_access memory_id s) = Return modified).
Proof.
  eexists. split; [reflexivity|].
  unfold update_memory_access. rewrite bind_run. simpl. unfold store_call. simpl.
  destruct (fails s (calls s)); simpl; repeat split; try done.
  - intros Hkeyed. now apply update_one_no_match.
  - intros _. now eexists.
Qed.

Lemma append_context_run (label : str) (records : list Memory.t) :
  forall (context_items : list str) (s : state),
  exists s',
    snd (append_context label records context_items s) = s' /\
    time_of s' = time_of s /\ fails s' = fails s /\
    (Forall keyed_by_ObjectId (memories s) -> memories s' = memories s) /\
    ((exists i, (i < length records)%nat /\ fails s (calls s + i)%nat = true) ->
     fst (append_context label records context_items s) = Raise) /\
    ((forall i, (i < length records)%nat -> fails s (calls s + i)%nat = false) ->
     fst (append_context label records context_items s)
       = Return (context_items ++ context_of label records) /\
     calls s' = (calls s + length records)%nat).
Proof.
  induction records as [|memory records IH]; intros items s.
  - exists s. simpl. split; [done|]. split; [done|]. split; [done|].
    split; [done|]. split.
    + intros (i & Hi & _). lia.
    + intros _. unfold context_of. simpl. rewrite app_nil_r. split; [done | lia].
  - simpl. rewrite bind_run.
    destruct (update_memory_access_run (Memory.id memory) s)
      as (s1 & Hs1 & Ht & Hf & Hc & Hm & Hraise & Hret).
    destruct (update_memory_access (Memory.id memory) s) as [[modified|] s1'] eqn:E;
      simpl in Hs1; subst s1'.
    + destruct (IH (items ++ [label ++ Memory.content memory]) s1)
        as (s2 & Hs2 & Ht2 & Hf2 & Hm2 & Hraise2 & Hret2).
      exists s2. split; [exact Hs2|]. split; [congruence|]. split; [congruence|].
      assert (Hok : fails s (calls s) = false).
      { destruct (fails s (calls s)) eqn:F; [|done].
        specialize (Hraise eq_refl). simpl in Hraise. discriminate. }
      split; [|split].
      * intros Hk. rewrite Hm2; [now apply Hm|]. now rewrite Hm.
      * intros (i & Hi & Hfi). apply Hraise2. destruct i as [|i].
        -- rewrite Nat.add_0_r in Hfi. congruence.
        -- exists i. split; [simpl in Hi; lia|].
           rewrite Hf, Hc. now replace (S (calls s) + i)%nat with (calls s + S i)%nat by lia.
      * intros Hall. destruct Hret2 as [Hr Hcalls].
        { intros i Hi. rewrite Hf, Hc.
          replace (S (calls s) + i)%nat with (calls s + S i)%nat by lia.
          apply Hall. simpl. lia. }
        split.
        -- rewrite Hr. unfold context_of. simpl. now rewrite <- app_assoc.
        -- rewrite Hcalls, Hc. simpl. lia.
    + exists s1. simpl. split; [done|]. split; [done|]. split; [done|].
      split; [exact Hm|]. split; [done|].
      intros Hall. exfalso.
      specialize (Hall 0%nat). rewrite Nat.add_0_r in Hall.
      destruct (Hret (Hall ltac:(simpl; lia))) as [modified Hmod].
      simpl in Hmod. discriminate.
Qed.

(** C8, what the code does. [update_one] is given the identifier as a
    string, and the documents of the collection are keyed by the ObjectId
    that [insert_one] generated: no document matches, and the records that
    context retrieval returns keep their [access_count] and [last_accessed].
    The whole collection is as it was. *)
Theorem context_retrieval_updates_no_record (user_id current_message : str)
    (limit : Z) (s : state) :
  Forall keyed_by_ObjectId (memories s) ->
  memories (snd (get_relevant_context user_id current_message limit s))
    = memories s.
Proof.
  intros Hkeyed. unfold get_relevant_context, try_except.
  rewrite bind_run.
  pose proof (get_relevant_memories_state user_id (Some SHORT_TERM) (limit / 2) s)
    as Hst.
  destruct (get_relevant_memories user_id (Some SHORT_TERM) (limit / 2) s)
    as [[short|] s1]; simpl in Hst; subst s1; [|done].
  rewrite bind_run.
  destruct (append_context_run (Py.utf8 "Recent: ") short []
              (with_calls (S (calls s)) s))
    as (s2 & Hs2 & _ & _ & Hm2 & _).
  specialize (Hm2 Hkeyed). simpl in Hm2.
  destruct (append_context (Py.utf8 "Recent: ") short []
              (with_calls (S (calls s)) s)) as [[items|] s2'];
    simpl in Hs2; subst s2'; [|exact Hm2].
  rewrite bind_run.
  destruct (ranker_run user_id current_message (limit / 2) s2)
    as (scored & -> & _).
  rewrite bind_run.
  match goal with |- context [append_context ?l ?r ?i ?st] =>
    destruct (append_context_run l r i st) as (s4 & Hs4 & _ & _ & Hm4 & _) end.
  simpl in Hm4. rewrite Hm2 in Hm4. specialize (Hm4 Hkeyed).
  match goal with |- context [append_context ?l ?r ?i ?st] =>
    destruct (append_context l r i st) as [[items'|] s4'] end;
    simpl in Hs4; subst s4'; simpl; congruence.
Qed.

(** ** Cache sweep *)

(** C9, what the code does. The sweep compares the [seconds] field of the
    age, which leaves the whole days out: an entry that is older than a day
    and whose age exceeds a whole number of days by less than an hour passes
    the test and stays in its owner's cache. *)
Theorem sweep_keeps_entry_older_than_a_day (s : state) (user_id : str)
    (entries : list CacheEntry.t) (entry : CacheEntry.t) :
  short_term_cache s !! user_id = Some entries ->
  entry ∈ entries ->
  Py.us_per_day <= time_of s (reads s) - CacheEntry.timestamp entry ->
  (time_of s (reads s) - CacheEntry.timestamp entry) mod Py.us_per_day
    < 3600 * Py.us_per_second ->
  exists kept s',
    _cleanup_cache s = (Return tt, s') /\
    short_term_cache s' !! user_id = Some kept /\
    entry ∈ kept.
Proof.
  intros Hcache Hin _ Hfrac.
  assert (Hkeep : cache_keeps (time_of s (reads s)) entry = true).
  { unfold cache_keeps, Py.seconds. apply Z.ltb_lt.
    apply Z.div_lt_upper_bound; [reflexivity|].
    unfold Py.us_per_second in *. lia. }
  assert (Hkept : entry ∈ filter (fun e => cache_keeps (time_of s (reads s)) e = true)
                    entries)
    by now apply list_elem_of_filter.
  unfold _cleanup_cache. rewrite bind_run. simpl.
  destruct (filter (fun e => cache_keeps (time_of s (reads s)) e = true) entries)
    as [|e kept] eqn:E.
  { now apply not_elem_of_nil in Hkept. }
  exists (e :: kept). eexists. split; [reflexivity|]. simpl.
  rewrite lookup_omap, Hcache. simpl. unfold sweep_entries. rewrite E.
  now split.
Qed.

(** ** Failures of the store *)

Lemma ranker_returns (user_id current_message : str) (limit : Z) (s : state) :
  exists ranked s',
    _get_contextually_relevant_memories user_id current_message limit s
      = (Return ranked, s') /\
    time_of s' = time_of s /\ fails s' = fails s /\ calls s' = S (calls s) /\
    memories s' = memories s /\
    (fails s (calls s) = true -> ranked = []).
Proof.
  destruct (ranker_run user_id current_message limit s)
    as (scored & Hrun & Hmap & _).
  eexists. eexists. split; [exact Hrun|]. simpl. repeat split.
  intros Hko. unfold candidate_pool in Hmap.
  rewrite get_relevant_memories_raises in Hmap by exact Hko.
  destruct scored; [now rewrite top_memories_nil | discriminate].
Qed.

Lemma get_relevant_context_returns (user_id current_message : str) (limit : Z)
    (s : state) :
  exists items s',
    get_relevant_context user_id current_message limit s = (Return items, s').
Proof.
  unfold get_relevant_context, try_except.
  match goal with |- context [match ?body s with _ => _ end] =>
    destruct (body s) as [[items|] s'] end; now eexists _, _.
Qed.

Lemma store_conversation_memory_returns (user_id : str) (message : Message.t)
    (s : state) :
  exists stored s',
    store_conversation_memory user_id message s = (Return stored, s').
Proof.
  unfold store_conversation_memory, try_except.
  match goal with |- context [match ?body s with _ => _ end] =>
    destruct (body s) as [[stored|] s'] end; now eexists _, _.
Qed.

(** The first insertion fails: nothing is written. *)
Lemma store_conversation_memory_fails_first (user_id : str)
    (message : Message.t) (s : state) :
  fails s (calls s) = true ->
  exists s',
    store_conversation_memory user_id message s = (Return false, s') /\
    memories s' = memories s /\ short_term_cache s' = short_term_cache s.
Proof.
  intros Hko.
  unfold store_conversation_memory, try_except, _store_short_term_memory.
  cbv zeta.
  match goal with |- context [store_memory ?u ?c ?t ?i] =>
    destruct (store_memory_raises u c t i s Hko) as (s1 & Hrun & Hmem & Hcache) end.
  exists s1. split; [|now split].
  run. rewrite Hrun. run. reflexivity.
Qed.

(** The second insertion fails: the short-term record stays, the cache is
    not updated. *)
Lemma store_conversation_memory_fails_second (user_id : str)
    (message : Message.t) (s : state) :
  fails s (calls s) = false -> fails s (S (calls s)) = true ->
  (0.7 <= _calculate_importance_score message)%Q ->
  exists short s',
    store_conversation_memory user_id message s = (Return false, s') /\
    memories s' = memories s ++ [short] /\
    Doc.memory_type short = SHORT_TERM /\
    short_term_cache s' = short_term_cache s.
Proof.
  intros Hok Hko Hhigh. apply leb_le in Hhigh.
  unfold store_conversation_memory, try_except, _store_short_term_memory,
    _store_long_term_memory.
  cbv zeta.
  match goal with |- context [store_memory ?u ?c SHORT_TERM ?i] =>
    destruct (store_memory_returns u c SHORT_TERM i s Hok)
      as (short & s1 & Hrun1 & Hshort & Hmem1 & _ & Hf1 & Hc1 & Hcache1) end.
  assert (Hko' : fails s1 (calls s1) = true) by now rewrite Hf1, Hc1.
  match goal with |- context [store_memory ?u ?c LONG_TERM ?i] =>
    destruct (store_memory_raises u c LONG_TERM i s1 Hko')
      as (s2 & Hrun2 & Hmem2 & Hcache2) end.
  exists short, s2. split.
  - run. rewrite Hrun1. run. rewrite Hhigh. run. rewrite Hrun2. run.
    reflexivity.
  - split; [congruence|]. split; [now subst short | congruence].
Qed.

(** C10, as the code has it. Neither public operation lets an exception
    out. Storing a message returns False when an insertion fails, and the
    collection is then as it was before the failing insertion. Context
    retrieval returns the empty list when the short-term query or an access
    update fails; when the long-term query fails, the ranker absorbs the
    failure and context retrieval returns the short-term items. *)
Theorem degraded_results (user_id current_message : str) (limit : Z)
    (s : state) :
  (exists items s',
     get_relevant_context user_id current_message limit s = (Return items, s'))
  /\ (forall message, exists stored s',
        store_conversation_memory user_id message s = (Return stored, s'))
  /\ (forall message, fails s (calls s) = true ->
        exists s',
          store_conversation_memory user_id message s = (Return false, s') /\
          memories s' = memories s /\
          short_term_cache s' = short_term_cache s)
  /\ (forall message,
        fails s (calls s) = false -> fails s (S (calls s)) = true ->
        (0.7 <= _calculate_importance_score message)%Q ->
        exists short s',
          store_conversation_memory user_id message s = (Return false, s') /\
          memories s' = memories s ++ [short] /\
          Doc.memory_type short = SHORT_TERM /\
          short_term_cache s' = short_term_cache s)
  /\ (fails s (calls s) = true ->
      fst (get_relevant_context user_id current_message limit s) = Return [])
  /\ (forall short s1,
        get_relevant_memories user_id (Some SHORT_TERM) (limit / 2) s
          = (Return short, s1) ->
        ((exists i, (i < length short)%nat /\
                    fails s (S (calls s) + i)%nat = true) ->
         fst (get_relevant_context user_id current_message limit s) = Return [])
        /\ ((forall i, (i < length short)%nat ->
                       fails s (S (calls s) + i)%nat = false) ->
            fails s (S (calls s) + length short)%nat = true ->
            fst (get_relevant_context user_id current_message limit s)
              = Return (context_of (Py.utf8 "Recent: ") short))
        /\ ((forall i, (i < length short)%nat ->
                       fails s (S (calls s) + i)%nat = false) ->
            forall ranked s3,
              _get_contextually_relevant_memories user_id current_message
                (limit / 2)
                (snd (append_context (Py.utf8 "Recent: ") short [] s1))
                = (Return ranked, s3) ->
              (exists j, (j < length ranked)%nat /\
                 fails s (S (S (calls s)) + length short + j)%nat = true) ->
              fst (get_relevant_context user_id current_message limit s)
                = Return [])).
Proof.
  split; [apply get_relevant_context_returns|].
  split; [intros message; apply store_conversation_memory_returns|].
  split; [intros message; apply store_conversation_memory_fails_first|].
  split; [intros message; apply store_conversation_memory_fails_second|].
  split.
  - intros Hko. unfold get_relevant_context, try_except.
    rewrite bind_run.
    now rewrite get_relevant_memories_raises by exact Hko.
  - intros short s1 Hshort.
    pose proof (get_relevant_memories_state user_id (Some SHORT_TERM)
                  (limit / 2) s) as Hst.
    rewrite Hshort in Hst. simpl in Hst. subst s1.
    destruct (append_context_run (Py.utf8 "Recent: ") short []
                (with_calls (S (calls s)) s))
      as (s2 & Hs2 & Ht2 & Hf2 & _ & Hraise & Hret).
    simpl in Hraise, Hret, Hf2, Ht2.
    split; [|split].
    + intros Hfault. specialize (Hraise Hfault).
      unfold get_relevant_context, try_except.
      rewrite bind_run, Hshort, bind_run.
      destruct (append_context (Py.utf8 "Recent: ") short []
                  (with_calls (S (calls s)) s)) as [[items|] s2'];
        simpl in Hraise; [discriminate | reflexivity].
    + intros Hok Hko. destruct (Hret Hok) as [Hitems Hcalls].
      unfold get_relevant_context, try_except.
      rewrite bind_run, Hshort, bind_run.
      destruct (append_context (Py.utf8 "Recent: ") short []
                  (with_calls (S (calls s)) s)) as [[items|] s2'];
        simpl in Hitems, Hs2; [|discriminate]. subst s2'.
      injection Hitems as ->.
      rewrite bind_run.
      destruct (ranker_returns user_id current_message (limit / 2) s2)
        as (ranked & s3 & -> & _ & _ & _ & _ & Hnil).
      rewrite Hnil by (rewrite Hf2, Hcalls; exact Hko).
      rewrite bind_run. reflexivity.
    + intros Hok ranked s3 Hrank Hfault.
      destruct (Hret Hok) as [Hitems Hcalls].
      unfold get_relevant_context, try_except.
      rewrite bind_run, Hshort, bind_run.
      destruct (append_context (Py.utf8 "Recent: ") short []
                  (with_calls (S (calls s)) s)) as [[items|] s2'];
        simpl in Hitems, Hs2, Hrank; [|discriminate]. subst s2'.
      rewrite bind_run, Hrank, bind_run.
      destruct (ranker_returns user_id current_message (limit / 2) s2)
        as (ranked' & s3' & Hrank' & _ & Hf3 & Hc3 & _).
      rewrite Hrank in Hrank'. injection Hrank' as <- <-.
      destruct (append_context_run (Py.utf8 "Background: ") ranked items s3)
        as (s4 & _ & _ & _ & _ & Hraise4 & _).
      assert (Hr : fst (append_context (Py.utf8 "Background: ") ranked items s3)
                   = Raise).
      { apply Hraise4. destruct Hfault as (j & Hj & Hfj).
        exists j. split; [exact Hj|].
        rewrite Hf3, Hf2, Hc3, Hcalls.
        now replace (S (S (calls s) + length short) + j)%nat
          with (S (S (calls s)) + length short + j)%nat by lia. }
      destruct (append_context (Py.utf8 "Background: ") ranked items s3)
        as [[items'|] s4']; simpl in Hr; [discriminate | reflexivity].
Qed.
(** Propositional closing step that leaves the section's variables out of
    proofs that do not mention them. *)
Ltac prop :=
  try clear lower; try clear isword; try clear strftime_ymd; tauto.


(** ** The importance scorer, beyond the claims *)

Lemma clamp_bounds (score : Q) : (0 <= Py.max 0 (Py.min 1 score) <= 1)%Q.
Proof using Type.
  unfold Py.max, Py.min.
  destruct (Py.ltb score 1) eqn:E1.
  - destruct (Py.ltb 0 score) eqn:E2.
    + apply ltb_lt in E1, E2. lra.
    + lra.
  - destruct (Py.ltb 0 1) eqn:E2; [lra|]. apply ltb_ge in E2. lra.
Qed.

Lemma clamp_id (score : Q) :
  (0 <= score <= 1)%Q -> (Py.max 0 (Py.min 1 score) == score)%Q.
Proof using Type.
  intros [H0 H1]. unfold Py.max, Py.min.
  destruct (Py.ltb score 1) eqn:E1.
  - destruct (Py.ltb 0 score) eqn:E2; [reflexivity|]. apply ltb_ge in E2. lra.
  - apply ltb_ge in E1. destruct (Py.ltb 0 1) eqn:E2; [lra|].
    apply ltb_ge in E2. lra.
Qed.

Lemma clamp_saturates (score : Q) :
  (1 <= score)%Q -> (Py.max 0 (Py.min 1 score) == 1)%Q.
Proof using Type.
  intros H1. unfold Py.max, Py.min.
  destruct (Py.ltb score 1) eqn:E1.
  - apply ltb_lt in E1. lra.
  - destruct (Py.ltb 0 1) eqn:E2; [reflexivity|]. apply ltb_ge in E2. lra.
Qed.

Lemma clamp_monotone (score bound : Q) :
  (bound <= 1)%Q -> (0 <= bound)%Q -> (bound <= score)%Q ->
  (bound <= Py.max 0 (Py.min 1 score))%Q.
Proof using Type.
  intros Hb1 Hb0 Hs. unfold Py.max, Py.min.
  destruct (Py.ltb score 1) eqn:E1.
  - destruct (Py.ltb 0 score) eqn:E2; [exact Hs|]. apply ltb_ge in E2. lra.
  - destruct (Py.ltb 0 1) eqn:E2; [exact Hb1 | apply ltb_ge in E2; lra].
Qed.

Lemma lexicon_hits_nonneg (keywords : list str) (content : str) :
  (0 <= lexicon_hits keywords content)%Q.
Proof using Type.
  unfold lexicon_hits. change 0%Q with (inject_Z 0).
  rewrite <- Zle_Qle. lia.
Qed.

Lemma add_keyword_hits_closed (keywords : list str) (bonus : Q) (content : str) :
  forall score : Q,
    (add_keyword_hits keywords bonus content score
     == score + bonus * lexicon_hits keywords content)%Q.
Proof using Type.
  unfold add_keyword_hits, lexicon_hits.
  induction keywords as [|keyword keywords IH]; intros score; simpl fold_left.
  - rewrite filter_nil. simpl. ring.
  - rewrite IH, filter_cons.
    destruct (Py.contains keyword content) eqn:E.
    + rewrite decide_True by reflexivity.
      cbn [length]. rewrite Nat2Z.inj_succ, <- Z.add_1_r, inject_Z_plus.
      change (inject_Z 1) with 1%Q. ring.
    + rewrite decide_False by discriminate. ring.
Qed.

Lemma add_emotion_bonus_closed (emotion_detected : option str) (score : Q) :
  (add_emotion_bonus emotion_detected score
   == score + emotion_bonus emotion_detected)%Q.
Proof using Type.
  unfold add_emotion_bonus, emotion_bonus, Py.truthy.
  destruct emotion_detected as [[|c e]|]; ring.
Qed.

Lemma add_length_bonus_closed (content : str) (score : Q) :
  (add_length_bonus content score == score + length_bonus content)%Q.
Proof using Type.
  unfold add_length_bonus, length_bonus.
  destruct (Z.ltb_spec 100 (Py.len content)) as [Hlong|Hshort]; [ring|].
  destruct (Z.ltb_spec 200 (Py.len content)); [lia | ring].
Qed.

Lemma add_question_bonus_closed (content : str) (score : Q) :
  (add_question_bonus content score == score + question_bonus content)%Q.
Proof using Type.
  unfold add_question_bonus, question_bonus.
  destruct (existsb _ question_markers); ring.
Qed.

Lemma unclamped_closed_form (message : Message.t) :
  (unclamped_importance_score message ==
     0.5
     + 0.15 * lexicon_hits importance_keywords_high
                (lower (Message.content message))
     + 0.08 * lexicon_hits importance_keywords_medium
                (lower (Message.content message))
     + emotion_bonus (Message.emotion_detected message)
     + length_bonus (lower (Message.content message))
     + question_bonus (lower (Message.content message))
     + 0.05 * lexicon_hits personal_pronouns
                (lower (Message.content message)))%Q.
Proof using Type.
  unfold unclamped_importance_score. cbv zeta.
  rewrite add_keyword_hits_closed, add_question_bonus_closed,
    add_length_bonus_closed, add_emotion_bonus_closed,
    (add_keyword_hits_closed importance_keywords_medium),
    (add_keyword_hits_closed importance_keywords_high).
  ring.
Qed.

(** X1. Before the clamp the score is the base 0.5 plus 0.15 for every term
    of the high lexicon that occurs in the lowered text, 0.08 for every term
    of the medium lexicon, the emotion bonus, 0.1 for a text of more than 100
    characters, 0.1 for a question marker and 0.05 for every personal
    pronoun that occurs: the matches compound, with no cap before the clamp. *)
Theorem importance_score_closed_form (message : Message.t) :
  (unclamped_importance_score message ==
     0.5
     + 0.15 * lexicon_hits importance_keywords_high
                (lower (Message.content message))
     + 0.08 * lexicon_hits importance_keywords_medium
                (lower (Message.content message))
     + emotion_bonus (Message.emotion_detected message)
     + length_bonus (lower (Message.content message))
     + question_bonus (lower (Message.content message))
     + 0.05 * lexicon_hits personal_pronouns
                (lower (Message.content message)))%Q.
Proof using Type. apply unclamped_closed_form. Qed.

Lemma emotion_weights_positive :
  map_Forall (fun (_ : str) (weight : Q) => (0 < weight)%Q) emotion_weights.
Proof using Type.
  apply map_Forall_to_list.
  remember (map_to_list emotion_weights) as weights eqn:E.
  vm_compute in E. subst weights.
  repeat (apply List.Forall_cons; [reflexivity|]). apply List.Forall_nil.
Qed.

Lemma emotion_bonus_nonneg (emotion_detected : option str) :
  (0 <= emotion_bonus emotion_detected)%Q.
Proof using Type.
  unfold emotion_bonus. destruct emotion_detected as [[|c e]|]; try lra.
  destruct (emotion_weights !! (c :: e)) as [weight|] eqn:E; simpl; [|lra].
  apply emotion_weights_positive in E. simpl in E. lra.
Qed.

Lemma length_bonus_nonneg (content : str) : (0 <= length_bonus content)%Q.
Proof using Type. unfold length_bonus. destruct (100 <? Py.len content); lra. Qed.

Lemma question_bonus_nonneg (content : str) : (0 <= question_bonus content)%Q.
Proof using Type. unfold question_bonus. destruct (existsb _ question_markers); lra. Qed.

Lemma unclamped_at_least_base (message : Message.t) :
  (0.5 <= unclamped_importance_score message)%Q.
Proof using Type.
  rewrite unclamped_closed_form.
  pose proof (lexicon_hits_nonneg importance_keywords_high
                (lower (Message.content message))).
  pose proof (lexicon_hits_nonneg importance_keywords_medium
                (lower (Message.content message))).
  pose proof (lexicon_hits_nonneg personal_pronouns
                (lower (Message.content message))).
  pose proof (emotion_bonus_nonneg (Message.emotion_detected message)).
  pose proof (length_bonus_nonneg (lower (Message.content message))).
  pose proof (question_bonus_nonneg (lower (Message.content message))).
  lra.
Qed.

Lemma score_range (message : Message.t) :
  (0.5 <= _calculate_importance_score message <= 1)%Q.
Proof using Type.
  unfold _calculate_importance_score. split.
  - apply clamp_monotone; [lra | lra | apply unclamped_at_least_base].
  - apply clamp_bounds.
Qed.

(** X2. The score of every message lies between the base 0.5 and 1. *)
Theorem importance_score_range (message : Message.t) :
  (0.5 <= _calculate_importance_score message <= 1)%Q.
Proof using Type. apply score_range. Qed.

(** X3. No message is rated LOW: the level of a computed score is MEDIUM
    below 0.7 and HIGH from 0.7 on, which is when the long-term record is
    written. *)
Theorem importance_level_never_low (message : Message.t) :
  _score_to_importance_level (_calculate_importance_score message) <> LOW /\
  (_score_to_importance_level (_calculate_importance_score message) = HIGH
   <-> (0.7 <= _calculate_importance_score message)%Q).
Proof using Type.
  pose proof (score_range message) as [Hlow _].
  unfold _score_to_importance_level.
  destruct (Py.leb 0.7 (_calculate_importance_score message)) eqn:E7.
  - apply leb_le in E7. split; [discriminate | prop].
  - apply leb_gt in E7.
    destruct (Py.leb 0.4 (_calculate_importance_score message)) eqn:E4.
    + split; [discriminate|]. split; [discriminate | lra].
    + apply leb_gt in E4. lra.
Qed.

(** X4. A message with no signal scores exactly the base: no lexicon term,
    no question marker and no pronoun in the lowered text, at most 100
    characters, and no detected emotion. *)
Theorem importance_score_base (message : Message.t) :
  Forall (fun keyword =>
            Py.contains keyword (lower (Message.content message)) = false)
         (importance_keywords_high ++ importance_keywords_medium
          ++ question_markers ++ personal_pronouns) ->
  Py.len (lower (Message.content message)) <= 100 ->
  Py.truthy (Message.emotion_detected message) = false ->
  (_calculate_importance_score message == 0.5)%Q.
Proof using Type.
  intros Hnone Hshort Hemotion.
  apply Forall_app in Hnone as [Hhigh Hnone].
  apply Forall_app in Hnone as [Hmedium Hnone].
  apply Forall_app in Hnone as [Hquestion Hpronoun].
  assert (Hzero : forall keywords content,
             Forall (fun keyword => Py.contains keyword content = false) keywords ->
             (lexicon_hits keywords content == 0)%Q).
  { intros keywords content Hall. unfold lexicon_hits.
    replace (filter (fun keyword => Py.contains keyword content = true) keywords)
      with (@nil str); [reflexivity|].
    symmetry. induction Hall as [|k ks Hk _ IH]; [done|].
    rewrite filter_cons, decide_False by congruence. exact IH. }
  assert (Hq : question_bonus (lower (Message.content message)) = 0%Q).
  { unfold question_bonus.
    replace (existsb (fun marker => Py.contains marker
                        (lower (Message.content message))) question_markers)
      with false; [reflexivity|].
    symmetry. apply not_true_iff_false. intros Hex.
    apply existsb_exists in Hex as (marker & Hin & Hc).
    rewrite List.Forall_forall in Hquestion. rewrite (Hquestion _ Hin) in Hc.
    discriminate. }
  assert (Hl : length_bonus (lower (Message.content message)) = 0%Q).
  { unfold length_bonus.
    destruct (Z.ltb_spec 100 (Py.len (lower (Message.content message))));
      [lia | reflexivity]. }
  assert (He : emotion_bonus (Message.emotion_detected message) = 0%Q).
  { unfold emotion_bonus, Py.truthy in *.
    destruct (Message.emotion_detected message) as [[|c e]|];
      [reflexivity | discriminate | reflexivity]. }
  assert (Hbase : (unclamped_importance_score message == 0.5)%Q).
  { rewrite unclamped_closed_form.
    rewrite (Hzero _ _ Hhigh), (Hzero _ _ Hmedium), (Hzero _ _ Hpronoun).
    rewrite Hq, Hl, He. ring. }
  unfold _calculate_importance_score.
  rewrite clamp_id; [exact Hbase | rewrite Hbase; lra].
Qed.

(** X5. Four terms of the high lexicon saturate the score: the clamp brings
    the sum back to 1. *)
Theorem importance_score_saturates (message : Message.t) :
  (4 <= lexicon_hits importance_keywords_high
          (lower (Message.content message)))%Q ->
  (_calculate_importance_score message == 1)%Q.
Proof using Type.
  intros Hfour. unfold _calculate_importance_score.
  apply clamp_saturates. rewrite unclamped_closed_form.
  pose proof (lexicon_hits_nonneg importance_keywords_medium
                (lower (Message.content message))).
  pose proof (lexicon_hits_nonneg personal_pronouns
                (lower (Message.content message))).
  pose proof (emotion_bonus_nonneg (Message.emotion_detected message)).
  pose proof (length_bonus_nonneg (lower (Message.content message))).
  pose proof (question_bonus_nonneg (lower (Message.content message))).
  lra.
Qed.

(** ** The tokenizer *)

(** A separator closes the run that is being read and starts afresh. *)
Lemma findall_runs_separator (cls : N -> bool) (sep : N) (after : str) :
  cls sep = false ->
  forall before cur : str,
    Py.findall_runs cls cur (before ++ sep :: after)
    = Py.findall_runs cls cur before ++ Py.findall_runs cls [] after.
Proof using Type.
  intros Hsep. induction before as [|c before IH]; intros cur; simpl.
  - rewrite Hsep. now destruct cur.
  - destruct (cls c).
    + apply IH.
    + destruct cur; now rewrite IH.
Qed.

(** X6. Tokens never span a separator: around a character that is neither
    in the Arabic blocks nor a word character, the keywords of a text are
    the keywords of what precedes it followed by the keywords of what
    follows it. *)
Theorem extract_keywords_separator (before after : str) (sep : N) :
  keyword_char sep = false ->
  _extract_keywords (before ++ sep :: after)
  = _extract_keywords before ++ _extract_keywords after.
Proof using Type.
  intros Hsep. unfold _extract_keywords. cbv zeta.
  rewrite (findall_runs_separator keyword_char sep after Hsep before []).
  apply filter_app.
Qed.

(** Every run that [findall_runs] returns either continues the run being
    read with a prefix of the text, or lies inside the text right after a
    character that is not of the class; in both cases it stops at the end
    of the text or before a character that is not of the class. *)
Lemma findall_runs_sound (cls : N -> bool) (text : str) :
  forall (cur word : str),
    word ∈ Py.findall_runs cls cur text ->
    Forall (fun c => cls c = true) cur ->
    (exists taken rest,
       text = taken ++ rest /\ word = cur ++ taken /\ word <> [] /\
       Forall (fun c => cls c = true) word /\
       (forall c, head rest = Some c -> cls c = false))
    \/ (exists before after,
          text = before ++ word ++ after /\ word <> [] /\
          Forall (fun c => cls c = true) word /\
          (exists c, last before = Some c /\ cls c = false) /\
          (forall c, head after = Some c -> cls c = false)).
Proof using Type.
  induction text as [|c text IH]; intros cur word Hin Hcur; simpl in Hin.
  - destruct cur as [|c0 cur]; [now apply not_elem_of_nil in Hin|].
    apply list_elem_of_singleton in Hin. subst word.
    left. exists [], [].
    split; [reflexivity|]. split; [now rewrite app_nil_r|].
    split; [discriminate|].
    split; [exact Hcur|]. intros c [=].
  - destruct (cls c) eqn:Hc.
    + assert (Hcur' : Forall (fun c => cls c = true) (cur ++ [c])).
      { apply Forall_app. split; [exact Hcur | now repeat constructor]. }
      destruct (IH _ _ Hin Hcur')
        as [(taken & rest & -> & -> & Hne & Hword & Hstop)
           |(before & after & -> & Hne & Hword & (c' & Hlast & Hc') & Hstop)].
      * left. exists (c :: taken), rest.
        rewrite <- app_assoc in *. now repeat split.
      * right. exists (c :: before), after. repeat split; try done.
        exists c'. split; [|exact Hc'].
        destruct before; [discriminate | exact Hlast].
    + assert (Hrest : word ∈ Py.findall_runs cls [] text ->
        exists before after,
          c :: text = before ++ word ++ after /\ word <> [] /\
          Forall (fun c => cls c = true) word /\
          (exists c, last before = Some c /\ cls c = false) /\
          (forall c, head after = Some c -> cls c = false)).
      { intros Hin'.
        destruct (IH _ _ Hin' (Forall_nil_2 _))
          as [(taken & rest & -> & -> & Hne & Hword & Hstop)
             |(before & after & -> & Hne & Hword & (c' & Hlast & Hc') & Hstop)].
        - exists [c], rest. repeat split; try done. now exists c.
        - exists (c :: before), after. repeat split; try done.
          exists c'. split; [|exact Hc'].
          destruct before; [discriminate | exact Hlast]. }
      destruct cur as [|c0 cur].
      * right. now apply Hrest.
      * apply elem_of_cons in Hin as [-> | Hin].
        -- left. exists [], (c :: text). rewrite app_nil_r.
           repeat split; try done. intros c' [= <-]. exact Hc.
        -- right. now apply Hrest.
Qed.

(** X7. Every keyword is a maximal run of keyword characters of the text:
    it occurs in the text, is made of characters of the class only, is not
    preceded or followed by one; it has at least three characters and is not
    a stop word. *)
Theorem extract_keywords_sound (text word : str) :
  word ∈ _extract_keywords text ->
  (exists before after,
     text = before ++ word ++ after /\
     (forall c, last before = Some c -> keyword_char c = false) /\
     (forall c, head after = Some c -> keyword_char c = false)) /\
  Forall (fun c => keyword_char c = true) word /\
  (3 <= length word)%nat /\
  word ∉ stop_words.
Proof using Type.
  unfold _extract_keywords. cbv zeta. intros Hin.
  apply list_elem_of_filter in Hin as [[Hlen Hstop] Hin].
  destruct (findall_runs_sound keyword_char text [] word Hin (Forall_nil_2 _))
    as [(taken & rest & -> & Hw & Hne & Hword & Hend)
       |(before & after & -> & Hne & Hword & (c' & Hlast & Hc') & Hend)].
  - simpl in Hw. subst taken. split; [|split; [exact Hword|]].
    + exists [], rest. repeat split; [discriminate | exact Hend].
    + split; [unfold Py.len in Hlen; lia | exact Hstop].
  - split; [|split; [exact Hword|]].
    + exists before, after. repeat split; [|exact Hend].
      intros c Hc. rewrite Hlast in Hc. now injection Hc as <-.
    + split; [unfold Py.len in Hlen; lia | exact Hstop].
Qed.

(** ** The query of the gateway *)

Lemma Memory_of_doc_valid (d : Doc.t) :
  valid_importance d -> Memory_of_doc d = Return (as_memory d).
Proof using Type.
  intros [H0 H1]. unfold Memory_of_doc.
  apply leb_le in H0, H1. now rewrite H0, H1.
Qed.

Lemma Memory_of_doc_invalid (d : Doc.t) :
  ~ valid_importance d -> Memory_of_doc d = Raise.
Proof using Type.
  intros Hbad. unfold Memory_of_doc.
  destruct (Py.leb 0 (Doc.importance_score d)) eqn:E0; [|reflexivity].
  destruct (Py.leb (Doc.importance_score d) 1) eqn:E1; [|reflexivity].
  exfalso. apply Hbad. apply leb_le in E0, E1. now split.
Qed.

Lemma Memories_of_docs_run (docs : list Doc.t) (s : state) :
  (Forall valid_importance docs /\
   Memories_of_docs docs s = (Return (map as_memory docs), s))
  \/ (~ Forall valid_importance docs /\ Memories_of_docs docs s = (Raise, s)).
Proof using Type.
  induction docs as [|d docs IH]; [left; now split|].
  simpl. rewrite bind_run.
  destruct (Qlt_le_dec (Doc.importance_score d) 0) as [Hneg|H0].
  { right. split.
    - intros Hall. apply Forall_cons in Hall as [[Hd _] _]. lra.
    - rewrite Memory_of_doc_invalid; [reflexivity|]. intros [Hd _]. lra. }
  destruct (Qlt_le_dec 1 (Doc.importance_score d)) as [Hbig|H1].
  { right. split.
    - intros Hall. apply Forall_cons in Hall as [[_ Hd] _]. lra.
    - rewrite Memory_of_doc_invalid; [reflexivity|]. intros [_ Hd]. lra. }
  rewrite Memory_of_doc_valid by now split.
  destruct IH as [[Hall Hrun] | [Hbad Hrun]]; rewrite bind_run, Hrun.
  - left. split; [|reflexivity]. apply Forall_cons. now repeat split.
  - right. split; [|reflexivity]. intros Hall.
    apply Forall_cons in Hall as [_ Hall]. now apply Hbad.
Qed.

Lemma get_relevant_memories_run (user_id : str) (ty : option MemoryType)
    (limit : Z) (s : state) :
  fails s (calls s) = false ->
  (Forall valid_importance (selected_docs user_id ty limit s) /\
   get_relevant_memories user_id ty limit s
     = (Return (map as_memory (selected_docs user_id ty limit s)),
        with_calls (S (calls s)) s))
  \/ (~ Forall valid_importance (selected_docs user_id ty limit s) /\
      get_relevant_memories user_id ty limit s
        = (Raise, with_calls (S (calls s)) s)).
Proof using Type.
  intros Hok. unfold get_relevant_memories. rewrite bind_run.
  unfold store_call. rewrite Hok. cbv beta iota zeta.
  apply (Memories_of_docs_run (selected_docs user_id ty limit s)).
Qed.

Lemma get_relevant_memories_inv (user_id : str) (ty : option MemoryType)
    (limit : Z) (s s' : state) (records : list Memory.t) :
  get_relevant_memories user_id ty limit s = (Return records, s') ->
  fails s (calls s) = false /\
  Forall valid_importance (selected_docs user_id ty limit s) /\
  records = map as_memory (selected_docs user_id ty limit s) /\
  s' = with_calls (S (calls s)) s.
Proof using Type.
  intros Hrun. destruct (fails s (calls s)) eqn:Hf.
  - rewrite get_relevant_memories_raises in Hrun by exact Hf. discriminate.
  - destruct (get_relevant_memories_run user_id ty limit s Hf)
      as [[Hall Heq] | [_ Heq]]; rewrite Heq in Hrun; [|discriminate].
    injection Hrun as <- <-. now repeat split.
Qed.

Lemma cursor_insert_perm (d : Doc.t) (l : list Doc.t) :
  cursor_insert d l ≡ₚ d :: l.
Proof using Type.
  induction l as [|e l IH]; simpl; [done|].
  destruct (sorts_before e d); [|done]. rewrite IH. apply Permutation_swap.
Qed.

Lemma cursor_sort_perm (l : list Doc.t) : cursor_sort l ≡ₚ l.
Proof using Type.
  induction l as [|d l IH]; simpl; [done|].
  now rewrite cursor_insert_perm, IH.
Qed.

Lemma cursor_limit_sublist (limit : Z) (l : list Doc.t) :
  cursor_limit limit l `sublist_of` l.
Proof using Type.
  unfold cursor_limit. destruct (limit =? 0); [done | apply sublist_take].
Qed.

Lemma selected_docs_elem_of (user_id : str) (ty : option MemoryType)
    (limit : Z) (s : state) (d : Doc.t) :
  d ∈ selected_docs user_id ty limit s ->
  d ∈ memories s /\ matches_query user_id ty d = true.
Proof using Type.
  unfold selected_docs. intros Hin.
  eapply elem_of_sublist in Hin; [|apply cursor_limit_sublist].
  rewrite cursor_sort_perm in Hin.
  apply list_elem_of_filter in Hin. prop.
Qed.

Lemma query_records_sound (user_id : str) (ty : MemoryType)
    (limit : Z) (s s' : state) (records : list Memory.t) :
  get_relevant_memories user_id (Some ty) limit s = (Return records, s') ->
  Forall (fun memory =>
            Memory.user_id memory = user_id /\
            Memory.memory_type memory = ty /\
            (0 <= Memory.importance_score memory <= 1)%Q /\
            exists d, d ∈ memories s /\ memory = as_memory d) records /\
  memories s' = memories s /\
  short_term_cache s' = short_term_cache s /\
  calls s' = S (calls s).
Proof using Type.
  intros Hrun.
  apply get_relevant_memories_inv in Hrun as (_ & Hvalid & -> & ->).
  split; [|now repeat split].
  apply List.Forall_forall. intros memory Hin.
  apply list_elem_of_In, list_elem_of_fmap in Hin as (d & -> & Hd).
  rewrite List.Forall_forall in Hvalid.
  specialize (Hvalid d (proj1 (list_elem_of_In _ _) Hd)).
  apply selected_docs_elem_of in Hd as [Hmem Hq].
  unfold matches_query in Hq. apply andb_true_iff in Hq as [Hu Ht].
  apply bool_decide_eq_true in Hu, Ht.
  split; [exact Hu|]. split; [exact Ht|]. split; [exact Hvalid|].
  now exists d.
Qed.

(** X8. What a query returns: every record is built from a document of the
    collection that belongs to the user and has the requested type, and its
    importance lies within [0, 1]. The query only reads: the collection is
    as before, and one call to the store has been made. *)
Theorem get_relevant_memories_sound (user_id : str) (ty : MemoryType)
    (limit : Z) (s s' : state) (records : list Memory.t) :
  get_relevant_memories user_id (Some ty) limit s = (Return records, s') ->
  Forall (fun memory =>
            Memory.user_id memory = user_id /\
            Memory.memory_type memory = ty /\
            (0 <= Memory.importance_score memory <= 1)%Q /\
            exists d, d ∈ memories s /\ memory = as_memory d) records /\
  memories s' = memories s /\
  short_term_cache s' = short_term_cache s /\
  calls s' = S (calls s).
Proof using Type. apply query_records_sound. Qed.

(** X9. The size of the answer: a limit other than 0 bounds it by its
    absolute value, and the limit 0 is no limit at all: every document of
    the user with the requested type is returned. *)
Theorem get_relevant_memories_limit (user_id : str) (ty : option MemoryType)
    (limit : Z) (s s' : state) (records : list Memory.t) :
  get_relevant_memories user_id ty limit s = (Return records, s') ->
  (limit <> 0 -> Z.of_nat (length records) <= Z.abs limit) /\
  (limit = 0 ->
   length records
   = length (filter (fun d => matches_query user_id ty d = true) (memories s))).
Proof using Type.
  intros Hrun.
  apply get_relevant_memories_inv in Hrun as (_ & _ & -> & _).
  rewrite length_map. unfold selected_docs, cursor_limit. split.
  - intros Hne. destruct (Z.eqb_spec limit 0) as [|_]; [done|].
    rewrite length_take. lia.
  - intros ->. simpl. apply Permutation_length, cursor_sort_perm.
Qed.

(** The comparison of the cursor's sort, as an order on the keys. *)
Lemma sorts_before_false (a b : Doc.t) :
  sorts_before a b = false <->
  (Doc.importance_score a <= Doc.importance_score b)%Q /\
  ((Doc.importance_score a == Doc.importance_score b)%Q ->
   Doc.last_accessed a <= Doc.last_accessed b).
Proof using Type.
  unfold sorts_before. rewrite orb_false_iff, andb_false_iff, ltb_ge.
  rewrite <- not_true_iff_false, Qeq_bool_iff, Z.ltb_ge. split.
  - intros [Hle [Hne | Hla]]; (split; [exact Hle|]); intros Heq;
      [now destruct Hne | exact Hla].
  - intros [Hle Hla]. split; [exact Hle|].
    destruct (Qeq_dec (Doc.importance_score a) (Doc.importance_score b));
      [right; now apply Hla | now left].
Qed.

Lemma sorts_before_true (a b : Doc.t) :
  sorts_before a b = true -> sorts_before b a = false.
Proof using Type.
  intros Hab. apply sorts_before_false.
  unfold sorts_before in Hab. apply orb_true_iff in Hab as [Hlt | Heq].
  - apply ltb_lt in Hlt. split; [lra|]. intros Heq. lra.
  - apply andb_true_iff in Heq as [Heq Hla].
    apply Qeq_bool_iff in Heq. apply Z.ltb_lt in Hla. split; [lra|]. lia.
Qed.

Lemma cursor_insert_sorted (d : Doc.t) (l : list Doc.t) :
  StronglySorted (fun a b => sorts_before b a = false) l ->
  StronglySorted (fun a b => sorts_before b a = false) (cursor_insert d l).
Proof using Type.
  induction 1 as [|e l Hl IH He]; simpl; [repeat constructor|].
  destruct (sorts_before e d) eqn:E.
  - constructor; [exact IH|].
    rewrite (cursor_insert_perm d l). constructor; [|exact He].
    now apply sorts_before_true.
  - constructor; [now constructor|]. constructor; [exact E|].
    eapply List.Forall_impl; [|exact He]. intros z Hz.
    apply sorts_before_false in E, Hz. apply sorts_before_false.
    destruct E as [E1 E2], Hz as [Hz1 Hz2]. split; [lra|].
    intros Heq. assert ((Doc.importance_score z == Doc.importance_score e)%Q)
      by lra.
    assert ((Doc.importance_score e == Doc.importance_score d)%Q) by lra.
    specialize (E2 ltac:(assumption)). specialize (Hz2 ltac:(assumption)). lia.
Qed.

Lemma cursor_sort_sorted (l : list Doc.t) :
  StronglySorted (fun a b => sorts_before b a = false) (cursor_sort l).
Proof using Type.
  induction l as [|d l IH]; simpl; [constructor|].
  now apply cursor_insert_sorted.
Qed.

(** X10. The answer is in the order the query asks for: importance does not
    increase along it, and among records of one importance the last access
    does not increase. *)
Theorem get_relevant_memories_sorted (user_id : str) (ty : option MemoryType)
    (limit : Z) (s s' : state) (records : list Memory.t) :
  get_relevant_memories user_id ty limit s = (Return records, s') ->
  StronglySorted delivered_before records.
Proof using Type.
  intros Hrun.
  apply get_relevant_memories_inv in Hrun as (_ & _ & -> & _).
  assert (Hsorted : StronglySorted (fun a b => sorts_before b a = false)
                      (selected_docs user_id ty limit s)).
  { eapply sublist_strongly_sorted; [apply cursor_limit_sublist|].
    apply cursor_sort_sorted. }
  induction Hsorted as [|d docs _ IH Hd]; simpl; [constructor|].
  constructor; [exact IH|].
  apply List.Forall_forall. intros memory Hin.
  apply list_elem_of_In, list_elem_of_fmap in Hin as (e & -> & He).
  rewrite List.Forall_forall in Hd.
  specialize (Hd e (proj1 (list_elem_of_In _ _) He)).
  apply sorts_before_false in Hd. exact Hd.
Qed.

(** X11. One document with an importance outside [0, 1] among the selected
    ones makes the whole query raise: no record is returned, not even the
    valid ones. *)
Theorem get_relevant_memories_rejects (user_id : str) (ty : option MemoryType)
    (limit : Z) (s : state) (d : Doc.t) :
  fails s (calls s) = false ->
  d ∈ selected_docs user_id ty limit s ->
  ~ valid_importance d ->
  fst (get_relevant_memories user_id ty limit s) = Raise.
Proof using Type.
  intros Hok Hin Hbad.
  destruct (get_relevant_memories_run user_id ty limit s Hok)
    as [[Hall _] | [_ ->]]; [|reflexivity].
  exfalso. apply Hbad. rewrite List.Forall_forall in Hall.
  apply Hall. now apply list_elem_of_In.
Qed.

(** ** Access tracking, purge and the round trip through the store *)

Lemma update_one_first_match (id : str) (now : Z) (docs : list Doc.t) :
  update_one (Some id) now docs = docs /\
  Forall (fun e => Doc._id e <> StringId id) docs
  \/ exists before d after,
       Doc._id d = StringId id /\
       Forall (fun e => Doc._id e <> StringId id) before /\
       docs = before ++ d :: after /\
       update_one (Some id) now docs = before ++ touch now d :: after.
Proof using Type.
  induction docs as [|e docs IH]; [left; now split|].
  simpl. destruct (bool_decide (Doc._id e = StringId id)) eqn:E.
  - apply bool_decide_eq_true in E. right. exists [], e, docs.
    now repeat split.
  - apply bool_decide_eq_false in E. destruct IH as [[Heq Hall] | IH].
    + left. rewrite Heq. split; [reflexivity | now constructor].
    + destruct IH as (before & d & after & Hd & Hbefore & -> & ->).
      right. exists (e :: before), d, after.
      repeat split; [exact Hd | now constructor].
Qed.

(** X12. Recording an access touches at most one document, the first one
    whose [_id] is the given string: its access count grows by one and its
    last access becomes the current time; its other fields, the other
    documents, their order and the cache are as before. *)
Theorem update_memory_access_touches_first_match (memory_id : option str)
    (s : state) :
  short_term_cache (snd (update_memory_access memory_id s))
    = short_term_cache s /\
  (memories (snd (update_memory_access memory_id s)) = memories s
   \/ exists id before d d' after,
        memory_id = Some id /\ Doc._id d = StringId id /\
        Forall (fun e => Doc._id e <> StringId id) before /\
        accessed_at (time_of s (reads s)) d d' /\
        memories s = before ++ d :: after /\
        memories (snd (update_memory_access memory_id s))
          = before ++ d' :: after).
Proof using Type.
  unfold update_memory_access. rewrite bind_run.
  unfold datetime_now, store_call. cbn [fails calls with_reads reads time_of].
  destruct (fails s (calls s)); [split; [reflexivity | now left]|].
  cbn. split; [reflexivity|].
  destruct memory_id as [id|].
  - destruct (update_one_first_match id (time_of s (reads s)) (memories s))
      as [[Heq _] | (before & d & after & Hd & Hbefore & Hdocs & Hupd)].
    + left. exact Heq.
    + right. exists id, before, d, (touch (time_of s (reads s)) d), after.
      repeat split; try done.
  - left. generalize (memories s). intros docs.
    induction docs as [|e docs IH]; [done|]. simpl. now rewrite IH.
Qed.

Lemma cleanup_old_short_term_memories_inv (user_id : str) (days : Z)
    (s s' : state) (deleted_count : Z) :
  cleanup_old_short_term_memories user_id days s = (Return deleted_count, s') ->
  exists cutoff_date,
    cutoff_date = time_of s (reads s) - days * Py.us_per_day /\
    Z.abs days <= 999999999 /\
    datetime_min <= cutoff_date <= datetime_max /\
    fails s (calls s) = false /\
    deleted_count
      = Py.len (filter (fun d => expired user_id cutoff_date d = true)
                       (memories s)) /\
    memories s'
      = filter (fun d => expired user_id cutoff_date d = false) (memories s) /\
    short_term_cache s' = short_term_cache s.
Proof using Type.
  unfold cleanup_old_short_term_memories. rewrite bind_run.
  unfold datetime_now. cbv beta iota zeta. rewrite bind_run.
  unfold raise_or_return at 1, timedelta_days.
  destruct (Z.leb_spec (Z.abs days) 999999999) as [Hdays|]; [|discriminate].
  cbv beta iota zeta. rewrite bind_run.
  unfold raise_or_return, datetime_sub.
  destruct (Z.leb_spec datetime_min
              (time_of s (reads s) - days * Py.us_per_day)) as [Hmin|];
    [|discriminate].
  destruct (Z.leb_spec (time_of s (reads s) - days * Py.us_per_day)
              datetime_max) as [Hmax|]; [|discriminate].
  cbn [andb]. cbv beta iota zeta.
  unfold store_call. cbn [fails calls with_reads].
  destruct (fails s (calls s)); [discriminate|].
  intros [= <- <-]. eexists. split; [reflexivity|]. now repeat split.
Qed.

Lemma expired_purged (user_id : str) (cutoff_date : Z) (d : Doc.t) :
  expired user_id cutoff_date d = true <-> purged user_id cutoff_date d.
Proof using Type.
  unfold expired, purged, bson_millis.
  rewrite !andb_true_iff, !bool_decide_eq_true, Z.ltb_lt. prop.
Qed.

(** X13. The purge deletes exactly the documents of the user that are
    SHORT_TERM and were created before now minus [days] days, both times
    taken to the millisecond as the store keeps them. The documents it keeps
    stay in their order; LONG_TERM documents and the documents of other
    users are never deleted; the count it returns is the number of documents
    that disappeared. *)
Theorem purge_deletes_expired_short_term (user_id : str) (days : Z)
    (s s' : state) (deleted_count : Z) :
  cleanup_old_short_term_memories user_id days s = (Return deleted_count, s') ->
  (forall d,
     d ∈ memories s' <->
     d ∈ memories s /\
     ~ purged user_id (time_of s (reads s) - days * Py.us_per_day) d) /\
  memories s' `sublist_of` memories s /\
  (forall d, d ∈ memories s ->
     Doc.memory_type d = LONG_TERM \/ Doc.user_id d <> user_id ->
     d ∈ memories s') /\
  deleted_count
    = Z.of_nat (length (memories s)) - Z.of_nat (length (memories s')) /\
  short_term_cache s' = short_term_cache s.
Proof using Type.
  intros Hrun.
  apply cleanup_old_short_term_memories_inv in Hrun
    as (cutoff & -> & _ & _ & _ & -> & Hmem & Hcache).
  set (cutoff := time_of s (reads s) - days * Py.us_per_day) in *.
  assert (Hiff : forall d,
    d ∈ memories s' <-> d ∈ memories s /\ ~ purged user_id cutoff d).
  { intros d. rewrite Hmem, list_elem_of_filter, <- expired_purged.
    rewrite not_true_iff_false. prop. }
  split; [exact Hiff|]. split; [rewrite Hmem; apply sublist_filter; apply _|].
  split; [|split; [|exact Hcache]].
  - intros d Hin Hkeep. apply Hiff. split; [exact Hin|].
    intros (Hu & Ht & _). destruct Hkeep as [Hlong | Hother]; congruence.
  - rewrite Hmem. unfold Py.len.
    generalize (memories s). intros docs.
    induction docs as [|d docs IH]; [reflexivity|].
    rewrite !filter_cons.
    destruct (expired user_id cutoff d); repeat case_decide; try congruence;
      simpl length; lia.
Qed.

Lemma store_memory_inv (user_id content : str) (ty : MemoryType)
    (importance_score : Q) (s s' : state) (id : str) :
  store_memory user_id content ty importance_score s = (Return id, s') ->
  fails s (calls s) = false.
Proof using Type.
  intros Hrun. destruct (fails s (calls s)) eqn:Hf; [|reflexivity].
  destruct (store_memory_raises user_id content ty importance_score s Hf)
    as (s1 & Hraise & _). rewrite Hraise in Hrun. discriminate.
Qed.

(** X14. Round trip through the store: a memory that [store_memory] has
    written is found by the next unlimited query for its user and type,
    with the content and importance that were stored, an access count of 0,
    and as its [id] the string that [store_memory] returned. *)
Theorem stored_memory_is_found (user_id content : str) (ty : MemoryType)
    (importance_score : Q) (s s1 s2 : state) (id : str)
    (records : list Memory.t) :
  store_memory user_id content ty importance_score s = (Return id, s1) ->
  get_relevant_memories user_id (Some ty) 0 s1 = (Return records, s2) ->
  exists memory,
    memory ∈ records /\
    Memory.id memory = Some id /\
    Memory.user_id memory = user_id /\ Memory.memory_type memory = ty /\
    Memory.content memory = content /\
    Memory.importance_score memory = importance_score /\
    Memory.access_count memory = 0.
Proof using Type.
  intros Hstore Hquery.
  pose proof (store_memory_inv _ _ _ _ _ _ _ Hstore) as Hok.
  destruct (store_memory_returns user_id content ty importance_score s Hok)
    as (doc & s1' & Hrun & Hdoc & Hmem & _).
  rewrite Hrun in Hstore. injection Hstore as <- <-.
  apply get_relevant_memories_inv in Hquery as (_ & _ & -> & _).
  exists (as_memory doc). split.
  - apply list_elem_of_fmap_2. unfold selected_docs, cursor_limit. simpl.
    rewrite cursor_sort_perm. apply list_elem_of_filter. split.
    + subst doc. unfold matches_query. simpl.
      now rewrite !bool_decide_eq_true_2.
    + rewrite Hmem. apply elem_of_app. right. left.
  - subst doc. now cbn.
Qed.

(** ** The ranker, beyond the claims *)

Lemma candidate_pool_sound (user_id : str) (s : state) (memory : Memory.t) :
  memory ∈ candidate_pool user_id s ->
  Memory.user_id memory = user_id /\
  Memory.memory_type memory = LONG_TERM /\
  (0 <= Memory.importance_score memory <= 1)%Q.
Proof using Type.
  unfold candidate_pool. intros Hin.
  destruct (get_relevant_memories user_id (Some LONG_TERM) 50 s)
    as [[pool|] s1] eqn:E; [|now apply not_elem_of_nil in Hin].
  destruct (query_records_sound _ _ _ _ _ _ E) as [Hall _].
  rewrite List.Forall_forall in Hall.
  destruct (Hall memory (proj1 (list_elem_of_In _ _) Hin)) as (? & ? & ? & _).
  now repeat split.
Qed.

Lemma ranked_from_pool (limit : Z) (scored : list (Memory.t * Q))
    (query_tokens : gset str) (pool : list Memory.t) (memory : Memory.t) :
  map fst scored = filter (scorable query_tokens) pool ->
  memory ∈ map fst (top_memories limit scored) -> memory ∈ pool.
Proof using Type.
  intros Hmap Hin. apply list_elem_of_fmap in Hin as (entry & -> & Hin).
  apply top_memories_elem_of in Hin.
  assert (Hf : fst entry ∈ map fst scored) by now apply list_elem_of_fmap_2.
  rewrite Hmap in Hf. now apply list_elem_of_filter in Hf as [_ Hf].
Qed.

(** X15. The ranking only reads. It makes one call to the store, leaves the
    collection and the cache as they were, and returns nothing but
    LONG_TERM records of the owner it was asked about, each with an
    importance within [0, 1]; when the pool is empty or the store fails the
    answer is the empty list. *)
Theorem rank_reads_owner_long_term (user_id current_message : str) (limit : Z)
    (s : state) :
  exists ranked s',
    _get_contextually_relevant_memories user_id current_message limit s
      = (Return ranked, s') /\
    Forall (fun memory =>
              Memory.user_id memory = user_id /\
              Memory.memory_type memory = LONG_TERM /\
              (0 <= Memory.importance_score memory <= 1)%Q) ranked /\
    memories s' = memories s /\
    short_term_cache s' = short_term_cache s /\
    calls s' = S (calls s) /\
    (candidate_pool user_id s = [] -> ranked = []).
Proof using Type.
  destruct (ranker_run user_id current_message limit s)
    as (scored & Hrun & Hmap & _).
  eexists. eexists. split; [exact Hrun|]. split; [|split; [|split; [|split]]];
    try reflexivity.
  - apply List.Forall_forall. intros memory Hin.
    apply (candidate_pool_sound user_id s).
    apply (ranked_from_pool limit scored _ _ _ Hmap).
    apply list_elem_of_In. exact Hin.
  - intros Hempty. rewrite Hempty in Hmap.
    destruct scored; [now rewrite top_memories_nil | discriminate].
Qed.

Lemma spec_similarity_range (query_tokens candidate_tokens : gset str) :
  (0 <= spec_similarity query_tokens candidate_tokens <= 1)%Q.
Proof using Type.
  unfold spec_similarity.
  assert (Hle : (size (query_tokens ∩ candidate_tokens)
                 <= size (query_tokens ∪ candidate_tokens))%nat).
  { apply subseteq_size. intros x Hx.
    apply elem_of_intersection in Hx as [Hx _]. apply elem_of_union. now left. }
  set (overlap := size (query_tokens ∩ candidate_tokens)) in *.
  set (total := size (query_tokens ∪ candidate_tokens)) in *.
  destruct total as [|total].
  - assert (overlap = 0%nat) as -> by lia. split; unfold Qle; simpl; lia.
  - assert (Hpos : (0 < inject_Z (Z.of_nat (S total)))%Q).
    { change 0%Q with (inject_Z 0). rewrite <- Zlt_Qlt. lia. }
    split.
    + apply Qle_shift_div_l; [exact Hpos|]. rewrite Qmult_0_l.
      change 0%Q with (inject_Z 0). rewrite <- Zle_Qle. lia.
    + apply Qle_shift_div_r; [exact Hpos|]. rewrite Qmult_1_l.
      rewrite <- Zle_Qle. lia.
Qed.













(** ** What storing a message leaves behind *)

(** X18. Storing a message only appends to the collection: at most two
    documents, the SHORT_TERM one first, every one of them for the given
    user, keyed by a generated ObjectId, with the score of the message as
    importance and an access count of 0; a LONG_TERM document is appended
    only when the score is at least 0.7. The cache takes the entry of the
    message exactly when the operation returns True. *)
Theorem store_conversation_memory_appends (user_id : str)
    (message : Message.t) (s : state) :
  exists stored new s',
    store_conversation_memory user_id message s = (Return stored, s') /\
    memories s' = memories s ++ new /\
    (length new <= 2)%nat /\
    (forall d, head new = Some d -> Doc.memory_type d = SHORT_TERM) /\
    Forall (fun d =>
              Doc.user_id d = user_id /\ keyed_by_ObjectId d /\
              Doc.access_count d = 0 /\
              Doc.importance_score d = _calculate_importance_score message /\
              (Doc.memory_type d = LONG_TERM ->
               (0.7 <= _calculate_importance_score message)%Q)) new /\
    (stored = true ->
     new <> [] /\
     short_term_cache s'
     = cache_append user_id message (_calculate_importance_score message)
                    (short_term_cache s)) /\
    (stored = false -> short_term_cache s' = short_term_cache s).
Proof using Type.
  unfold store_conversation_memory, try_except, _store_short_term_memory,
    _store_long_term_memory.
  cbv zeta.
  destruct (fails s (calls s)) eqn:Hf1.
  { match goal with |- context [store_memory ?u ?c SHORT_TERM ?i] =>
      destruct (store_memory_raises u c SHORT_TERM i s Hf1)
        as (s1 & Hrun & Hmem & Hcache) end.
    exists false, [], s1. split; [run; rewrite Hrun; run; reflexivity|].
    rewrite app_nil_r. split; [exact Hmem|]. split; [simpl; lia|].
    split; [intros d [=]|]. split; [constructor|].
    split; [discriminate | intros _; exact Hcache]. }
  match goal with |- context [store_memory ?u ?c SHORT_TERM ?i] =>
    destruct (store_memory_returns u c SHORT_TERM i s Hf1)
      as (short & s1 & Hrun1 & Hshort & Hmem1 & _ & Hfails1 & Hcalls1 & Hcache1)
  end.
  assert (Hshort_ok :
    Doc.user_id short = user_id /\ keyed_by_ObjectId short /\
    Doc.access_count short = 0 /\
    Doc.importance_score short = _calculate_importance_score message /\
    Doc.memory_type short = SHORT_TERM).
  { subst short. cbn. repeat split. now eexists. }
  destruct Hshort_ok as (Hu1 & Hk1 & Ha1 & Hi1 & Ht1).
  destruct (Py.leb 0.7 (_calculate_importance_score message)) eqn:Hhigh.
  - apply leb_le in Hhigh as Hhigh'.
    destruct (fails s1 (calls s1)) eqn:Hf2.
    + match goal with |- context [store_memory ?u ?c LONG_TERM ?i] =>
        destruct (store_memory_raises u c LONG_TERM i s1 Hf2)
          as (s2 & Hrun2 & Hmem2 & Hcache2) end.
      exists false, [short], s2.
      split; [run; rewrite Hrun1; run; rewrite Hrun2; run;
              reflexivity|].
      split; [congruence|]. split; [simpl; lia|].
      split; [now intros d [= <-]|].
      split; [repeat constructor; try done; congruence|].
      split; [discriminate | intros _; congruence].
    + match goal with |- context [store_memory ?u ?c LONG_TERM ?i] =>
        destruct (store_memory_returns u c LONG_TERM i s1 Hf2)
          as (long & s2 & Hrun2 & Hlong & Hmem2 & _ & _ & _ & Hcache2) end.
      exists true, [short; long]. eexists.
      split; [run; rewrite Hrun1; run; rewrite Hrun2; run;
              unfold _update_short_term_cache, update_cache; run; reflexivity|].
      cbn [memories short_term_cache with_cache].
      split; [rewrite Hmem2, Hmem1, <- app_assoc; reflexivity|].
      split; [simpl; lia|]. split; [now intros d [= <-]|].
      split.
      { constructor; [repeat split; try done; congruence|].
        constructor; [|constructor]. subst long. cbn.
        repeat split; try done. now eexists. }
      split; [intros _; split; [discriminate | congruence] | discriminate].
  - apply leb_gt in Hhigh as Hlow.
    exists true, [short]. eexists.
    split; [run; rewrite Hrun1; run;
            unfold _update_short_term_cache, update_cache; run; reflexivity|].
    cbn [memories short_term_cache with_cache].
    split; [exact Hmem1|]. split; [simpl; lia|].
    split; [now intros d [= <-]|].
    split; [repeat constructor; try done; congruence|].
    split; [intros _; split; [discriminate | congruence] | discriminate].
Qed.

(** ** The cache *)

Lemma cache_append_lookup (user_id : str) (message : Message.t)
    (importance_score : Q) (cache : gmap str (list CacheEntry.t)) :
  exists entries,
    cache_append user_id message importance_score cache !! user_id
      = Some entries /\
    entries
    = drop (length (default [] (cache !! user_id)) + 1 - 20)
           (default [] (cache !! user_id)
            ++ [entry_of message importance_score]).
Proof using Type.
  unfold cache_append. cbv zeta. rewrite lookup_insert_eq.
  eexists. split; [reflexivity|]. fold (entry_of message importance_score).
  set (old := default [] (cache !! user_id)).
  set (entry := entry_of message importance_score).
  unfold Py.len, Py.slice_from, Py.slice_index, Py.len.
  rewrite length_app. simpl length.
  destruct (Z.ltb_spec 20 (Z.of_nat (length old + 1))) as [Hbig|Hsmall].
  - change (-20 <? 0) with true. cbv iota. f_equal. lia.
  - replace (length old + 1 - 20)%nat with 0%nat by lia. reflexivity.
Qed.

(** X19. After the cache update the owner's list ends with the new entry and
    has at most 20 entries, whatever its length was before; it is the end
    of the old list followed by the new entry. The lists of the other
    owners and the collection are untouched. *)
Theorem cache_update_is_capped (user_id : str) (message : Message.t)
    (importance_score : Q) (s : state) :
  exists entries s',
    _update_short_term_cache user_id message importance_score s
      = (Return tt, s') /\
    short_term_cache s' !! user_id = Some entries /\
    (length entries <= 20)%nat /\
    last entries = Some (entry_of message importance_score) /\
    entries `suffix_of`
      (default [] (short_term_cache s !! user_id)
       ++ [entry_of message importance_score]) /\
    (forall other, other <> user_id ->
       short_term_cache s' !! other = short_term_cache s !! other) /\
    memories s' = memories s.
Proof using Type.
  destruct (cache_append_lookup user_id message importance_score
              (short_term_cache s)) as (entries & Hlookup & Hentries).
  exists entries. eexists. split; [reflexivity|].
  cbn [short_term_cache with_cache memories].
  split; [exact Hlookup|].
  set (old := default [] (short_term_cache s !! user_id)) in *.
  split; [|split; [|split; [|split]]].
  - rewrite Hentries, length_drop, length_app. simpl. lia.
  - rewrite Hentries.
    rewrite drop_app_le by lia. apply last_snoc.
  - rewrite Hentries. apply suffix_drop.
  - intros other Hne. unfold cache_append. cbv zeta.
    now rewrite lookup_insert_ne.
  - reflexivity.
Qed.

(** X20. Eviction is first in, first out: below the cap the new entry is
    appended and nothing is dropped; at the cap of 20 exactly the oldest
    entry leaves and the other 19 keep their order in front of the new
    entry. *)
Theorem cache_update_evicts_oldest (user_id : str) (message : Message.t)
    (importance_score : Q) (s : state) (old : list CacheEntry.t) :
  short_term_cache s !! user_id = Some old ->
  (length old <= 20)%nat ->
  short_term_cache
    (snd (_update_short_term_cache user_id message importance_score s))
    !! user_id
  = Some ((if decide (length old = 20%nat) then drop 1 old else old)
          ++ [entry_of message importance_score]).
Proof using Type.
  intros Hold Hlen.
  destruct (cache_append_lookup user_id message importance_score
              (short_term_cache s)) as (entries & Hlookup & Hentries).
  cbn [snd _update_short_term_cache update_cache short_term_cache with_cache].
  unfold _update_short_term_cache, update_cache.
  cbn [snd short_term_cache with_cache].
  rewrite Hold in Hentries.
  change (default [] (Some old)) with old in Hentries.
  rewrite Hlookup, Hentries. f_equal.
  destruct (decide (length old = 20%nat)) as [Hfull|Hroom].
  - rewrite Hfull. replace (20 + 1 - 20)%nat with 1%nat by lia.
    apply drop_app_le. lia.
  - replace (length old + 1 - 20)%nat with 0%nat by lia. reflexivity.
Qed.

Lemma cleanup_cache_run (s : state) :
  _cleanup_cache s
  = (Return tt,
     with_cache (omap (sweep_entries (time_of s (reads s))) (short_term_cache s))
                (with_reads (S (reads s)) s)).
Proof using Type. reflexivity. Qed.

Lemma sweep_entries_spec (now : Z) (old kept : list CacheEntry.t) :
  sweep_entries now old = Some kept <->
  kept <> [] /\ kept = filter (fun entry => cache_keeps now entry = true) old.
Proof using Type.
  unfold sweep_entries.
  destruct (filter (fun entry => cache_keeps now entry = true) old) as [|e l].
  - split; [discriminate | intros [Hne ->]; done].
  - split; [intros [= <-]; now split | intros [_ ->]; reflexivity].
Qed.

(** X21. What the sweep leaves: no owner is left with an empty list and no
    owner appears; the list of an owner that stays is its old list, in the
    old order, without the entries that fail the test on the seconds field
    of their age. The collection is not touched. *)
Theorem sweep_result (s : state) :
  exists s',
    _cleanup_cache s = (Return tt, s') /\
    memories s' = memories s /\
    (forall user_id, short_term_cache s !! user_id = None ->
       short_term_cache s' !! user_id = None) /\
    (forall user_id kept,
       short_term_cache s' !! user_id = Some kept ->
       kept <> [] /\
       exists old,
         short_term_cache s !! user_id = Some old /\
         kept `sublist_of` old /\
         (forall entry,
            entry ∈ kept <->
            entry ∈ old /\
            Py.seconds (time_of s (reads s) - CacheEntry.timestamp entry)
            < 3600)).
Proof using Type.
  eexists. split; [apply cleanup_cache_run|].
  cbn [memories short_term_cache with_cache].
  split; [reflexivity|]. split.
  - intros user_id Hnone. now rewrite lookup_omap, Hnone.
  - intros user_id kept Hkept. rewrite lookup_omap in Hkept.
    destruct (short_term_cache s !! user_id) as [old|] eqn:Hold;
      [|discriminate].
    cbn in Hkept. apply sweep_entries_spec in Hkept as [Hne ->].
    split; [exact Hne|]. exists old. split; [reflexivity|].
    split; [apply sublist_filter; apply _|].
    intros entry. rewrite list_elem_of_filter. unfold cache_keeps.
    rewrite Z.ltb_lt. prop.
Qed.

(** X22. For an entry whose age is between 0 and one day the sweep does what
    its comment says: the entry stays exactly when it is less than an hour
    old. *)
Theorem sweep_exact_within_a_day (s : state) (user_id : str)
    (old : list CacheEntry.t) (entry : CacheEntry.t) :
  short_term_cache s !! user_id = Some old ->
  entry ∈ old ->
  0 <= time_of s (reads s) - CacheEntry.timestamp entry < Py.us_per_day ->
  (exists kept,
     short_term_cache (snd (_cleanup_cache s)) !! user_id = Some kept /\
     entry ∈ kept)
  <-> time_of s (reads s) - CacheEntry.timestamp entry
      < 3600 * Py.us_per_second.
Proof using Type.
  intros Hold Hin Hage.
  rewrite cleanup_cache_run. cbn [snd short_term_cache with_cache].
  rewrite lookup_omap, Hold. cbn.
  assert (Hkeeps : cache_keeps (time_of s (reads s)) entry = true <->
                   time_of s (reads s) - CacheEntry.timestamp entry
                   < 3600 * Py.us_per_second).
  { unfold cache_keeps, Py.seconds. rewrite Z.ltb_lt.
    rewrite Z.mod_small by exact Hage.
    unfold Py.us_per_second. split; intros H.
    - apply Z.nle_gt. intros Hge.
      apply (Z.div_le_mono _ _ 1000000) in Hge; [|lia].
      rewrite Z.div_mul in Hge by lia. lia.
    - apply Z.div_lt_upper_bound; lia. }
  rewrite <- Hkeeps. split.
  - intros (kept & Hkept & Hk). apply sweep_entries_spec in Hkept as [_ ->].
    now apply list_elem_of_filter in Hk as [Hk _].
  - intros Hk.
    assert (Hf : entry ∈ filter (fun e => cache_keeps (time_of s (reads s)) e
                                          = true) old)
      by now apply list_elem_of_filter.
    exists (filter (fun e => cache_keeps (time_of s (reads s)) e = true) old).
    split; [|exact Hf]. apply sweep_entries_spec. split; [|reflexivity].
    intros Hnil. rewrite Hnil in Hf. now apply not_elem_of_nil in Hf.
Qed.

(** ** Context retrieval, clean-up and summary *)

Lemma append_context_result (label : str) (records : list Memory.t) :
  forall (context_items : list str) (s : state),
    fst (append_context label records context_items s) = Raise \/
    fst (append_context label records context_items s)
    = Return (context_items ++ context_of label records).
Proof using Type.
  induction records as [|memory records IH]; intros items s; simpl.
  - right. unfold context_of. simpl. now rewrite app_nil_r.
  - rewrite bind_run.
    destruct (update_memory_access (Memory.id memory) s) as [[modified|] s1];
      [|now left].
    destruct (IH (items ++ [label ++ Memory.content memory]) s1) as [-> | ->];
      [now left | right].
    unfold context_of. simpl. now rewrite <- app_assoc.
Qed.

Lemma query_length_bound (user_id : str) (ty : option MemoryType) (limit : Z)
    (s s' : state) (records : list Memory.t) :
  get_relevant_memories user_id ty limit s = (Return records, s') ->
  limit <> 0 -> Z.of_nat (length records) <= Z.abs limit.
Proof using Type.
  intros Hrun Hne.
  apply get_relevant_memories_inv in Hrun as (_ & _ & -> & _).
  rewrite length_map. unfold selected_docs, cursor_limit.
  destruct (Z.eqb_spec limit 0) as [|_]; [done|]. rewrite length_take. lia.
Qed.

(** X23. With a limit of at least 2, context retrieval returns at most
    [limit] items: first the "Recent: " items of at most limit // 2
    SHORT_TERM records of the owner, then the "Background: " items of at
    most limit // 2 LONG_TERM records of the owner. *)
Theorem context_is_bounded (user_id current_message : str) (limit : Z)
    (s : state) :
  2 <= limit ->
  exists short ranked s',
    get_relevant_context user_id current_message limit s
      = (Return (context_of (Py.utf8 "Recent: ") short
                 ++ context_of (Py.utf8 "Background: ") ranked), s') /\
    Z.of_nat (length short) <= limit / 2 /\
    Z.of_nat (length ranked) <= limit / 2 /\
    Z.of_nat (length (context_of (Py.utf8 "Recent: ") short
                      ++ context_of (Py.utf8 "Background: ") ranked))
    <= limit /\
    Forall (fun memory => Memory.user_id memory = user_id /\
                          Memory.memory_type memory = SHORT_TERM) short /\
    Forall (fun memory => Memory.user_id memory = user_id /\
                          Memory.memory_type memory = LONG_TERM) ranked.
Proof using Type.
  intros Hlimit.
  assert (Hhalf : 1 <= limit / 2) by (apply Z.div_le_lower_bound; lia).
  assert (Hdouble : 2 * (limit / 2) <= limit)
    by (apply Z.mul_div_le; lia).
  assert (Hnone : forall s' : state,
    exists (short ranked : list Memory.t) (s'' : state),
      (Return (@nil str), s')
        = (Return (context_of (Py.utf8 "Recent: ") short
                   ++ context_of (Py.utf8 "Background: ") ranked), s'') /\
      Z.of_nat (length short) <= limit / 2 /\
      Z.of_nat (length ranked) <= limit / 2 /\
      Z.of_nat (length (context_of (Py.utf8 "Recent: ") short
                        ++ context_of (Py.utf8 "Background: ") ranked))
      <= limit /\
      Forall (fun memory => Memory.user_id memory = user_id /\
                            Memory.memory_type memory = SHORT_TERM) short /\
      Forall (fun memory => Memory.user_id memory = user_id /\
                            Memory.memory_type memory = LONG_TERM) ranked).
  { intros s'. exists [], [], s'. simpl. repeat split; try lia; constructor. }
  unfold get_relevant_context, try_except. rewrite bind_run.
  destruct (get_relevant_memories user_id (Some SHORT_TERM) (limit / 2) s)
    as [[short|] s1] eqn:Hshort; [|apply Hnone].
  pose proof (query_length_bound _ _ _ _ _ _ Hshort ltac:(lia)) as Hlen1.
  rewrite Z.abs_eq in Hlen1 by lia.
  destruct (query_records_sound _ _ _ _ _ _ Hshort) as [Hsound _].
  rewrite bind_run.
  pose proof (append_context_result (Py.utf8 "Recent: ") short [] s1) as Hloop1.
  destruct (append_context (Py.utf8 "Recent: ") short [] s1)
    as [[items1|] s2]; simpl in Hloop1; [|apply Hnone].
  destruct Hloop1 as [Hloop1 | Hloop1]; [discriminate|].
  injection Hloop1 as ->. simpl app.
  rewrite bind_run.
  destruct (ranker_run user_id current_message (limit / 2) s2)
    as (scored & -> & Hmap & _).
  rewrite bind_run.
  match goal with |- context [append_context ?l ?r ?i ?st] =>
    pose proof (append_context_result l r i st) as Hloop2;
    destruct (append_context l r i st) as [[items2|] s4] end;
    simpl in Hloop2; [|apply Hnone].
  destruct Hloop2 as [Hloop2 | Hloop2]; [discriminate|].
  injection Hloop2 as ->.
  pose proof (top_memories_length (limit / 2) scored ltac:(lia)) as Hlen2.
  exists short, (map fst (top_memories (limit / 2) scored)), s4.
  split; [reflexivity|]. split; [exact Hlen1|].
  split; [now rewrite length_map|]. split.
  - unfold context_of. rewrite length_app, !length_map. lia.
  - split.
    + eapply List.Forall_impl; [|exact Hsound]. intros m (? & ? & _). now split.
    + apply List.Forall_forall. intros memory Hin.
      apply list_elem_of_In in Hin.
      apply (ranked_from_pool _ _ _ _ _ Hmap) in Hin.
      apply candidate_pool_sound in Hin as (? & ? & _). now split.
Qed.

Lemma purge_run (user_id : str) (days : Z) (s : state) :
  exists result s1,
    cleanup_old_short_term_memories user_id days s = (result, s1) /\
    short_term_cache s1 = short_term_cache s /\
    time_of s1 = time_of s /\ reads s1 = S (reads s) /\
    memories s1 `sublist_of` memories s /\
    (forall d, d ∈ memories s -> Doc.memory_type d = LONG_TERM ->
               d ∈ memories s1) /\
    (result = Raise -> memories s1 = memories s) /\
    (fails s (calls s) = true -> result = Raise).
Proof using Type.
  unfold cleanup_old_short_term_memories. rewrite bind_run.
  unfold datetime_now. cbv beta iota zeta. rewrite bind_run.
  unfold raise_or_return at 1.
  destruct (timedelta_days days) as [delta|]; cbv beta iota zeta.
  2: { eexists _, _. split; [reflexivity|]. now repeat split. }
  rewrite bind_run. unfold raise_or_return.
  destruct (datetime_sub (time_of s (reads s)) delta) as [cutoff|];
    cbv beta iota zeta.
  2: { eexists _, _. split; [reflexivity|]. now repeat split. }
  unfold store_call. cbn [fails calls with_reads].
  destruct (fails s (calls s)).
  { eexists _, _. split; [reflexivity|]. now repeat split. }
  eexists _, _. split; [reflexivity|]. cbn.
  split; [reflexivity|]. split; [reflexivity|]. split; [reflexivity|].
  split; [apply sublist_filter; apply _|]. split; [|split; discriminate].
  intros d Hin Hlong. apply list_elem_of_filter. split; [|exact Hin].
  unfold expired. rewrite Hlong.
  rewrite (bool_decide_eq_false_2 (LONG_TERM = SHORT_TERM)) by discriminate.
  now rewrite andb_false_r.
Qed.

(** X24. The clean-up of the manager never raises and never deletes a
    LONG_TERM document; what it keeps of the collection stays in order.
    Without a user it makes no call to the store at all. When the purge
    fails, the sweep of the cache is skipped: collection and cache are as
    they were. *)
Theorem cleanup_old_memories_is_safe (user_id : option str) (s : state) :
  exists s',
    cleanup_old_memories user_id s = (Return tt, s') /\
    memories s' `sublist_of` memories s /\
    (forall d, d ∈ memories s -> Doc.memory_type d = LONG_TERM ->
               d ∈ memories s') /\
    (Py.truthy user_id = false ->
     memories s' = memories s /\ calls s' = calls s) /\
    (Py.truthy user_id = true -> fails s (calls s) = true ->
     memories s' = memories s /\ short_term_cache s' = short_term_cache s).
Proof using Type.
  unfold cleanup_old_memories, try_except. rewrite bind_run.
  destruct user_id as [[|c user]|].
  - cbn [Py.truthy]. run. rewrite cleanup_cache_run.
    eexists. split; [reflexivity|]. cbn. now repeat split.
  - cbn [Py.truthy]. rewrite bind_run.
    destruct (purge_run (c :: user) 7 s)
      as (result & s1 & -> & Hcache & Htime & Hreads & Hsub & Hlong
          & Hraise & Hfail).
    destruct result as [deleted|].
    + run. rewrite cleanup_cache_run.
      eexists. split; [reflexivity|]. cbn.
      split; [exact Hsub|]. split; [exact Hlong|].
      split; [discriminate|]. intros _ Hf. now specialize (Hfail Hf).
    + eexists. split; [reflexivity|].
      rewrite (Hraise eq_refl). now repeat split.
  - run. rewrite cleanup_cache_run.
    eexists. split; [reflexivity|]. cbn. now repeat split.
Qed.

(** X25. The summary never raises and changes nothing. When it succeeds the
    total is the sum of the two counts, each count is at most 100 whatever
    the collection holds, and the cache count is the length of the owner's
    list; when the first query fails the answer is the error entry. *)
Theorem memory_summary_counts (user_id : str) (s : state) :
  exists summary s',
    get_memory_summary user_id s = (Return summary, s') /\
    memories s' = memories s /\
    short_term_cache s' = short_term_cache s /\
    (forall short_term_count long_term_count total_memories cache_entries
            most_recent_memory,
       summary = Summary short_term_count long_term_count total_memories
                         cache_entries most_recent_memory ->
       total_memories = short_term_count + long_term_count /\
       0 <= short_term_count <= 100 /\ 0 <= long_term_count <= 100 /\
       cache_entries
       = Py.len (default [] (short_term_cache s !! user_id))) /\
    (fails s (calls s) = true -> summary = SummaryError).
Proof using Type.
  unfold get_memory_summary, try_except. rewrite bind_run.
  destruct (get_relevant_memories user_id (Some SHORT_TERM) 100 s)
    as [[short|] s1] eqn:Hshort.
  2: { pose proof (get_relevant_memories_state user_id (Some SHORT_TERM) 100 s)
         as Hst. rewrite Hshort in Hst. simpl in Hst. subst s1.
       eexists _, _. split; [reflexivity|]. cbn.
       split; [reflexivity|]. split; [reflexivity|].
       split; [discriminate | reflexivity]. }
  pose proof (query_length_bound _ _ _ _ _ _ Hshort ltac:(lia)) as Hlen1.
  apply get_relevant_memories_inv in Hshort as (Hok & _ & _ & ->).
  rewrite bind_run.
  destruct (get_relevant_memories user_id (Some LONG_TERM) 100
              (with_calls (S (calls s)) s)) as [[long|] s2] eqn:Hlong.
  2: { pose proof (get_relevant_memories_state user_id (Some LONG_TERM) 100
                     (with_calls (S (calls s)) s)) as Hst.
       rewrite Hlong in Hst. simpl in Hst. subst s2.
       eexists _, _. split; [reflexivity|]. cbn.
       split; [reflexivity|]. split; [reflexivity|].
       split; [discriminate | reflexivity]. }
  pose proof (query_length_bound _ _ _ _ _ _ Hlong ltac:(lia)) as Hlen2.
  apply get_relevant_memories_inv in Hlong as (_ & _ & _ & ->).
  run. eexists _, _. split; [reflexivity|]. cbn.
  split; [reflexivity|]. split; [reflexivity|]. split.
  - intros a b t c m [= <- <- <- <- _]. unfold Py.len. repeat split; lia.
  - intros Hko. congruence.
Qed.

(** ** The callers *)

Lemma scan_app (before after : list (str * str)) (message_lower : str) :
  scan_emotion_keywords (before ++ after) message_lower
  = match scan_emotion_keywords before message_lower with
    | Some detected => Some detected
    | None => scan_emotion_keywords after message_lower
    end.
Proof using Type.
  induction before as [|[word emotion] before IH]; [reflexivity|].
  cbn [app scan_emotion_keywords].
  destruct (Py.contains word message_lower); [|exact IH].
  destruct (state_of_emotion emotion); [reflexivity | exact IH].
Qed.

Lemma scan_same_emotion (words : list str) (emotion : str)
    (detected : EmotionalState) (message_lower : str) :
  state_of_emotion emotion = Some detected ->
  scan_emotion_keywords (map (fun word => (word, emotion)) words) message_lower
  = if existsb (fun word => Py.contains word message_lower) words
    then Some detected else None.
Proof using Type.
  intros Hstate. induction words as [|word words IH]; [reflexivity|].
  cbn [map scan_emotion_keywords existsb].
  destruct (Py.contains word message_lower); [now rewrite Hstate | exact IH].
Qed.

Lemma scan_never (table : list (str * str)) (detected : EmotionalState)
    (message_lower : str) :
  Forall (fun entry => state_of_emotion (snd entry) <> Some detected) table ->
  scan_emotion_keywords table message_lower <> Some detected.
Proof using Type.
  induction 1 as [|[word emotion] table Hentry _ IH]; [discriminate|].
  cbn [scan_emotion_keywords].
  destruct (Py.contains word message_lower); [|exact IH].
  destruct (state_of_emotion emotion) as [st|] eqn:E; [|exact IH].
  simpl in Hentry. congruence.
Qed.

Lemma emotion_keywords_layout :
  emotion_keywords
  = map (fun word => (word, Py.utf8 "happy")) happy_words
    ++ map (fun word => (word, Py.utf8 "sad")) sad_words
    ++ drop 6 emotion_keywords.
Proof using Type. vm_compute. reflexivity. Qed.

Lemma later_keywords_not_sad :
  Forall (fun entry => state_of_emotion (snd entry) <> Some DEPRESSED)
         (drop 6 emotion_keywords).
Proof using Type. apply (bool_decide_unpack _). vm_compute. exact I. Qed.

(** X26. The analysis node reports DEPRESSED exactly when the lowered message
    contains one of the words for sadness and none of the words for
    happiness, which come first in the table; punctuation, questions and
    length never produce this state. *)
Theorem depressed_iff_sad_word (message : str) :
  _detect_emotional_state message = DEPRESSED <->
  existsb (fun word => Py.contains word (lower message)) happy_words = false /\
  existsb (fun word => Py.contains word (lower message)) sad_words = true.
Proof using Type.
  unfold _detect_emotional_state. cbv zeta.
  rewrite emotion_keywords_layout, !scan_app.
  rewrite (scan_same_emotion happy_words (Py.utf8 "happy") EXCITED)
    by (vm_compute; reflexivity).
  rewrite (scan_same_emotion sad_words (Py.utf8 "sad") DEPRESSED)
    by (vm_compute; reflexivity).
  destruct (existsb (fun word => Py.contains word (lower message)) happy_words).
  { split; [discriminate | intros [? _]; discriminate]. }
  destruct (existsb (fun word => Py.contains word (lower message)) sad_words).
  { split; [now split | reflexivity]. }
  pose proof (scan_never (drop 6 emotion_keywords) DEPRESSED (lower message)
                later_keywords_not_sad) as Hnever.
  destruct (scan_emotion_keywords (drop 6 emotion_keywords) (lower message))
    as [detected|].
  { split; [intros ->; now destruct Hnever | intros [_ ?]; discriminate]. }
  split; [|intros [_ ?]; discriminate].
  destruct (existsb _ question_words && existsb _ problem_words);
    [discriminate|].
  destruct (Py.contains (Py.utf8 "!") message); [discriminate|].
  destruct (1 <? count_char _ message); [discriminate|].
  destruct (200 <? Py.len message); discriminate.
Qed.


(** ** The rounded score against the formula *)

Lemma rint_error (x : Q) :
  (- (1 # 2) <= inject_Z (B64.rint x) - x <= 1 # 2)%Q.
Proof using Type.
  unfold B64.rint. pose proof (Qfloor_le x) as Hlo.
  pose proof (Qlt_floor x) as Hhi. rewrite inject_Z_plus in Hhi.
  change (inject_Z 1) with 1%Q in Hhi.
  destruct (Qcompare_spec (x - inject_Z (Qfloor x)) (1 # 2)) as [H|H|H].
  - destruct (Z.even (Qfloor x)); [lra|].
    rewrite inject_Z_plus. change (inject_Z 1) with 1%Q. lra.
  - lra.
  - rewrite inject_Z_plus. change (inject_Z 1) with 1%Q. lra.
Qed.

Lemma round_pos_error (x : Q) :
  (0 < x)%Q ->
  (- (2 ^ B64.ulp_exponent x * (1 # 2)) <= B64.round_pos x - x
   <= 2 ^ B64.ulp_exponent x * (1 # 2))%Q.
Proof using Type.
  intros Hx. unfold B64.round_pos. cbv zeta.
  set (e := B64.ulp_exponent x).
  pose proof (rint_error (x * 2 ^ (- e))) as Herr.
  pose proof (pow2_pos e) as Hp.
  assert (Hx' : (x == x * 2 ^ (- e) * 2 ^ e)%Q).
  { rewrite <- Qmult_assoc, pow2_cancel. ring. }
  set (z := (x * 2 ^ (- e))%Q) in *.
  set (r := inject_Z (B64.rint z)) in *.
  set (p := (2 ^ e)%Q) in *.
  clearbody r. clearbody z. clearbody p.
  assert (Hdiff : (r * p - x == (r - z) * p)%Q) by (rewrite Hx'; ring).
  rewrite Hdiff. split.
  - apply Qle_trans with ((- (1 # 2)) * p)%Q; [lra|].
    apply Qmult_le_compat_r; lra.
  - apply Qle_trans with ((1 # 2) * p)%Q; [|lra].
    apply Qmult_le_compat_r; lra.
Qed.

Lemma ulp_exponent_small (x : Q) :
  (0 < x < 2)%Q -> (2 ^ B64.ulp_exponent x <= 2 ^ (-52))%Q.
Proof using Type.
  intros [Hx0 Hx2]. apply pow2_le.
  destruct (ilog2_spec x Hx0) as [Hlo _].
  assert (H : (2 ^ B64.ilog2 x < 2 ^ 1)%Q).
  { apply Qle_lt_trans with x; [exact Hlo|]. exact Hx2. }
  apply pow2_lt_inv in H. unfold B64.ulp_exponent. lia.
Qed.

(** Rounding a number between -2 and 2 moves it by at most one unit
    roundoff. *)
Lemma round_error (x : Q) :
  (- 2 < x < 2)%Q ->
  (- unit_roundoff <= B64.round x - x <= unit_roundoff)%Q.
Proof using Type.
  intros [Hlo Hhi].
  assert (Hu : (2 ^ (-52) * (1 # 2) == unit_roundoff)%Q) by reflexivity.
  unfold B64.round.
  destruct (Qcompare_spec x 0) as [Hx|Hx|Hx].
  - rewrite Hx. vm_compute. split; discriminate.
  - pose proof (round_pos_error (- x) ltac:(lra)) as Herr.
    pose proof (ulp_exponent_small (- x) ltac:(lra)) as Hsmall.
    lra.
  - pose proof (round_pos_error x Hx) as Herr.
    pose proof (ulp_exponent_small x ltac:(lra)) as Hsmall.
    lra.
Qed.

Lemma unit_roundoff_value : (unit_roundoff == 1 # 9007199254740992)%Q.
Proof using Type. reflexivity. Qed.

Lemma score_tolerance_value : (score_tolerance == 16 * unit_roundoff)%Q.
Proof using Type. reflexivity. Qed.

Lemma round_1 : (B64.round 1 == 1)%Q.
Proof using Type. vm_compute. reflexivity. Qed.

Lemma round_near (exact : Q) :
  (0 <= exact <= 1)%Q -> near (B64.round exact) exact.
Proof using Type.
  intros HA. split; [exact HA|]. split.
  - split.
    + exact (round_monotone 0 exact (proj1 HA)).
    + rewrite <- round_1. apply round_monotone. exact (proj2 HA).
  - apply round_error. lra.
Qed.

Lemma mul_error (a A c C : Q) :
  near a A -> near c C ->
  (0 <= B64.mul a c)%Q /\
  (- (3 * unit_roundoff) <= B64.mul a c - A * C <= 3 * unit_roundoff)%Q.
Proof using Type.
  intros (HA & Ha & Hda) (HC & Hc & Hdc).
  pose proof unit_roundoff_value as Hu.
  assert (Hac : (0 <= a * c <= 1)%Q) by nra.
  pose proof (round_error (a * c) ltac:(lra)) as Hr.
  pose proof (round_monotone 0 (a * c) (proj1 Hac)) as Hpos.
  unfold B64.mul. change (B64.round 0) with 0%Q in Hpos.
  split; [exact Hpos|].
  set (r := B64.round (a * c)) in *. clearbody r.
  set (u := unit_roundoff) in *. clearbody u.
  nra.
Qed.

(** The formula in binary64 is within 16 unit roundoffs of the formula:
    three for each of the four products, one for each of the three sums,
    and one to spare. *)
Lemma float_formula_error (s S i I r R a A : Q) :
  near s S -> near i I -> near r R -> near a A ->
  (- score_tolerance
   <= float_formula s i r a - (S * 0.5 + I * 0.3 + R * 0.1 + A * 0.1)
   <= score_tolerance)%Q.
Proof using Type.
  intros Hs Hi Hr Ha.
  pose proof unit_roundoff_value as Hu.
  pose proof score_tolerance_value as Ht.
  destruct (mul_error s S (B64.round 0.5) 0.5 Hs
              (round_near 0.5 ltac:(lra))) as [Hp1 He1].
  destruct (mul_error i I (B64.round 0.3) 0.3 Hi
              (round_near 0.3 ltac:(lra))) as [Hp2 He2].
  destruct (mul_error r R (B64.round 0.1) 0.1 Hr
              (round_near 0.1 ltac:(lra))) as [Hp3 He3].
  destruct (mul_error a A (B64.round 0.1) 0.1 Ha
              (round_near 0.1 ltac:(lra))) as [Hp4 He4].
  destruct Hs as (HS & _ & _), Hi as (HI & _ & _), Hr as (HR & _ & _),
           Ha as (HA & _ & _).
  unfold float_formula, B64.add.
  set (p1 := B64.mul s (B64.round 0.5)) in *. clearbody p1.
  set (p2 := B64.mul i (B64.round 0.3)) in *. clearbody p2.
  set (p3 := B64.mul r (B64.round 0.1)) in *. clearbody p3.
  set (p4 := B64.mul a (B64.round 0.1)) in *. clearbody p4.
  assert (H1 : (0 <= S * 0.5 <= 0.5)%Q) by lra.
  assert (H2 : (0 <= I * 0.3 <= 0.3)%Q) by lra.
  assert (H3 : (0 <= R * 0.1 <= 0.1)%Q) by lra.
  assert (H4 : (0 <= A * 0.1 <= 0.1)%Q) by lra.
  set (e1 := (S * 0.5)%Q) in *. clearbody e1.
  set (e2 := (I * 0.3)%Q) in *. clearbody e2.
  set (e3 := (R * 0.1)%Q) in *. clearbody e3.
  set (e4 := (A * 0.1)%Q) in *. clearbody e4.
  pose proof (round_error (p1 + p2) ltac:(lra)) as Hr1.
  set (t1 := B64.round (p1 + p2)) in *. clearbody t1.
  pose proof (round_error (t1 + p3) ltac:(lra)) as Hr2.
  set (t2 := B64.round (t1 + p3)) in *. clearbody t2.
  pose proof (round_error (t2 + p4) ltac:(lra)) as Hr3.
  set (t3 := B64.round (t2 + p4)) in *. clearbody t3.
  set (u := unit_roundoff) in *. clearbody u.
  set (tol := score_tolerance) in *. clearbody tol.
  lra.
Qed.

Lemma round_1_0 : (B64.round 1.0 == 1)%Q.
Proof using Type. vm_compute. reflexivity. Qed.

Lemma access_factor_near (access_count : Z) :
  0 <= access_count ->
  near (Py.min (B64.round 1.0) (B64.round (inject_Z access_count / 10)))
       (spec_access_factor access_count).
Proof using Type.
  intros Hcount. unfold spec_access_factor.
  assert (Hx : (0 <= inject_Z access_count / 10)%Q).
  { apply Qle_shift_div_l; [reflexivity|]. rewrite Qmult_0_l.
    change 0%Q with (inject_Z 0). now rewrite <- Zle_Qle. }
  set (x := (inject_Z access_count / 10)%Q) in *. clearbody x.
  pose proof round_1_0 as Hone. pose proof round_1 as Hone'.
  pose proof unit_roundoff_value as Hu.
  unfold near, Py.min.
  destruct (Qlt_le_dec x 1) as [Hlt|Hge].
  - assert (Hmin : (Qmin 1 x == x)%Q) by (apply Q.min_r; lra).
    destruct (round_near x ltac:(lra)) as (_ & Hrx & Herr).
    set (m := Qmin 1 x) in *. clearbody m.
    destruct (Py.ltb (B64.round x) (B64.round 1.0)) eqn:E.
    + lra.
    + apply ltb_ge in E. lra.
  - assert (Hmin : (Qmin 1 x == 1)%Q) by (apply Q.min_l; lra).
    pose proof (round_monotone 1 x Hge) as Hmono.
    set (m := Qmin 1 x) in *. clearbody m.
    destruct (Py.ltb (B64.round x) (B64.round 1.0)) eqn:E.
    + apply ltb_lt in E. lra.
    + lra.
Qed.

Lemma time_relevance_range (age : Z) : (0 <= time_relevance age <= 1)%Q.
Proof using Type.
  unfold time_relevance.
  repeat match goal with |- context [if ?b then _ else _] => destruct b end;
    lra.
Qed.

Lemma spec_recency_time_relevance (age : Z) (recency : Q) :
  spec_recency age recency -> (recency == time_relevance age)%Q.
Proof using Type.
  intros H. unfold time_relevance.
  destruct H;
    repeat match goal with
           | |- context [?a <=? ?b] => destruct (Z.leb_spec a b); try lia
           end; lra.
Qed.

(** The score of one candidate: binary64 against the formula. *)
Lemma float_final_score_error (query_tokens : gset str) (age : Z)
    (candidate : Memory.t) (final_score : Q) :
  spec_final_score query_tokens age candidate final_score ->
  (0 <= Memory.importance_score candidate <= 1)%Q ->
  0 <= Memory.access_count candidate ->
  (- score_tolerance
   <= float_final_score query_tokens age candidate - final_score
   <= score_tolerance)%Q.
Proof using Type.
  intros (recency & Hrec & Hscore) Himp Hcount.
  apply spec_recency_time_relevance in Hrec.
  pose proof (float_formula_error _ _ _ _ _ _ _ _
    (round_near _ (spec_similarity_range query_tokens
                     (keyword_set (lower (Memory.content candidate)))))
    (round_near _ Himp)
    (round_near _ (time_relevance_range age))
    (access_factor_near _ Hcount)) as Herr.
  unfold float_final_score. lra.
Qed.

Lemma loops_agree (current_words : gset str) (pool : list Memory.t) :
  Forall (fun candidate =>
            (0 <= Memory.importance_score candidate <= 1)%Q /\
            0 <= Memory.access_count candidate) pool ->
  forall (exact_so_far rounded_so_far : list (Memory.t * Q)) (s : state),
    Forall2 same_record_close_score exact_so_far rounded_so_far ->
    exists exact rounded s',
      score_memories current_words pool exact_so_far s = (Return exact, s') /\
      float_score_memories current_words pool rounded_so_far s
        = (Return rounded, s') /\
      Forall2 same_record_close_score exact rounded.
Proof using Type.
  induction 1 as [|memory pool [Himp Hcount] _ IH]; intros acc acc' s Hacc.
  - exists acc, acc', s. now repeat split.
  - simpl. rewrite !bind_run.
    destruct (score_memory_run current_words memory s)
      as [(Hsc & final & -> & Hspec) | (Hsc & ->)];
      destruct (float_score_memory_run current_words memory s)
        as [(Hsc' & ->) | (Hsc' & ->)]; try contradiction.
    + apply IH. apply Forall2_app; [exact Hacc|].
      constructor; [|constructor]. split; [reflexivity|].
      now apply float_final_score_error.
    + apply IH. apply Forall2_app; [exact Hacc | constructor].
Qed.

(** X28. The scores that the ranker computes in binary64 follow the
    formula: over a pool that the store delivered, with access counts that
    are not negative, the loop as the interpreter runs it and the loop read
    over the rationals score the same records in the same order, consume
    the same readings of the clock, and their scores differ by at most
    2^-49, less than 2 * 10^-15. *)
Theorem rounded_scores_follow_the_formula (user_id : str)
    (current_words : gset str) (s s0 : state) :
  Forall (fun candidate => 0 <= Memory.access_count candidate)
         (candidate_pool user_id s0) ->
  exists exact rounded s',
    score_memories current_words (candidate_pool user_id s0) [] s
      = (Return exact, s') /\
    float_score_memories current_words (candidate_pool user_id s0) [] s
      = (Return rounded, s') /\
    Forall2 same_record_close_score exact rounded.
Proof using Type.
  intros Hcount. apply loops_agree; [|constructor].
  apply List.Forall_forall. intros candidate Hin.
  rewrite List.Forall_forall in Hcount. split; [|now apply Hcount].
  apply list_elem_of_In in Hin.
  now apply candidate_pool_sound in Hin as (_ & _ & Himp).
Qed.

End MemoryManager.

(** ** Worked runs

    The claims at concrete inputs, with the interpreter's tables for Latin-1
    and Arabic-script text. *)

(** The state after the owner has stored one message in [s]. *)
Abbreviation after_storing message s :=
  (snd (store_conversation_memory latin1_lower iso_date owner message s)).

(** The scores of the worked messages. *)
Example sad_message_score :
  (_calculate_importance_score latin1_lower sad_message == 0.58)%Q.
Proof. vm_compute. reflexivity. Qed.

Example grave_message_score :
  (_calculate_importance_score latin1_lower grave_message == 0.85)%Q.
Proof. vm_compute. reflexivity. Qed.

Example long_message_score :
  (_calculate_importance_score latin1_lower long_message == 0.6)%Q.
Proof. vm_compute. reflexivity. Qed.

(** A negative limit is a slice bound counted from the end: of three scored
    entries, [scored_memories[:-1]] keeps two. *)
Example negative_limit_counts_from_the_end :
  let memory := Memory.mk None owner LONG_TERM [] 0.9 0 0 0 in
  length (top_memories (-1) [(memory, 0.9%Q); (memory, 0.8%Q); (memory, 0.7%Q)])
    = 2%nat.
Proof. vm_compute. reflexivity. Qed.

(** binary64 at numbers whose exact value the interpreter shows with
    [float.as_integer_ratio]: the literal 0.1, the sum 0.1 + 0.2, the
    product 0.1 * 0.3, the division 1 / 3, two integers half way between
    two floats, and the least positive float. *)
Example binary64_values :
  (B64.round 0.1 == 3602879701896397 # 36028797018963968)%Q /\
  (B64.add (B64.round 0.1) (B64.round 0.2)
   == 1351079888211149 # 4503599627370496)%Q /\
  (B64.mul (B64.round 0.1) (B64.round 0.3)
   == 1080863910568919 # 36028797018963968)%Q /\
  (B64.truediv 1 3 == 6004799503160661 # 18014398509481984)%Q /\
  (B64.round (inject_Z (2 ^ 53 + 1)) == inject_Z (2 ^ 53))%Q /\
  (B64.round (inject_Z (2 ^ 53 + 3)) == inject_Z (2 ^ 53 + 4))%Q /\
  (B64.round (3 * 2 ^ (-1075)) == 2 ^ (-1073))%Q /\
  (B64.round (2 ^ (-1075)) == 0)%Q.
Proof. repeat split; vm_compute; reflexivity. Qed.

(** The rounding of binary64 at work. The cutoff and the sort see the
    rounded scores: a record to which the formula gives less than 0.2 is
    returned, one to which it gives more is dropped, and of two records to
    which it gives the same 8/25 the one retrieved second comes first. *)
Example rounded_score_passes_the_cutoff :
  match fst (score_memories latin1_lower latin1_isword
               (keyword_set latin1_isword (latin1_lower (Py.utf8 "omega")))
               (candidate_pool owner below_in_exact) [] below_in_exact) with
  | Return [entry] => Py.ltb (snd entry) 0.2
  | _ => false
  end = true /\
  fst (_get_contextually_relevant_memories latin1_lower latin1_isword owner
         (Py.utf8 "omega") 5 below_in_exact)
  = Return (candidate_pool owner below_in_exact) /\
  length (candidate_pool owner below_in_exact) = 1%nat.
Proof. repeat split; vm_compute; reflexivity. Qed.

Example rounded_score_fails_the_cutoff :
  match fst (score_memories latin1_lower latin1_isword
               (keyword_set latin1_isword (latin1_lower (Py.utf8 "omega")))
               (candidate_pool owner above_in_exact) [] above_in_exact) with
  | Return [entry] => Py.ltb 0.2 (snd entry)
  | _ => false
  end = true /\
  fst (_get_contextually_relevant_memories latin1_lower latin1_isword owner
         (Py.utf8 "omega") 5 above_in_exact)
  = Return [] /\
  length (candidate_pool owner above_in_exact) = 1%nat.
Proof. repeat split; vm_compute; reflexivity. Qed.

Example rounded_scores_break_a_tie :
  match fst (score_memories latin1_lower latin1_isword
               (keyword_set latin1_isword
                  (latin1_lower (Py.utf8 "alpha beta")))
               (candidate_pool owner tied_in_exact) [] tied_in_exact) with
  | Return [first; second] =>
    Qeq_bool (snd first) (8 # 25) && Qeq_bool (snd second) (8 # 25)
  | _ => false
  end = true /\
  fst (_get_contextually_relevant_memories latin1_lower latin1_isword owner
         (Py.utf8 "alpha beta") 5 tied_in_exact)
  = Return (reverse (candidate_pool owner tied_in_exact)) /\
  map Memory.id (candidate_pool owner tied_in_exact)
  = [Some (ObjectId_str 0); Some (ObjectId_str 1)].
Proof. repeat split; vm_compute; reflexivity. Qed.

(** C2 at a pool of one long-term record and a limit of 5. *)
Lemma rank_bounded_and_above_cutoff_witness :
  0 <= 5 /\
  exists entries s',
    _get_contextually_relevant_memories latin1_lower latin1_isword owner
      (Message.content grave_message) 5 (after_storing grave_message quiet)
      = (Return (map fst entries), s') /\
    Z.of_nat (length (map fst entries)) <= 5 /\
    Forall (fun entry =>
              fst entry ∈ candidate_pool owner
                            (after_storing grave_message quiet) /\
              float_scored_at latin1_lower latin1_isword
                (after_storing grave_message quiet)
                (reads (after_storing grave_message quiet))
                (keyword_set latin1_isword (latin1_lower (Message.content grave_message)))
                entry /\
              (cutoff < snd entry)%Q) entries.
Proof.
  split; [lia|].
  apply (rank_bounded_and_above_cutoff latin1_lower latin1_isword owner
           (Message.content grave_message) 5
           (after_storing grave_message quiet)).
  lia.
Defined.

(** C4 as stated fails: the long-term record of [grave_message] shares no
    token with the query, and the ranking returns it. *)
Lemma zero_overlap_candidate_is_returned :
  ~ (forall (user_id current_message : str) (limit : Z) (s : state),
       candidate_pool user_id s <> [] ->
       Forall (fun candidate =>
                 size (keyword_set latin1_isword (latin1_lower current_message)
                       ∩ keyword_set latin1_isword
                           (latin1_lower (Memory.content candidate))) = 0%nat)
              (candidate_pool user_id s) ->
       fst (_get_contextually_relevant_memories latin1_lower latin1_isword user_id current_message
              limit s) = Return []).
Proof.
  intros Hclaim.
  specialize (Hclaim owner (Py.utf8 "weather today") 5
                (after_storing grave_message quiet)).
  assert (Hpool : candidate_pool owner (after_storing grave_message quiet)
                  <> []) by (vm_compute; discriminate).
  specialize (Hclaim Hpool).
  assert (Hdisjoint :
    Forall (fun candidate =>
              size (keyword_set latin1_isword (latin1_lower (Py.utf8 "weather today"))
                    ∩ keyword_set latin1_isword
                        (latin1_lower (Memory.content candidate))) = 0%nat)
           (candidate_pool owner (after_storing grave_message quiet))).
  { apply (bool_decide_unpack _). vm_compute. exact I. }
  specialize (Hclaim Hdisjoint). vm_compute in Hclaim. discriminate.
Qed.

(** C4 as the code has it, at the same pool and query. *)
Lemma rank_without_overlap_witness :
  Forall (fun candidate =>
            size (keyword_set latin1_isword (latin1_lower (Py.utf8 "weather today"))
                  ∩ keyword_set latin1_isword
                      (latin1_lower (Memory.content candidate))) = 0%nat)
         (candidate_pool owner (after_storing grave_message quiet)) /\
  exists scored s',
    _get_contextually_relevant_memories latin1_lower latin1_isword owner (Py.utf8 "weather today") 5
      (after_storing grave_message quiet)
      = (Return (map fst (top_memories 5 scored)), s') /\
    Forall (scored_without_overlap (after_storing grave_message quiet)
              (reads (after_storing grave_message quiet))) scored.
Proof.
  assert (Hdisjoint :
    Forall (fun candidate =>
              size (keyword_set latin1_isword (latin1_lower (Py.utf8 "weather today"))
                    ∩ keyword_set latin1_isword
                        (latin1_lower (Memory.content candidate))) = 0%nat)
           (candidate_pool owner (after_storing grave_message quiet))).
  { apply (bool_decide_unpack _). vm_compute. exact I. }
  split; [exact Hdisjoint|].
  destruct (rank_without_overlap latin1_lower latin1_isword owner
              (Py.utf8 "weather today") 5
              (after_storing grave_message quiet) Hdisjoint)
    as (scored & s' & Hrun & _ & Hscores & _).
  exists scored, s'. split; [exact Hrun | exact Hscores].
Defined.

(** C5 at a text of 201 letters: the bonus is 0.1. *)
Lemma longer_length_bonus_unreachable_witness :
  200 < Py.len (Message.content long_message) /\
  add_length_bonus (Message.content long_message) 0.5 = (0.5 + 0.1)%Q /\
  ~ (add_length_bonus (Message.content long_message) 0.5 == 0.5 + 0.15)%Q.
Proof.
  split; [vm_compute; reflexivity|].
  apply (longer_length_bonus_unreachable (Message.content long_message) 0.5).
  vm_compute. reflexivity.
Defined.

(** C6 as stated fails: the score is not what the other signals and the
    bonus of the specification add up to. The message "hello" with no
    detected emotion scores the base 0.5, not 0.55. *)
Lemma absent_emotion_adds_nothing :
  ~ (forall message : Message.t,
       (_calculate_importance_score latin1_lower message
        == Py.max 0.0
             (Py.min 1.0
                (other_signals (latin1_lower (Message.content message))
                 + spec_emotion_bonus (Message.emotion_detected message))))%Q).
Proof.
  intros Hclaim. specialize (Hclaim (plain_message None)).
  vm_compute in Hclaim. discriminate.
Qed.

(** C6 as the code has it, at a label the table does not know. *)
Lemma emotion_bonus_cases_witness :
  exists bonus : Q,
    (unclamped_importance_score latin1_lower (plain_message (Some (Py.utf8 "calm")))
     == unclamped_importance_score latin1_lower (plain_message None) + bonus)%Q /\
    bonus = 0.05%Q.
Proof.
  destruct (emotion_bonus_cases latin1_lower
              (plain_message (Some (Py.utf8 "calm"))))
    as (bonus & Hsum & _ & Hdefault & _).
  exists bonus. split; [exact Hsum|].
  apply (Hdefault (Py.utf8 "calm")).
  - reflexivity.
  - vm_compute. discriminate.
  - vm_compute. reflexivity.
Defined.

(** C7 as stated fails: the score of the message is below 0.65, and storing
    it writes no LONG_TERM record. *)
Lemma sad_message_is_not_long_term :
  ~ (0.65 <= _calculate_importance_score latin1_lower sad_message)%Q /\
  ~ (exists d,
       d ∈ memories (snd (store_conversation_memory latin1_lower iso_date
                            owner sad_message quiet)) /\
       Doc.memory_type d = LONG_TERM).
Proof.
  split.
  - intros Hscore. vm_compute in Hscore. now apply Hscore.
  - intros (d & Hin & Hty).
    assert (Hall : Forall (fun d => Doc.memory_type d = SHORT_TERM)
                     (memories (after_storing sad_message quiet))).
    { apply (bool_decide_unpack _). vm_compute. exact I. }
    rewrite List.Forall_forall in Hall.
    apply list_elem_of_In in Hin. specialize (Hall d Hin). congruence.
Qed.

(** C7 as the code has it, in the empty collection. *)
Lemma tier_decision_witness :
  latin1_lower (Message.content sad_message) = Message.content sad_message /\
  fails quiet (calls quiet) = false /\ fails quiet (S (calls quiet)) = false /\
  (_calculate_importance_score latin1_lower sad_message == 0.58)%Q /\
  exists short s',
    store_conversation_memory latin1_lower iso_date owner sad_message quiet = (Return true, s') /\
    memories s' = memories quiet ++ [short] /\
    Doc.memory_type short = SHORT_TERM.
Proof.
  assert (Hlower : latin1_lower (Message.content sad_message)
                   = Message.content sad_message) by (vm_compute; reflexivity).
  split; [exact Hlower|]. split; [reflexivity|]. split; [reflexivity|].
  destruct (tier_decision latin1_lower iso_date owner quiet Hlower eq_refl eq_refl)
    as (Hscore & Hstore & _).
  split; [exact Hscore | exact Hstore].
Defined.

(** C8 at the collection that holds the stored message: the record is
    returned as context, and its access count is still 0. *)
Lemma context_retrieval_updates_no_record_witness :
  Forall keyed_by_ObjectId (memories (after_storing sad_message quiet)) /\
  fst (get_relevant_context latin1_lower latin1_isword owner (Py.utf8 "hello") 10
         (after_storing sad_message quiet))
    = Return [Py.utf8 "Recent: user: " ++ Message.content sad_message] /\
  memories (snd (get_relevant_context latin1_lower latin1_isword owner (Py.utf8 "hello") 10
                   (after_storing sad_message quiet)))
    = memories (after_storing sad_message quiet) /\
  Forall (fun d => Doc.access_count d = 0)
         (memories (after_storing sad_message quiet)).
Proof.
  assert (Hkeyed : Forall keyed_by_ObjectId
                     (memories (after_storing sad_message quiet))).
  { vm_compute. repeat constructor. now exists 0%N. }
  split; [exact Hkeyed|]. split; [vm_compute; reflexivity|]. split.
  - apply (context_retrieval_updates_no_record latin1_lower latin1_isword owner
             (Py.utf8 "hello") 10 (after_storing sad_message quiet) Hkeyed).
  - vm_compute. repeat constructor.
Defined.

(** C9 at an entry that is one day and ten minutes old. *)
Lemma sweep_keeps_entry_older_than_a_day_witness :
  Py.us_per_day + 600 * Py.us_per_second
    = time_of stale (reads stale) - CacheEntry.timestamp stale_entry /\
  exists kept s',
    _cleanup_cache stale = (Return tt, s') /\
    short_term_cache s' !! owner = Some kept /\
    stale_entry ∈ kept.
Proof.
  split; [reflexivity|].
  apply (sweep_keeps_entry_older_than_a_day stale owner [stale_entry] stale_entry).
  - vm_compute. reflexivity.
  - left.
  - vm_compute. discriminate.
  - vm_compute. reflexivity.
Defined.

(** C10 as stated fails: the long-term query, the call numbered 3, raises,
    and context retrieval still returns the short-term item. *)
Lemma failed_long_term_query_keeps_recent_items :
  ~ (forall (s : state) (k : nat),
       (calls s <= k < calls (snd (get_relevant_context latin1_lower latin1_isword owner
                                     (Py.utf8 "hello") 10 s)))%nat ->
       fails s k = true ->
       fst (get_relevant_context latin1_lower latin1_isword owner (Py.utf8 "hello") 10 s)
         = Return []).
Proof.
  intros Hclaim.
  specialize (Hclaim (after_storing sad_message (failing_at 3)) 3%nat).
  assert (Hcalls :
    (calls (after_storing sad_message (failing_at 3)) <= 3
     < calls (snd (get_relevant_context latin1_lower latin1_isword owner (Py.utf8 "hello") 10
                     (after_storing sad_message (failing_at 3)))))%nat).
  { vm_compute. lia. }
  specialize (Hclaim Hcalls eq_refl). vm_compute in Hclaim. discriminate.
Qed.

(** C10 as the code has it, at runs in which the call numbered 0 raises. *)
Lemma degraded_results_witness :
  fails (failing_at 0) (calls (failing_at 0)) = true /\
  (exists s',
     store_conversation_memory latin1_lower iso_date owner grave_message (failing_at 0)
       = (Return false, s') /\
     memories s' = memories (failing_at 0) /\
     short_term_cache s' = short_term_cache (failing_at 0)) /\
  fst (get_relevant_context latin1_lower latin1_isword owner (Py.utf8 "hello") 10 (failing_at 0))
    = Return [].
Proof.
  destruct (degraded_results latin1_lower latin1_isword iso_date owner
              (Py.utf8 "hello") 10 (failing_at 0))
    as (_ & _ & Hfirst & _ & Hquery & _).
  split; [reflexivity|]. split.
  - apply (Hfirst grave_message). reflexivity.
  - apply Hquery. reflexivity.
Defined.

(** ** Worked runs of the further properties *)

(** X4 at the message "hello". *)
Lemma importance_score_base_witness :
  (_calculate_importance_score latin1_lower (plain_message None) == 0.5)%Q.
Proof.
  apply (importance_score_base latin1_lower (plain_message None)).
  - apply (bool_decide_unpack _). vm_compute. exact I.
  - vm_compute. discriminate.
  - reflexivity.
Defined.

(** X5 at a message of four terms of the high lexicon. *)
Lemma importance_score_saturates_witness :
  (4 <= lexicon_hits importance_keywords_high
          (latin1_lower (Message.content crisis_message)))%Q /\
  (_calculate_importance_score latin1_lower crisis_message == 1)%Q.
Proof.
  assert (Hfour : (4 <= lexicon_hits importance_keywords_high
                          (latin1_lower (Message.content crisis_message)))%Q).
  { apply Qle_bool_iff. vm_compute. reflexivity. }
  split; [exact Hfour|].
  apply (importance_score_saturates latin1_lower crisis_message Hfour).
Defined.

(** X6 at the space of "hello world". *)
Lemma extract_keywords_separator_witness :
  keyword_char latin1_isword 32 = false /\
  _extract_keywords latin1_isword (Py.utf8 "hello" ++ 32%N :: Py.utf8 "world")
  = _extract_keywords latin1_isword (Py.utf8 "hello")
    ++ _extract_keywords latin1_isword (Py.utf8 "world").
Proof.
  split; [reflexivity|].
  apply (extract_keywords_separator latin1_isword (Py.utf8 "hello")
           (Py.utf8 "world") 32%N).
  reflexivity.
Defined.

(** X7 at the keyword "world" of "hello world". *)
Lemma extract_keywords_sound_witness :
  Py.utf8 "world" ∈ _extract_keywords latin1_isword (Py.utf8 "hello world") /\
  (3 <= length (Py.utf8 "world"))%nat /\
  Py.utf8 "world" ∉ stop_words.
Proof.
  assert (Hin : Py.utf8 "world"
                ∈ _extract_keywords latin1_isword (Py.utf8 "hello world")).
  { apply (bool_decide_unpack _). vm_compute. exact I. }
  split; [exact Hin|].
  destruct (extract_keywords_sound latin1_isword (Py.utf8 "hello world")
              (Py.utf8 "world") Hin) as (_ & _ & Hlen & Hstop).
  split; [exact Hlen | exact Hstop].
Defined.

(** X8 at the short-term query after one message has been stored. *)
Lemma get_relevant_memories_sound_witness :
  let s := after_storing sad_message quiet in
  let records := map as_memory (selected_docs owner (Some SHORT_TERM) 5 s) in
  get_relevant_memories owner (Some SHORT_TERM) 5 s
  = (Return records, with_calls (S (calls s)) s) /\
  length records = 1%nat /\
  Forall (fun memory =>
            Memory.user_id memory = owner /\
            Memory.memory_type memory = SHORT_TERM /\
            (0 <= Memory.importance_score memory <= 1)%Q /\
            exists d, d ∈ memories s /\ memory = as_memory d) records.
Proof.
  cbv zeta.
  assert (Hrun :
    get_relevant_memories owner (Some SHORT_TERM) 5
      (after_storing sad_message quiet)
    = (Return (map as_memory
                 (selected_docs owner (Some SHORT_TERM) 5
                    (after_storing sad_message quiet))),
       with_calls (S (calls (after_storing sad_message quiet)))
         (after_storing sad_message quiet)))
    by (vm_compute; reflexivity).
  split; [exact Hrun|]. split; [vm_compute; reflexivity|].
  destruct (get_relevant_memories_sound owner SHORT_TERM 5 _ _ _ Hrun)
    as (Hall & _).
  exact Hall.
Defined.

(** X9 at a query for one record over a collection of two. *)
Lemma get_relevant_memories_limit_witness :
  let s := after_storing grave_message quiet in
  let records := map as_memory (selected_docs owner None 1 s) in
  get_relevant_memories owner None 1 s
  = (Return records, with_calls (S (calls s)) s) /\
  length (memories s) = 2%nat /\
  Z.of_nat (length records) <= Z.abs 1.
Proof.
  cbv zeta.
  assert (Hrun :
    get_relevant_memories owner None 1 (after_storing grave_message quiet)
    = (Return (map as_memory
                 (selected_docs owner None 1
                    (after_storing grave_message quiet))),
       with_calls (S (calls (after_storing grave_message quiet)))
         (after_storing grave_message quiet)))
    by (vm_compute; reflexivity).
  split; [exact Hrun|]. split; [vm_compute; reflexivity|].
  destruct (get_relevant_memories_limit owner None 1 _ _ _ Hrun) as [Hbound _].
  apply Hbound. discriminate.
Defined.

(** X10 at the unlimited query over the two records of [grave_message]. *)
Lemma get_relevant_memories_sorted_witness :
  let s := after_storing grave_message quiet in
  let records := map as_memory (selected_docs owner None 0 s) in
  get_relevant_memories owner None 0 s
  = (Return records, with_calls (S (calls s)) s) /\
  length records = 2%nat /\
  StronglySorted delivered_before records.
Proof.
  cbv zeta.
  assert (Hrun :
    get_relevant_memories owner None 0 (after_storing grave_message quiet)
    = (Return (map as_memory
                 (selected_docs owner None 0
                    (after_storing grave_message quiet))),
       with_calls (S (calls (after_storing grave_message quiet)))
         (after_storing grave_message quiet)))
    by (vm_compute; reflexivity).
  split; [exact Hrun|]. split; [vm_compute; reflexivity|].
  exact (get_relevant_memories_sorted owner None 0 _ _ _ Hrun).
Defined.

(** X11 at the collection with the out-of-range document. *)
Lemma get_relevant_memories_rejects_witness :
  fails tainted (calls tainted) = false /\
  fst (get_relevant_memories owner (Some SHORT_TERM) 5 tainted) = Raise.
Proof.
  split; [reflexivity|].
  apply (get_relevant_memories_rejects owner (Some SHORT_TERM) 5 tainted
           (Doc.mk (ObjectId 0) owner SHORT_TERM (Py.utf8 "user: hello")
                   1.5 0 0 0)).
  - reflexivity.
  - replace (selected_docs owner (Some SHORT_TERM) 5 tainted)
      with (memories tainted) by (vm_compute; reflexivity).
    left.
  - intros [_ Hle]. vm_compute in Hle. now apply Hle.
Defined.

(** X13 after eight days and with a window of seven: the SHORT_TERM
    document goes and the LONG_TERM document stays. *)
Lemma purge_deletes_expired_short_term_witness :
  let s' := snd (cleanup_old_short_term_memories owner 7 aged) in
  cleanup_old_short_term_memories owner 7 aged = (Return 1, s') /\
  memories s' = drop 1 (memories aged) /\
  1 = Z.of_nat (length (memories aged)) - Z.of_nat (length (memories s')).
Proof.
  cbv zeta.
  assert (Hrun :
    cleanup_old_short_term_memories owner 7 aged
    = (Return 1, snd (cleanup_old_short_term_memories owner 7 aged)))
    by (vm_compute; reflexivity).
  split; [exact Hrun|]. split; [vm_compute; reflexivity|].
  destruct (purge_deletes_expired_short_term owner 7 _ _ _ Hrun)
    as (_ & _ & _ & Hcount & _).
  exact Hcount.
Defined.

(** X14 at the empty collection. *)
Lemma stored_memory_is_found_witness :
  let s1 := snd (store_memory owner (Py.utf8 "Said: hello") LONG_TERM 0.8
                   quiet) in
  exists memory,
    memory ∈ map as_memory (selected_docs owner (Some LONG_TERM) 0 s1) /\
    Memory.id memory = Some (ObjectId_str 0) /\
    Memory.user_id memory = owner /\ Memory.memory_type memory = LONG_TERM /\
    Memory.content memory = Py.utf8 "Said: hello" /\
    Memory.importance_score memory = 0.8%Q /\
    Memory.access_count memory = 0.
Proof.
  cbv zeta.
  apply (stored_memory_is_found owner (Py.utf8 "Said: hello") LONG_TERM 0.8
           quiet
           (snd (store_memory owner (Py.utf8 "Said: hello") LONG_TERM 0.8
                   quiet))
           (snd (get_relevant_memories owner (Some LONG_TERM) 0
                   (snd (store_memory owner (Py.utf8 "Said: hello") LONG_TERM
                           0.8 quiet))))
           (ObjectId_str 0)).
  - vm_compute. reflexivity.
  - vm_compute. reflexivity.
Defined.


(** X20 at a cache list of 20 entries. *)
Lemma cache_update_evicts_oldest_witness :
  short_term_cache crowded !! owner = Some (repeat stale_entry 20) /\
  short_term_cache
    (snd (_update_short_term_cache owner sad_message 0.58 crowded)) !! owner
  = Some (drop 1 (repeat stale_entry 20) ++ [entry_of sad_message 0.58]).
Proof.
  assert (Hold : short_term_cache crowded !! owner
                 = Some (repeat stale_entry 20))
    by (vm_compute; reflexivity).
  split; [exact Hold|].
  apply (cache_update_evicts_oldest owner sad_message 0.58 crowded
           (repeat stale_entry 20) Hold).
  vm_compute. lia.
Defined.

(** X22 at an entry that is ten minutes old. *)
Lemma sweep_exact_within_a_day_witness :
  (exists kept,
     short_term_cache (snd (_cleanup_cache recent)) !! owner = Some kept /\
     stale_entry ∈ kept)
  <-> time_of recent (reads recent) - CacheEntry.timestamp stale_entry
      < 3600 * Py.us_per_second.
Proof.
  apply (sweep_exact_within_a_day recent owner [stale_entry] stale_entry).
  - vm_compute. reflexivity.
  - left.
  - vm_compute. split; [discriminate | reflexivity].
Defined.

(** X23 at the default limit of 10. *)
Lemma context_is_bounded_witness :
  2 <= 10 /\
  exists short ranked s',
    get_relevant_context latin1_lower latin1_isword owner (Py.utf8 "hello") 10
      (after_storing grave_message quiet)
    = (Return (context_of (Py.utf8 "Recent: ") short
               ++ context_of (Py.utf8 "Background: ") ranked), s') /\
    Z.of_nat (length (context_of (Py.utf8 "Recent: ") short
                      ++ context_of (Py.utf8 "Background: ") ranked))
    <= 10.
Proof.
  split; [lia|].
  destruct (context_is_bounded latin1_lower latin1_isword owner
              (Py.utf8 "hello") 10 (after_storing grave_message quiet)
              ltac:(lia))
    as (short & ranked & s' & Hrun & _ & _ & Hlen & _).
  exists short, ranked, s'. split; [exact Hrun | exact Hlen].
Defined.


(** X28 at the two records of [tied_in_exact], whose scores the formula
    makes equal and binary64 does not. *)
Lemma rounded_scores_follow_the_formula_witness :
  Forall (fun candidate => 0 <= Memory.access_count candidate)
         (candidate_pool owner tied_in_exact) /\
  exists exact rounded s',
    score_memories latin1_lower latin1_isword
      (keyword_set latin1_isword (latin1_lower (Py.utf8 "alpha beta")))
      (candidate_pool owner tied_in_exact) [] tied_in_exact
      = (Return exact, s') /\
    float_score_memories latin1_lower latin1_isword
      (keyword_set latin1_isword (latin1_lower (Py.utf8 "alpha beta")))
      (candidate_pool owner tied_in_exact) [] tied_in_exact
      = (Return rounded, s') /\
    Forall2 same_record_close_score exact rounded.
Proof.
  assert (Hcount :
    Forall (fun candidate => 0 <= Memory.access_count candidate)
           (candidate_pool owner tied_in_exact)).
  { remember (candidate_pool owner tied_in_exact) as pool eqn:Epool.
    vm_compute in Epool. subst pool.
    repeat first [apply Forall_cons | apply Forall_nil | split];
      vm_compute; discriminate. }
  split; [exact Hcount|].
  apply (rounded_scores_follow_the_formula latin1_lower latin1_isword owner
           (keyword_set latin1_isword (latin1_lower (Py.utf8 "alpha beta")))
           tied_in_exact tied_in_exact Hcount).
Defined.
